(** * exif-exists: the PNG metadata codec of [src/App.jsx]

    A shallow embedding of the binary helpers of [src/src/App.jsx]
    ([crcTable], [crc32], [writeString], [extractPngMetadata],
    [injectPngMetadata]) and of the two handlers that dispatch on the declared
    image type ([handleExtract], [handleInject]), followed by the properties
    of the specification that were checked against them.

    Conventions.
    - A byte buffer ([ArrayBuffer], [Uint8Array]) is a [list byte].
    - A JavaScript number that holds an integer is a [Z]; the 32-bit
      conversions that the bitwise operators perform are written out
      ([toInt32], [toUint32]).
    - A JavaScript string is the list of its UTF-16 code units.
    - A [throw] is the [Throw] branch of [result]. *)

From Stdlib Require Import ZArith List Lia Bool String Ascii.
From Stdlib.Strings Require Import Byte.
Import ListNotations.

Local Open Scope Z_scope.

(* ================================================================== *)
(** * Numbers and bytes *)

(** [ToInt32] and [ToUint32] of ECMAScript, on integers. *)
Definition toInt32 (z : Z) : Z := (z + 2 ^ 31) mod 2 ^ 32 - 2 ^ 31.
Definition toUint32 (z : Z) : Z := z mod 2 ^ 32.

(** [a ^ b], [a & b]: both operands go through [ToInt32]; the result is an
    int32. *)
Definition js_xor (a b : Z) : Z := Z.lxor (toInt32 a) (toInt32 b).
Definition js_and (a b : Z) : Z := Z.land (toInt32 a) (toInt32 b).
(** [a >>> n]: the left operand goes through [ToUint32]. *)
Definition js_ushr (a n : Z) : Z := Z.shiftr (toUint32 a) (n mod 32).

(** The value of a byte, and the byte that a typed-array store keeps of a
    number (its value modulo 256). *)
Definition b2z (b : byte) : Z := Z.of_N (Byte.to_N b).
Definition z2b (z : Z) : byte :=
  match Byte.of_N (Z.to_N (z mod 256)) with
  | Some b => b
  | None => x00
  end.

(* ================================================================== *)
(** * CRC-32 (App.jsx, lines 22-38) *)

(** One turn of the inner loop of lines 25-28. *)
Definition crcTable_step (c : Z) : Z :=
  if negb (js_and c 1 =? 0) then js_xor 0xedb88320 (js_ushr c 1)
  else js_ushr c 1.

Fixpoint iter_n {A} (n : nat) (f : A -> A) (x : A) : A :=
  match n with
  | O => x
  | S k => iter_n k f (f x)
  end.

(** [crcTable[n]] as the outer loop leaves it. *)
Definition crcTable_entry (n : Z) : Z := iter_n 8 crcTable_step n.

Definition crcTable : list Z :=
  Eval vm_compute in map (fun n => crcTable_entry (Z.of_nat n)) (seq 0 256).

(** [crcTable[i]]; an index outside the array reads [undefined], which the
    bitwise operators take as 0. *)
Definition crcTable_get (i : Z) : Z :=
  if (0 <=? i) && (i <? 256) then nth (Z.to_nat i) crcTable 0 else 0.

Definition crc32_update (c : Z) (b : byte) : Z :=
  js_xor (crcTable_get (js_and (js_xor c (b2z b)) 0xff)) (js_ushr c 8).

Definition crc32 (buf : list byte) : Z :=
  js_xor (fold_left crc32_update buf 0xffffffff) 0xffffffff.

(** ** The reference CRC-32, bit by bit on unsigned 32-bit values

    The checksum of the PNG specification (ISO 3309, reflected polynomial
    [0xEDB88320]) without a table: every input byte is XORed into the low
    byte of the register, which is then shifted right eight times, the
    polynomial being XORed in whenever a one falls out. *)
Definition ref_shift (c : Z) : Z :=
  if Z.testbit c 0 then Z.lxor 0xedb88320 (Z.shiftr c 1) else Z.shiftr c 1.

Definition ref_update (c : Z) (b : byte) : Z :=
  iter_n 8 ref_shift (Z.lxor c (b2z b)).

Definition crc32_reference (buf : list byte) : Z :=
  Z.lxor (fold_left ref_update buf 0xffffffff) 0xffffffff.

Definition ascii_bytes (s : string) : list byte := list_byte_of_string s.

(* ================================================================== *)
(** * Exceptions *)

Inductive exn : Type :=
| InvalidPngError            (** [new Error(...)] of line 54: not a valid PNG file *)
| RangeError                 (** thrown by [DataView] and typed arrays out of bounds *)
| PiexifLoadingError         (** [new Error(...)] of line 196: the JPG library is not loaded *)
| HostError (msg : string).  (** whatever the piexif library throws *)

Inductive result (A : Type) : Type :=
| Ok (a : A)
| Throw (e : exn).
Arguments Ok {A} a.
Arguments Throw {A} e.

Definition bind {A B} (r : result A) (k : A -> result B) : result B :=
  match r with
  | Ok a => k a
  | Throw e => Throw e
  end.

Declare Scope result_scope.
Delimit Scope result_scope with result.
Notation "x <- r ;; k" := (bind r (fun x => k))
  (at level 61, r at next level, right associativity) : result_scope.

(* ================================================================== *)
(** * Strings, [TextEncoder] and [TextDecoder]

    The two host objects are modelled after the Encoding standard: the
    encoder first replaces every unpaired surrogate by U+FFFD and then writes
    UTF-8; the decoder is the standard's UTF-8 decoder in replacement mode,
    followed by the removal of one leading U+FEFF ([ignoreBOM] is false).
    Masks and shifts by constants are written as [mod] and [*]:
    [b & 0x3F] is [b mod 64], [(cp << 6) | x] is [cp * 64 + x] for
    [x < 64]. *)

Definition jsstring : Type := list Z.

(** A string literal of ASCII characters. *)
Definition js_lit (s : string) : jsstring := map b2z (list_byte_of_string s).

Definition jsstring_eqb (a b : jsstring) : bool :=
  if list_eq_dec Z.eq_dec a b then true else false.

Definition is_lead (c : Z) : bool := (0xD800 <=? c) && (c <=? 0xDBFF).
Definition is_trail (c : Z) : bool := (0xDC00 <=? c) && (c <=? 0xDFFF).

(** Conversion of a string to scalar values (USVString). *)
Fixpoint usv_of_js (s : jsstring) : list Z :=
  match s with
  | [] => []
  | c :: rest =>
      if is_lead c then
        match rest with
        | d :: rest' =>
            if is_trail d
            then (0x10000 + (c - 0xD800) * 1024 + (d - 0xDC00)) :: usv_of_js rest'
            else 0xFFFD :: usv_of_js rest
        | [] => [0xFFFD]
        end
      else if is_trail c then 0xFFFD :: usv_of_js rest
      else c :: usv_of_js rest
  end.

Definition utf8_encode_cp (cp : Z) : list Z :=
  if cp <? 0x80 then [cp]
  else if cp <? 0x800 then [0xC0 + cp / 64; 0x80 + cp mod 64]
  else if cp <? 0x10000 then
    [0xE0 + cp / 4096; 0x80 + (cp / 64) mod 64; 0x80 + cp mod 64]
  else
    [0xF0 + cp / 262144; 0x80 + (cp / 4096) mod 64;
     0x80 + (cp / 64) mod 64; 0x80 + cp mod 64].

(** [new TextEncoder().encode(s)] *)
Definition TextEncoder_encode (s : jsstring) : list byte :=
  map z2b (flat_map utf8_encode_cp (usv_of_js s)).

(** The state of the UTF-8 decoder. *)
Record utf8_state : Type := {
  u_cp : Z;       (** code point being assembled *)
  u_seen : Z;     (** continuation bytes seen *)
  u_needed : Z;   (** continuation bytes needed *)
  u_lower : Z;    (** lower boundary of the next byte *)
  u_upper : Z     (** upper boundary of the next byte *)
}.

Definition utf8_init : utf8_state :=
  {| u_cp := 0; u_seen := 0; u_needed := 0; u_lower := 0x80; u_upper := 0xBF |}.

(** A byte read when no continuation byte is needed. *)
Definition utf8_lead (b : Z) : list Z * utf8_state :=
  if b <=? 0x7F then ([b], utf8_init)
  else if (0xC2 <=? b) && (b <=? 0xDF) then
    ([], {| u_cp := b mod 32; u_seen := 0; u_needed := 1;
            u_lower := 0x80; u_upper := 0xBF |})
  else if (0xE0 <=? b) && (b <=? 0xEF) then
    ([], {| u_cp := b mod 16; u_seen := 0; u_needed := 2;
            u_lower := if b =? 0xE0 then 0xA0 else 0x80;
            u_upper := if b =? 0xED then 0x9F else 0xBF |})
  else if (0xF0 <=? b) && (b <=? 0xF4) then
    ([], {| u_cp := b mod 8; u_seen := 0; u_needed := 3;
            u_lower := if b =? 0xF0 then 0x90 else 0x80;
            u_upper := if b =? 0xF4 then 0x8F else 0xBF |})
  else ([0xFFFD], utf8_init).

(** The handler of the decoder: the code points it emits for one byte and
    the state it moves to.  A byte outside the boundaries ends the pending
    sequence with U+FFFD and is read again from the initial state. *)
Definition utf8_handler (st : utf8_state) (b : Z) : list Z * utf8_state :=
  if u_needed st =? 0 then utf8_lead b
  else if negb ((u_lower st <=? b) && (b <=? u_upper st)) then
    let (out, st') := utf8_lead b in (0xFFFD :: out, st')
  else
    let cp := u_cp st * 64 + b mod 64 in
    if u_seen st + 1 =? u_needed st then ([cp], utf8_init)
    else ([], {| u_cp := cp; u_seen := u_seen st + 1; u_needed := u_needed st;
                 u_lower := 0x80; u_upper := 0xBF |}).

Fixpoint utf8_run (st : utf8_state) (bs : list byte) : list Z :=
  match bs with
  | [] => if u_needed st =? 0 then [] else [0xFFFD]
  | b :: rest =>
      let (out, st') := utf8_handler st (b2z b) in
      out ++ utf8_run st' rest
  end.

Definition strip_bom (cps : list Z) : list Z :=
  match cps with
  | c :: rest => if c =? 0xFEFF then rest else cps
  | [] => []
  end.

(** A code point as UTF-16 code units. *)
Definition utf16_of_cp (cp : Z) : list Z :=
  if cp <? 0x10000 then [cp]
  else [0xD800 + (cp - 0x10000) / 1024; 0xDC00 + (cp - 0x10000) mod 1024].

(** [new TextDecoder('utf-8').decode(bytes)] *)
Definition TextDecoder_decode (bs : list byte) : jsstring :=
  flat_map utf16_of_cp (strip_bom (utf8_run utf8_init bs)).

(* ================================================================== *)
(** * [ArrayBuffer], [DataView] and [Uint8Array] *)

Definition byteLength (buf : list byte) : Z := Z.of_nat (List.length buf).

Definition byte_at (buf : list byte) (i : Z) : Z := b2z (nth (Z.to_nat i) buf x00).

(** [view.getUint32(offset)]: big-endian; [RangeError] outside the buffer. *)
Definition getUint32 (buf : list byte) (offset : Z) : result Z :=
  if (0 <=? offset) && (offset + 4 <=? byteLength buf) then
    Ok (byte_at buf offset * 2 ^ 24 + byte_at buf (offset + 1) * 2 ^ 16
        + byte_at buf (offset + 2) * 2 ^ 8 + byte_at buf (offset + 3))
  else Throw RangeError.

(** [new Uint8Array(buffer, byteOffset, length)] *)
Definition Uint8Array_view (buf : list byte) (byteOffset len : Z)
  : result (list byte) :=
  if (0 <=? byteOffset) && (0 <=? len) && (byteOffset + len <=? byteLength buf)
  then Ok (firstn (Z.to_nat len) (skipn (Z.to_nat byteOffset) buf))
  else Throw RangeError.

(** [a.slice(start, end)] and [a.slice(start)] for non-negative arguments:
    a copy, clamped to the array. *)
Definition slice (buf : list byte) (start stop : Z) : list byte :=
  firstn (Z.to_nat stop - Z.to_nat start) (skipn (Z.to_nat start) buf).
Definition slice_from (buf : list byte) (start : Z) : list byte :=
  skipn (Z.to_nat start) buf.

(** [new Uint8Array(n)]: [n] zero bytes. *)
Definition new_Uint8Array (n : Z) : list byte := repeat x00 (Z.to_nat n).

(** The bytes of [buf] with [src] written over them from [offset] on. *)
Definition overwrite (buf : list byte) (offset : nat) (src : list byte)
  : list byte :=
  firstn offset buf ++ src ++ skipn (offset + List.length src) buf.

(** The four bytes that [setUint32] stores: [ToUint32] of the value,
    big-endian. *)
Definition be32 (v : Z) : list byte :=
  let u := toUint32 v in
  [z2b (u / 2 ^ 24); z2b (u / 2 ^ 16); z2b (u / 2 ^ 8); z2b u].

Definition setUint32 (buf : list byte) (offset v : Z) : result (list byte) :=
  if (0 <=? offset) && (offset + 4 <=? byteLength buf)
  then Ok (overwrite buf (Z.to_nat offset) (be32 v))
  else Throw RangeError.

Definition setUint8 (buf : list byte) (offset v : Z) : result (list byte) :=
  if (0 <=? offset) && (offset + 1 <=? byteLength buf)
  then Ok (overwrite buf (Z.to_nat offset) [z2b v])
  else Throw RangeError.

(** [target.set(source, offset)] *)
Definition TypedArray_set (buf src : list byte) (offset : Z)
  : result (list byte) :=
  if (0 <=? offset) && (offset + byteLength src <=? byteLength buf)
  then Ok (overwrite buf (Z.to_nat offset) src)
  else Throw RangeError.

(** [a[i] = v]: a store outside the array is ignored. *)
Definition index_assign (buf : list byte) (i v : Z) : list byte :=
  if (0 <=? i) && (i <? byteLength buf)
  then overwrite buf (Z.to_nat i) [z2b v]
  else buf.

(* ================================================================== *)
(** * The PNG codec (App.jsx, lines 40-128) *)

(** What the two extractors return: [{ type: 'png', data: parameters }] or
    [{ type: 'jpg', data: exifObj }]. *)
Inductive Metadata (ExifObj : Type) : Type :=
| PngMetadata (data : jsstring)
| JpgMetadata (data : ExifObj).
Arguments PngMetadata {ExifObj} data.
Arguments JpgMetadata {ExifObj} data.

Definition meta_type {E} (m : Metadata E) : string :=
  match m with
  | PngMetadata _ => "png"
  | JpgMetadata _ => "jpg"
  end.

(** ** [extractPngMetadata] *)

(** Lines 67-73: the index of the first zero byte, or -1. *)
Fixpoint find_null (i : Z) (chunkData : list byte) : Z :=
  match chunkData with
  | [] => -1
  | b :: rest => if b2z b =? 0 then i else find_null (i + 1) rest
  end.

(** How one turn of the [while] loop ends: [break] with [parameters] set,
    or the next [offset]. *)
Inductive iteration : Type :=
| Break (parameters : jsstring)
| Next (offset : Z).

(** The body of the loop, lines 61-85. *)
Definition scan_chunk (buffer : list byte) (offset : Z) : result iteration :=
  (len <- getUint32 buffer offset ;;
   typeBytes <- Uint8Array_view buffer (offset + 4) 4 ;;
   if jsstring_eqb (TextDecoder_decode typeBytes) (js_lit "tEXt") then
     (chunkData <- Uint8Array_view buffer (offset + 8) len ;;
      let nullIndex := find_null 0 chunkData in
      if -1 <? nullIndex then
        if jsstring_eqb (TextDecoder_decode (slice chunkData 0 nullIndex))
                        (js_lit "parameters")
        then Ok (Break (TextDecoder_decode (slice_from chunkData (nullIndex + 1))))
        else Ok (Next (offset + (12 + len)))
      else Ok (Next (offset + (12 + len))))
   else Ok (Next (offset + (12 + len))))%result.

(** The loop of lines 60-86; [None] when the fuel runs out.  The result is
    the final value of [parameters]. *)
Fixpoint scan (fuel : nat) (buffer : list byte) (offset : Z) {struct fuel}
  : option (result (option jsstring)) :=
  if offset <? byteLength buffer then
    match fuel with
    | O => None
    | S fuel' =>
        match scan_chunk buffer offset with
        | Throw e => Some (Throw e)
        | Ok (Break parameters) => Some (Ok (Some parameters))
        | Ok (Next offset') => scan fuel' buffer offset'
        end
    end
  else Some (Ok None).

(** Line 88: [parameters ? { type: 'png', data: parameters } : null]; [null]
    and the empty string are falsy. *)
Definition png_result {E} (parameters : option jsstring) : option (Metadata E) :=
  match parameters with
  | Some (c :: s) => Some (PngMetadata (c :: s))
  | _ => None
  end.

(** [extractPngMetadata(file)], on the bytes of the file.  Every turn of the
    loop moves [offset] forward by at least 12, so the length of the buffer
    is enough fuel ([extractPngMetadata_total]). *)
Definition extractPngMetadata {E} (file : list byte)
  : option (result (option (Metadata E))) :=
  let buffer := file in
  match getUint32 buffer 0 with
  | Throw e => Some (Throw e)
  | Ok w0 =>
      if negb (w0 =? 0x89504e47) then Some (Throw InvalidPngError)
      else
        match getUint32 buffer 4 with
        | Throw e => Some (Throw e)
        | Ok w1 =>
            if negb (w1 =? 0x0d0a1a0a) then Some (Throw InvalidPngError)
            else
              match scan (List.length buffer) buffer 8 with
              | None => None
              | Some (Throw e) => Some (Throw e)
              | Some (Ok parameters) => Some (Ok (png_result parameters))
              end
        end
  end.

(** ** [injectPngMetadata]

    The function reads [originalBuffer] and writes to the two arrays it
    allocates, [chunkBuffer] (also through the [DataView] on it) and
    [finalBuffer].  The three buffers are kept in a store, and every
    statement is a step on the store. *)
Inductive bufname : Type := originalBuffer | chunkBuffer | finalBuffer.

Record store : Type := {
  s_originalBuffer : list byte;
  s_chunkBuffer : list byte;
  s_finalBuffer : list byte
}.

Definition get (s : store) (n : bufname) : list byte :=
  match n with
  | originalBuffer => s_originalBuffer s
  | chunkBuffer => s_chunkBuffer s
  | finalBuffer => s_finalBuffer s
  end.

Definition put (s : store) (n : bufname) (v : list byte) : store :=
  match n with
  | originalBuffer =>
      {| s_originalBuffer := v; s_chunkBuffer := s_chunkBuffer s;
         s_finalBuffer := s_finalBuffer s |}
  | chunkBuffer =>
      {| s_originalBuffer := s_originalBuffer s; s_chunkBuffer := v;
         s_finalBuffer := s_finalBuffer s |}
  | finalBuffer =>
      {| s_originalBuffer := s_originalBuffer s;
         s_chunkBuffer := s_chunkBuffer s; s_finalBuffer := v |}
  end.

(** Statements: a step on the store that returns a value or throws. *)
Definition prog (A : Type) : Type := store -> result (A * store).

Definition ret {A} (a : A) : prog A := fun s => Ok (a, s).

Definition pbind {A B} (c : prog A) (k : A -> prog B) : prog B :=
  fun s => match c s with
           | Ok (a, s') => k a s'
           | Throw e => Throw e
           end.

Declare Scope prog_scope.
Delimit Scope prog_scope with prog.
Notation "x <- c ;; k" := (pbind c (fun x => k))
  (at level 61, c at next level, right associativity) : prog_scope.
Notation "c ;; k" := (pbind c (fun _ => k))
  (at level 61, right associativity) : prog_scope.

(** Reading a buffer (its length, a copy of a part of it). *)
Definition read (n : bufname) : prog (list byte) := fun s => Ok (get s n, s).

(** Writing to a buffer. *)
Definition write (n : bufname) (f : list byte -> result (list byte))
  : prog unit :=
  fun s => match f (get s n) with
           | Ok v => Ok (tt, put s n v)
           | Throw e => Throw e
           end.

Definition alloc (n : bufname) (len : Z) : prog unit :=
  fun s => Ok (tt, put s n (new_Uint8Array len)).

(** [writeString(view, offset, string)], lines 40-44: the loop from [i]. *)
Fixpoint writeString_from (view : bufname) (offset i : Z) (chars : jsstring)
  : prog unit :=
  match chars with
  | [] => ret tt
  | c :: rest =>
      (write view (fun b => setUint8 b (offset + i) c) ;;
       writeString_from view offset (i + 1) rest)%prog
  end.

Definition writeString (view : bufname) (offset : Z) (string : jsstring)
  : prog unit :=
  writeString_from view offset 0 string.

(** Lines 94-118: the new chunk, built in [chunkBuffer]. *)
Definition build_chunk (metadataString : jsstring) : prog unit :=
  (let keyword := js_lit "parameters" in
   let keyData := TextEncoder_encode keyword in
   let textData := TextEncoder_encode metadataString in
   let chunkLength := byteLength keyData + 1 + byteLength textData in
   alloc chunkBuffer (chunkLength + 12) ;;
   (* 1. Length *)
   write chunkBuffer (fun b => setUint32 b 0 chunkLength) ;;
   (* 2. Type *)
   writeString chunkBuffer 4 (js_lit "tEXt") ;;
   (* 3. Data *)
   write chunkBuffer (fun b => TypedArray_set b keyData 8) ;;
   write chunkBuffer
     (fun b => Ok (index_assign b (8 + byteLength keyData) 0)) ;;
   write chunkBuffer
     (fun b => TypedArray_set b textData (8 + byteLength keyData + 1)) ;;
   (* 4. CRC (on type and data) *)
   chunk <- read chunkBuffer ;;
   let crcInput := slice chunk 4 (8 + chunkLength) in
   write chunkBuffer (fun b => setUint32 b (8 + chunkLength) (crc32 crcInput)))%prog.

(** Lines 120-125: signature, new chunk, rest of the file. *)
Definition combine : prog (list byte) :=
  (original <- read originalBuffer ;;
   chunk <- read chunkBuffer ;;
   alloc finalBuffer (byteLength original + byteLength chunk) ;;
   write finalBuffer (fun b => TypedArray_set b (slice original 0 8) 0) ;;
   write finalBuffer (fun b => TypedArray_set b chunk 8) ;;
   write finalBuffer
     (fun b => TypedArray_set b (slice_from original 8) (8 + byteLength chunk)) ;;
   read finalBuffer)%prog.

Definition injectPngMetadata_body (metadataString : jsstring)
  : prog (list byte) :=
  (build_chunk metadataString ;; combine)%prog.

Definition initial_store (file : list byte) : store :=
  {| s_originalBuffer := file; s_chunkBuffer := []; s_finalBuffer := [] |}.

(** A [Blob]: its bytes and its type. *)
Record Blob : Type := { blob_bytes : list byte; blob_type : string }.

(** [injectPngMetadata(file, metadataString)], on the bytes of the file. *)
Definition injectPngMetadata (file : list byte) (metadataString : jsstring)
  : result Blob :=
  match injectPngMetadata_body metadataString (initial_store file) with
  | Ok (finalBytes, _) =>
      Ok {| blob_bytes := finalBytes; blob_type := "image/png" |}
  | Throw e => Throw e
  end.

Definition PNG_SIGNATURE : list byte := [x89; x50; x4e; x47; x0d; x0a; x1a; x0a].

(* ================================================================== *)
(** * The handlers (App.jsx, lines 133-254) *)

(** A dropped [File]: its name, its declared (MIME) type and its bytes. *)
Record File : Type := {
  file_name : string;
  file_type : string;
  file_bytes : list byte
}.

Inductive StatusType : Type := idle | loading | success | error.

(** The messages of [setStatus], by the place that sets them. *)
Inductive Msg : Type :=
| MsgWaiting                     (** line 180 *)
| MsgExtracting                  (** line 188 *)
| MsgWebpExperimental            (** line 200: WebP is experimental, use PNG *)
| MsgSaved (name : string)       (** line 207 *)
| MsgNoMetadata                  (** line 209 *)
| MsgExtractError (e : exn)      (** line 213 *)
| MsgExtractFirst                (** line 220 *)
| MsgInjecting                   (** line 224 *)
| MsgMismatchPng                 (** line 231: format mismatch, PNG target *)
| MsgMismatchJpg                 (** line 235: format mismatch, JPG target *)
| MsgRestored                    (** line 248 *)
| MsgInjectFailed (e : exn).     (** line 252 *)

Record Status : Type := { status_type : StatusType; status_msg : Msg }.

(** [processedImage]: the object URL (the blob it names) and the download
    name. *)
Record ProcessedImage : Type := { url : Blob; name : string }.

Section Handlers.

(** The piexif library, loaded from a CDN: the type of the objects
    [piexif.load] returns, whether [window.piexif] is set, [load] on the
    bytes of a file, and [dump] followed by [insert] and the conversion of
    the data URL to a [Blob] (lines 153-164). *)
Variable ExifObj : Type.
Variable window_piexif : bool.
Variable piexif_load : list byte -> result ExifObj.
Variable piexif_dump_insert : jsstring + ExifObj -> list byte -> result Blob.

(** The state of the component (lines 177-181). *)
Record AppState : Type := {
  cachedMetadata : option (Metadata ExifObj);
  sourceFileName : string;
  processedImage : option ProcessedImage;
  status : Status
}.

Definition setCachedMetadata (st : AppState) (v : option (Metadata ExifObj)) :=
  {| cachedMetadata := v; sourceFileName := sourceFileName st;
     processedImage := processedImage st; status := status st |}.
Definition setSourceFileName (st : AppState) (v : string) :=
  {| cachedMetadata := cachedMetadata st; sourceFileName := v;
     processedImage := processedImage st; status := status st |}.
Definition setProcessedImage (st : AppState) (v : option ProcessedImage) :=
  {| cachedMetadata := cachedMetadata st; sourceFileName := sourceFileName st;
     processedImage := v; status := status st |}.
Definition setStatus (st : AppState) (t : StatusType) (m : Msg) :=
  {| cachedMetadata := cachedMetadata st; sourceFileName := sourceFileName st;
     processedImage := processedImage st;
     status := {| status_type := t; status_msg := m |} |}.

(** [cachedMetadata.data] *)
Definition meta_data (m : Metadata ExifObj) : jsstring + ExifObj :=
  match m with
  | PngMetadata d => inl d
  | JpgMetadata d => inr d
  end.

(** The string [encoder.encode] makes of its argument: an object that is
    not a string is converted with [String]. *)
Definition ToString (v : jsstring + ExifObj) : jsstring :=
  match v with
  | inl s => s
  | inr _ => js_lit "[object Object]"
  end.

(** Lines 133-146: a failure of [piexif.load] is [null]. *)
Definition extractJpgMetadata (file : File) : option (Metadata ExifObj) :=
  match piexif_load (file_bytes file) with
  | Ok exifObj => Some (JpgMetadata exifObj)
  | Throw _ => None
  end.

(** Lines 148-172. *)
Definition injectJpgMetadata (file : File) (metadataObj : jsstring + ExifObj)
  : result Blob :=
  piexif_dump_insert metadataObj (file_bytes file).

(** What the [try] block of [handleExtract] does before line 204. *)
Inductive extracted : Type :=
| Result (r : option (Metadata ExifObj))
| Return (st : AppState).

(** [handleExtract], lines 187-215; [None] when [extractPngMetadata] runs
    out of fuel. *)
Definition handleExtract (st : AppState) (file : File) : option AppState :=
  let st := setStatus st loading MsgExtracting in
  let st := setProcessedImage st None in
  let attempt : option (result extracted) :=
    if String.eqb (file_type file) "image/png" then
      match extractPngMetadata (file_bytes file) with
      | None => None
      | Some (Ok r) => Some (Ok (Result r))
      | Some (Throw e) => Some (Throw e)
      end
    else if String.eqb (file_type file) "image/jpeg" then
      if negb window_piexif then Some (Throw PiexifLoadingError)
      else Some (Ok (Result (extractJpgMetadata file)))
    else if String.eqb (file_type file) "image/webp" then
      Some (Ok (Return (setStatus st error MsgWebpExperimental)))
    else Some (Ok (Result None)) in
  match attempt with
  | None => None
  | Some (Ok (Return st')) => Some st'
  | Some (Ok (Result (Some result))) =>
      let st := setCachedMetadata st (Some result) in
      let st := setSourceFileName st (file_name file) in
      Some (setStatus st success (MsgSaved (file_name file)))
  | Some (Ok (Result None)) => Some (setStatus st error MsgNoMetadata)
  | Some (Throw e) => Some (setStatus st error (MsgExtractError e))
  end.

(** [handleInject], lines 218-254. *)
Definition handleInject (st : AppState) (file : File) : AppState :=
  match cachedMetadata st with
  | None => setStatus st error MsgExtractFirst
  | Some cached =>
      let st := setStatus st loading MsgInjecting in
      if String.eqb (file_type file) "image/png"
         && negb (String.eqb (meta_type cached) "png")
      then setStatus st error MsgMismatchPng
      else if String.eqb (file_type file) "image/jpeg"
              && negb (String.eqb (meta_type cached) "jpg")
      then setStatus st error MsgMismatchJpg
      else
        let finalBlob : result (option Blob) :=
          if String.eqb (file_type file) "image/png" then
            match injectPngMetadata (file_bytes file)
                                    (ToString (meta_data cached)) with
            | Ok b => Ok (Some b)
            | Throw e => Throw e
            end
          else if String.eqb (file_type file) "image/jpeg" then
            match injectJpgMetadata file (meta_data cached) with
            | Ok b => Ok (Some b)
            | Throw e => Throw e
            end
          else Ok None in
        match finalBlob with
        | Ok (Some blob) =>
            let st :=
              setProcessedImage st
                (Some {| url := blob;
                         name := String.append "fixed_" (file_name file) |}) in
            setStatus st success MsgRestored
        | Ok None => st
        | Throw e => setStatus st error (MsgInjectFailed e)
        end
  end.

End Handlers.

Arguments cachedMetadata {ExifObj} _.
Arguments sourceFileName {ExifObj} _.
Arguments processedImage {ExifObj} _.
Arguments status {ExifObj} _.
Arguments setStatus {ExifObj} st t m.
Arguments handleExtract {ExifObj} window_piexif piexif_load st file.
Arguments handleInject {ExifObj} piexif_dump_insert st file.

(* ================================================================== *)
(** * Chunks and PNG files, for the statements *)

(** A chunk of a PNG file: its 4-byte type, its data and its 4-byte CRC
    field (the length field is the length of the data). *)
Record Chunk : Type := {
  chunk_type : list byte;
  chunk_data : list byte;
  chunk_crc : list byte
}.

Definition encode_chunk (c : Chunk) : list byte :=
  be32 (byteLength (chunk_data c)) ++ chunk_type c ++ chunk_data c ++ chunk_crc c.

(** The layout of a chunk is well formed: type and CRC have four bytes, and
    the length of the data fits the 32-bit length field. *)
Definition wf_chunk (c : Chunk) : Prop :=
  List.length (chunk_type c) = 4%nat /\ List.length (chunk_crc c) = 4%nat /\
  byteLength (chunk_data c) < 2 ^ 32.

(** A chunk with the CRC that [injectPngMetadata] computes, over type and
    data. *)
Definition make_chunk (type : string) (data : list byte) : Chunk :=
  {| chunk_type := ascii_bytes type;
     chunk_data := data;
     chunk_crc := be32 (crc32 (ascii_bytes type ++ data)) |}.

(** The [tEXt] chunk of a keyword and a text: keyword, a zero byte, text. *)
Definition text_chunk (keyword text : jsstring) : Chunk :=
  make_chunk "tEXt" (TextEncoder_encode keyword ++ [x00] ++ TextEncoder_encode text).

(** The chunk that [injectPngMetadata] builds for a text. *)
Definition parameters_chunk (metadataString : jsstring) : Chunk :=
  text_chunk (js_lit "parameters") metadataString.

(** A file: the signature, then the chunks. *)
Definition png_of (chunks : list Chunk) : list byte :=
  PNG_SIGNATURE ++ flat_map encode_chunk chunks.

(** The minimal file of the round-trip property: IHDR, IDAT, IEND. *)
Definition minimal_png (ihdr idat : list byte) : list byte :=
  png_of [make_chunk "IHDR" ihdr; make_chunk "IDAT" idat; make_chunk "IEND" []].

(** ** What [extractPngMetadata] makes of a chunk *)

Definition chunk_is_tEXt (c : Chunk) : bool :=
  jsstring_eqb (TextDecoder_decode (chunk_type c)) (js_lit "tEXt").

(** The keyword and the text of a [tEXt] chunk, split at the first zero
    byte of its data; [None] for another chunk and for a [tEXt] chunk with
    no zero byte. *)
Definition chunk_entry (c : Chunk) : option (jsstring * jsstring) :=
  if chunk_is_tEXt c then
    let i := find_null 0 (chunk_data c) in
    if -1 <? i
    then Some (TextDecoder_decode (slice (chunk_data c) 0 i),
               TextDecoder_decode (slice_from (chunk_data c) (i + 1)))
    else None
  else None.

Definition is_parameters (c : Chunk) : bool :=
  match chunk_entry c with
  | Some (keyword, _) => jsstring_eqb keyword (js_lit "parameters")
  | None => false
  end.

(** The text of the first chunk, in file order, whose keyword is
    [parameters]. *)
Fixpoint first_parameters (chunks : list Chunk) : option jsstring :=
  match chunks with
  | [] => None
  | c :: rest =>
      match chunk_entry c with
      | Some (keyword, text) =>
          if jsstring_eqb keyword (js_lit "parameters") then Some text
          else first_parameters rest
      | None => first_parameters rest
      end
  end.

(** A string is well-formed UTF-16: 16-bit code units, every surrogate in a
    pair. *)
Fixpoint well_formed (s : jsstring) : bool :=
  match s with
  | [] => true
  | c :: rest =>
      if is_lead c then
        match rest with
        | d :: rest' => is_trail d && well_formed rest'
        | [] => false
        end
      else if is_trail c then false
      else (0 <=? c) && (c <? 0x10000) && well_formed rest
  end.

(** The string starts with U+FEFF. *)
Definition starts_with_bom (s : jsstring) : bool :=
  match s with
  | c :: _ => c =? 0xFEFF
  | [] => false
  end.

(** A string of ASCII characters. *)
Definition ascii_only (s : jsstring) : Prop := Forall (fun c => 0 <= c < 0x80) s.

(** A pending state of the decoder from which the next code point is not
    ASCII. *)
Definition pending_high (st : utf8_state) : Prop :=
  u_needed st <> 0 /\ 0x80 <= u_lower st /\ u_upper st <= 0xBF /\
  0 <= u_seen st < u_needed st /\
  (u_needed st - u_seen st = 1 -> 0x80 <= u_cp st * 64 + (u_lower st - 0x80)) /\
  (2 <= u_needed st - u_seen st -> 2 <= u_cp st * 64 + (u_lower st - 0x80)).

(** A scalar value: a code point that is not a surrogate. *)
Definition scalar (cp : Z) : Prop :=
  0 <= cp < 0xD800 \/ 0xE000 <= cp < 0x110000.

(** ** The operations as the specification words them (sections 4.2, 4.3) *)

Definition TextEntry : Type := (jsstring * jsstring)%type.

Definition recognized (keyword : jsstring) : bool :=
  jsstring_eqb keyword (js_lit "parameters")
  || jsstring_eqb keyword (js_lit "prompt")
  || jsstring_eqb keyword (js_lit "workflow").

(** Section 4.2, steps 3-4: every entry with a recognized keyword, in file
    order. *)
Fixpoint spec_collect (chunks : list Chunk) : list TextEntry :=
  match chunks with
  | [] => []
  | c :: rest =>
      match chunk_entry c with
      | Some (keyword, text) =>
          if recognized keyword then (keyword, text) :: spec_collect rest
          else spec_collect rest
      | None => spec_collect rest
      end
  end.

(** Section 4.2, step 5. *)
Definition spec_extract (chunks : list Chunk) : option (list TextEntry) :=
  match spec_collect chunks with
  | [] => None
  | entries => Some entries
  end.

(** The entries that a result of [extractPngMetadata] holds. *)
Definition result_entries {E} (r : option (Metadata E)) : option (list TextEntry) :=
  match r with
  | Some (PngMetadata d) => Some [(js_lit "parameters", d)]
  | _ => None
  end.

(** Section 4.3, steps 2 and 4. *)
Definition spec_headerEnd (headerLength : Z) : Z := 8 + 4 + 4 + headerLength + 4.

Definition spec_inject (original : list byte) (headerLength : Z)
  (newChunks : list Chunk) : list byte :=
  slice original 0 (spec_headerEnd headerLength)
  ++ flat_map encode_chunk newChunks
  ++ slice_from original (spec_headerEnd headerLength).

(** What the body of the loop does when [offset] is at a chunk. *)
Definition chunk_iteration (c : Chunk) (offset : Z) : iteration :=
  match chunk_entry c with
  | Some (keyword, text) =>
      if jsstring_eqb keyword (js_lit "parameters") then Break text
      else Next (offset + (12 + byteLength (chunk_data c)))
  | None => Next (offset + (12 + byteLength (chunk_data c)))
  end.

(** ** Conditions on chunks, for the statements *)

(** A [tEXt] chunk whose data holds no zero byte. *)
Definition no_null_tEXt (c : Chunk) : Prop :=
  chunk_type c = ascii_bytes "tEXt" /\ ~ In x00 (chunk_data c).

(** The UTF-8 encoding of U+FEFF, which [TextDecoder] drops at the start of
    its input. *)
Definition utf8_bom : list byte := [xef; xbb; xbf].

(** The chunk is a [tEXt] chunk with the keyword [keyword]: its data is the
    keyword, which holds no zero byte, then a zero byte, then a text. *)
Definition carries_keyword (c : Chunk) (keyword : list byte) : Prop :=
  chunk_type c = ascii_bytes "tEXt" /\ ~ In x00 keyword
  /\ exists text, chunk_data c = keyword ++ x00 :: text.

(** The recognized set of the specification, as the bytes of the keywords. *)
Definition recognized_keywords : list (list byte) :=
  [ascii_bytes "parameters"; ascii_bytes "prompt"; ascii_bytes "workflow"].

(** The chunk is no [tEXt] chunk carrying a recognized keyword. *)
Definition carries_no_recognized (c : Chunk) : Prop :=
  forall keyword, carries_keyword c keyword -> ~ In keyword recognized_keywords.

(** The keywords that [extractPngMetadata] reads as [parameters]: the bytes
    of the word, alone or behind the bytes EF BB BF. *)
Definition read_as_parameters : list (list byte) :=
  [ascii_bytes "parameters"; utf8_bom ++ ascii_bytes "parameters"].

(** The chunk is no [tEXt] chunk whose keyword is read as [parameters]. *)
Definition carries_no_parameters (c : Chunk) : Prop :=
  forall keyword, carries_keyword c keyword -> ~ In keyword read_as_parameters.

(* ================================================================== *)
(** * Example files *)

(** A 1x1 greyscale image: IHDR data, and the compressed scan line. *)
Definition example_ihdr : list byte :=
  [x00; x00; x00; x01; x00; x00; x00; x01; x08; x00; x00; x00; x00].
Definition example_idat : list byte :=
  [x78; x9c; x63; x60; x00; x00; x00; x02; x00; x01].

Definition example_png : list byte := minimal_png example_ihdr example_idat.

(** The example file with the first byte of the signature altered. *)
Definition corrupt_png : list byte := x88 :: skipn 1 example_png.

(** A file whose only text entry has the keyword [prompt]. *)
Definition prompt_chunks : list Chunk :=
  [make_chunk "IHDR" example_ihdr;
   text_chunk (js_lit "prompt") (js_lit "abc");
   make_chunk "IDAT" example_idat;
   make_chunk "IEND" []].

(** A file with two [parameters] entries, the first one with an empty
    text. *)
Definition duplicate_chunks : list Chunk :=
  [make_chunk "IHDR" example_ihdr;
   text_chunk (js_lit "parameters") [];
   text_chunk (js_lit "parameters") (js_lit "abc");
   make_chunk "IDAT" example_idat;
   make_chunk "IEND" []].

(** A file with a [tEXt] chunk without a zero byte and a [tEXt] chunk with
    another keyword, before the image data. *)
Definition skipped_chunks : list Chunk :=
  [make_chunk "IHDR" example_ihdr;
   make_chunk "tEXt" (ascii_bytes "no separator here");
   text_chunk (js_lit "Comment") (js_lit "hello");
   make_chunk "IDAT" example_idat].

(** A file whose only text entry has the keyword [parameters] behind the
    bytes EF BB BF. *)
Definition bom_chunks : list Chunk :=
  [make_chunk "IHDR" example_ihdr;
   make_chunk "tEXt"
     (utf8_bom ++ ascii_bytes "parameters" ++ [x00] ++ ascii_bytes "abc");
   make_chunk "IDAT" example_idat;
   make_chunk "IEND" []].

Definition png_file (bytes : list byte) : File :=
  {| file_name := "edited.png"; file_type := "image/png"; file_bytes := bytes |}.
Definition jpeg_file (bytes : list byte) : File :=
  {| file_name := "edited.jpg"; file_type := "image/jpeg"; file_bytes := bytes |}.
Definition webp_file (bytes : list byte) : File :=
  {| file_name := "edited.webp"; file_type := "image/webp"; file_bytes := bytes |}.

(** The state after the metadata of a PNG file has been cached. *)
Definition cached_png_state (E : Type) : AppState E :=
  {| cachedMetadata := Some (PngMetadata (js_lit "best quality, 1girl"));
     sourceFileName := "original.png";
     processedImage := None;
     status := {| status_type := success; status_msg := MsgSaved "original.png" |} |}.

(* ================================================================== *)
(** * Further definitions, for the properties beyond the specification *)

(** Every code point between [lo] and [hi] is a scalar value. *)
Definition range_scalar (lo hi : Z) : Prop :=
  0 <= lo /\ (hi < 0xD800 \/ (0xE000 <= lo /\ hi < 0x110000)).

(** A state of the decoder from which only scalar values can come: no
    continuation byte is awaited, or the code points that the awaited bytes
    can complete are all scalar values. *)
Definition decoder_ok (st : utf8_state) : Prop :=
  u_needed st = 0 \/
  (0 <= u_seen st < u_needed st /\ u_needed st <= 3 /\
   0x80 <= u_lower st /\ u_upper st <= 0xBF /\
   let lo := u_cp st * 64 + (u_lower st - 0x80) in
   let hi := u_cp st * 64 + (u_upper st - 0x80) in
   (u_needed st - u_seen st = 1 -> range_scalar lo hi) /\
   (u_needed st - u_seen st = 2 -> range_scalar (lo * 64) (hi * 64 + 63)) /\
   (u_needed st - u_seen st = 3 -> range_scalar (lo * 4096) (hi * 4096 + 4095))).

(** The CRC field of a chunk holds the reference CRC-32 of its type and
    data, as four big-endian bytes. *)
Definition crc_ok (c : Chunk) : Prop :=
  chunk_crc c = be32 (crc32_reference (chunk_type c ++ chunk_data c)).

(** The files that differ from [chunks] in the CRC fields only. *)
Definition same_type_and_data (c c' : Chunk) : Prop :=
  chunk_type c = chunk_type c' /\ chunk_data c = chunk_data c'.

(** ** The drop zones (App.jsx, lines 256-275) *)

(** A drag event: its type and the files of its [dataTransfer]. *)
Record DragEvent : Type := {
  event_type : string;
  dataTransfer_files : list File
}.

Section DropZones.

Variable ExifObj : Type.
Variable window_piexif : bool.
Variable piexif_load : list byte -> result ExifObj.
Variable piexif_dump_insert : jsstring + ExifObj -> list byte -> result Blob.

(** The state of the component with the [dragActive] flag of line 181. *)
Record Ui : Type := {
  appState : AppState ExifObj;
  dragActive : bool
}.

Definition setDragActive (ui : Ui) (v : bool) : Ui :=
  {| appState := appState ui; dragActive := v |}.

(** [handleDrop(e, step)], lines 256-265; [None] when [handleExtract] runs
    out of fuel. *)
Definition handleDrop (ui : Ui) (e : DragEvent) (step : Z) : option Ui :=
  let ui := setDragActive ui false in
  match dataTransfer_files e with
  | file :: _ =>
      if step =? 1 then
        match handleExtract window_piexif piexif_load (appState ui) file with
        | Some a => Some {| appState := a; dragActive := dragActive ui |}
        | None => None
        end
      else if step =? 2 then
        Some {| appState := handleInject piexif_dump_insert (appState ui) file;
                dragActive := dragActive ui |}
      else Some ui
  | [] => Some ui
  end.

(** [handleDrag(e)], lines 267-275. *)
Definition handleDrag (ui : Ui) (e : DragEvent) : Ui :=
  if String.eqb (event_type e) "dragenter"
     || String.eqb (event_type e) "dragover"
  then setDragActive ui true
  else if String.eqb (event_type e) "dragleave" then setDragActive ui false
  else ui.

End DropZones.

Arguments appState {ExifObj} _.
Arguments dragActive {ExifObj} _.
Arguments handleDrop {ExifObj} window_piexif piexif_load piexif_dump_insert ui e step.
Arguments handleDrag {ExifObj} ui e.

(** A drop of one file. *)
Definition drop_of (file : File) : DragEvent :=
  {| event_type := "drop"; dataTransfer_files := [file] |}.

(** A file with a [parameters] entry: the example file with the chunk that
    [injectPngMetadata] writes for a text. *)
Definition tagged_chunks (text : jsstring) : list Chunk :=
  [make_chunk "IHDR" example_ihdr;
   parameters_chunk text;
   make_chunk "IDAT" example_idat;
   make_chunk "IEND" []].

(* ================================================================== *)
(** * Tactics *)

(** [lia] with division and remainder by constants. *)
Ltac dlia := Z.div_mod_to_equations; lia.

(** Case analysis on the comparisons of the goal. *)
Ltac decide_tests :=
  repeat match goal with
    | |- context [?a <=? ?b] => destruct (Z.leb_spec a b); try dlia
    | |- context [?a <? ?b] => destruct (Z.ltb_spec a b); try dlia
    | |- context [?a =? ?b] => destruct (Z.eqb_spec a b); try dlia
    end.

Ltac by_tests := decide_tests; try reflexivity; try dlia.

(** The fields of a decoder state. *)
Ltac utf8_fields := cbn [u_cp u_seen u_needed u_lower u_upper].

(** A list of concrete chunks is well formed. *)
Ltac wf_chunks :=
  repeat (constructor; [repeat split; vm_compute; reflexivity|]); constructor.

(** A concrete [tEXt] chunk holds no zero byte. *)
Ltac no_null :=
  let H := fresh "H" in
  split; [reflexivity|];
  intros H; cbn in H; repeat (destruct H as [H|H]; [discriminate H|]); exact H.

(* ================================================================== *)
(** * Bytes *)
Lemma b2z_range (b : byte) : 0 <= b2z b < 256.
Proof.
  unfold b2z. pose proof (Byte.to_N_bounded b). lia.
Qed.

Lemma z2b_b2z (b : byte) : z2b (b2z b) = b.
Proof.
  unfold z2b. pose proof (b2z_range b) as Hr.
  rewrite Z.mod_small by exact Hr.
  unfold b2z. rewrite N2Z.id, Byte.of_to_N. reflexivity.
Qed.

Lemma b2z_z2b (z : Z) : b2z (z2b z) = z mod 256.
Proof.
  unfold z2b, b2z.
  assert (Hm : 0 <= z mod 256 < 256) by (apply Z.mod_pos_bound; lia).
  destruct (Byte.of_N (Z.to_N (z mod 256))) as [b|] eqn:E.
  - apply Byte.to_of_N in E. rewrite E. lia.
  - apply Byte.of_N_None_iff in E. lia.
Qed.

Lemma b2z_z2b_small (z : Z) : 0 <= z < 256 -> b2z (z2b z) = z.
Proof. intros H. rewrite b2z_z2b. apply Z.mod_small, H. Qed.

Lemma b2z_inj (a b : byte) : b2z a = b2z b -> a = b.
Proof. intros H. rewrite <- (z2b_b2z a), <- (z2b_b2z b), H. reflexivity. Qed.

(** * 32-bit conversions *)
Lemma toUint32_range z : 0 <= toUint32 z < 2 ^ 32.
Proof. unfold toUint32. apply Z.mod_pos_bound. lia. Qed.

Lemma toInt32_range z : - 2 ^ 31 <= toInt32 z < 2 ^ 31.
Proof.
  unfold toInt32. pose proof (Z.mod_pos_bound (z + 2 ^ 31) (2 ^ 32)). lia.
Qed.

Lemma toUint32_toInt32 z : toUint32 (toInt32 z) = toUint32 z.
Proof.
  unfold toUint32, toInt32.
  rewrite Zminus_mod_idemp_l. f_equal. lia.
Qed.

Lemma toInt32_small z : - 2 ^ 31 <= z < 2 ^ 31 -> toInt32 z = z.
Proof. intros H. unfold toInt32. rewrite Z.mod_small; lia. Qed.

Lemma toUint32_small z : 0 <= z < 2 ^ 32 -> toUint32 z = z.
Proof. intros H. apply Z.mod_small, H. Qed.

Lemma toInt32_toUint32 z : toInt32 (toUint32 z) = toInt32 z.
Proof.
  unfold toUint32, toInt32.
  rewrite Zplus_mod_idemp_l. reflexivity.
Qed.

Lemma toUint32_land z : toUint32 z = Z.land z (Z.ones 32).
Proof. unfold toUint32. rewrite Z.land_ones by lia. reflexivity. Qed.

Lemma toUint32_lxor a b :
  toUint32 (Z.lxor a b) = Z.lxor (toUint32 a) (toUint32 b).
Proof.
  rewrite !toUint32_land. apply Z.bits_inj'. intros n Hn.
  rewrite !Z.land_spec, !Z.lxor_spec, !Z.land_spec.
  destruct (Z.testbit a n), (Z.testbit b n), (Z.testbit (Z.ones 32) n); reflexivity.
Qed.

Lemma toUint32_js_xor a b :
  toUint32 (js_xor a b) = Z.lxor (toUint32 a) (toUint32 b).
Proof.
  unfold js_xor. rewrite toUint32_lxor, !toUint32_toInt32. reflexivity.
Qed.


Lemma lxor_bound n a b :
  0 <= n -> 0 <= a < 2 ^ n -> 0 <= b < 2 ^ n -> 0 <= Z.lxor a b < 2 ^ n.
Proof.
  intros Hn Ha Hb.
  assert (E : Z.lxor a b = Z.lxor a b mod 2 ^ n).
  { apply Z.bits_inj'. intros m Hm.
    destruct (Z.lt_ge_cases m n) as [Hlt|Hge].
    - rewrite Z.mod_pow2_bits_low by lia. reflexivity.
    - rewrite Z.mod_pow2_bits_high by lia.
      rewrite Z.lxor_spec.
      rewrite <- (Z.mod_small a (2 ^ n)), <- (Z.mod_small b (2 ^ n)) by lia.
      rewrite !Z.mod_pow2_bits_high by lia. reflexivity. }
  rewrite E. apply Z.mod_pos_bound. lia.
Qed.

Lemma lxor_int32_range a b :
  - 2 ^ 31 <= a < 2 ^ 31 -> - 2 ^ 31 <= b < 2 ^ 31 ->
  - 2 ^ 31 <= Z.lxor a b < 2 ^ 31.
Proof.
  intros Ha Hb.
  destruct (Z.neg_nonneg_cases a) as [Na|Pa];
    destruct (Z.neg_nonneg_cases b) as [Nb|Pb].
  - replace a with (Z.lnot (Z.lnot a)) by apply Z.lnot_involutive.
    replace b with (Z.lnot (Z.lnot b)) by apply Z.lnot_involutive.
    rewrite Z.lxor_lnot_lnot.
    pose proof (lxor_bound 31 (Z.lnot a) (Z.lnot b)) as H.
    unfold Z.lnot in *. lia.
  - replace a with (Z.lnot (Z.lnot a)) by apply Z.lnot_involutive.
    rewrite <- Z.lnot_lxor_l.
    pose proof (lxor_bound 31 (Z.lnot a) b) as H.
    unfold Z.lnot in *. lia.
  - replace b with (Z.lnot (Z.lnot b)) by apply Z.lnot_involutive.
    rewrite <- Z.lnot_lxor_r.
    pose proof (lxor_bound 31 a (Z.lnot b)) as H.
    unfold Z.lnot in *. lia.
  - pose proof (lxor_bound 31 a b). lia.
Qed.

Lemma js_xor_range a b : - 2 ^ 31 <= js_xor a b < 2 ^ 31.
Proof. apply lxor_int32_range; apply toInt32_range. Qed.

Lemma int32_of_uint32 x u :
  - 2 ^ 31 <= x < 2 ^ 31 -> toUint32 x = u -> x = toInt32 u.
Proof.
  intros Hx <-. rewrite toInt32_toUint32, toInt32_small by exact Hx. reflexivity.
Qed.

(** * CRC-32 *)

Lemma js_ushr_shiftr c n : 0 <= n < 32 -> js_ushr c n = Z.shiftr (toUint32 c) n.
Proof. intros H. unfold js_ushr. rewrite Z.mod_small by lia. reflexivity. Qed.

Lemma shiftr_range u n : 0 <= n -> 0 <= u < 2 ^ 32 -> 0 <= Z.shiftr u n < 2 ^ 32.
Proof.
  intros Hn Hu. rewrite Z.shiftr_div_pow2 by lia. split.
  - apply Z.div_pos; lia.
  - apply Z.le_lt_trans with u; [|lia].
    apply Z.div_le_upper_bound; [lia|]. 
    pose proof (Z.pow_pos_nonneg 2 n ltac:(lia) Hn). nia.
Qed.

Lemma js_and_1 c : negb (js_and c 1 =? 0) = Z.testbit (toUint32 c) 0.
Proof.
  unfold js_and. rewrite (toInt32_small 1) by lia.
  change 1 with (Z.ones 1) at 1. rewrite Z.land_ones by lia.
  rewrite <- toUint32_toInt32. unfold toUint32.
  rewrite Z.mod_pow2_bits_low by lia.
  rewrite Z.bit0_odd. change (2 ^ 1) with 2. rewrite Zmod_odd.
  destruct (Z.odd (toInt32 c)); reflexivity.
Qed.

Lemma ref_shift_range u : 0 <= u < 2 ^ 32 -> 0 <= ref_shift u < 2 ^ 32.
Proof.
  intros Hu. unfold ref_shift.
  pose proof (shiftr_range u 1 ltac:(lia) Hu).
  destruct (Z.testbit u 0); [apply lxor_bound|]; lia.
Qed.

Lemma crcTable_step_ref c :
  toUint32 (crcTable_step c) = ref_shift (toUint32 c).
Proof.
  unfold crcTable_step, ref_shift.
  rewrite js_and_1, js_ushr_shiftr by lia.
  pose proof (shiftr_range (toUint32 c) 1 ltac:(lia) (toUint32_range c)).
  destruct (Z.testbit (toUint32 c) 0).
  - rewrite toUint32_js_xor. f_equal. apply toUint32_small. lia.
  - apply toUint32_small. lia.
Qed.

Lemma iter_crcTable_step_ref n c :
  toUint32 (iter_n n crcTable_step c) = iter_n n ref_shift (toUint32 c).
Proof.
  revert c. induction n as [|n IH]; intros c; simpl.
  - reflexivity.
  - rewrite IH, crcTable_step_ref. reflexivity.
Qed.

Lemma iter_ref_shift_range n u :
  0 <= u < 2 ^ 32 -> 0 <= iter_n n ref_shift u < 2 ^ 32.
Proof.
  revert u. induction n as [|n IH]; intros u Hu; simpl.
  - exact Hu.
  - apply IH, ref_shift_range, Hu.
Qed.

(** The shift is linear for XOR. *)
Lemma ref_shift_lxor a b :
  ref_shift (Z.lxor a b) = Z.lxor (ref_shift a) (ref_shift b).
Proof.
  unfold ref_shift. rewrite Z.lxor_spec, Z.shiftr_lxor.
  generalize 3988292384, (Z.shiftr a 1), (Z.shiftr b 1). intros p x y.
  destruct (Z.testbit a 0), (Z.testbit b 0); cbn [xorb].
  - rewrite (Z.lxor_comm p y), Z.lxor_assoc, <- (Z.lxor_assoc x y p),
      (Z.lxor_comm (Z.lxor x y) p), <- Z.lxor_assoc, Z.lxor_nilpotent,
      Z.lxor_0_l. reflexivity.
  - rewrite Z.lxor_assoc. reflexivity.
  - rewrite (Z.lxor_comm x (Z.lxor p y)), (Z.lxor_comm x y), Z.lxor_assoc.
    reflexivity.
  - reflexivity.
Qed.

Lemma iter_ref_shift_lxor n a b :
  iter_n n ref_shift (Z.lxor a b)
  = Z.lxor (iter_n n ref_shift a) (iter_n n ref_shift b).
Proof.
  revert a b. induction n as [|n IH]; intros a b; simpl.
  - reflexivity.
  - rewrite ref_shift_lxor, IH. reflexivity.
Qed.

Lemma iter_ref_shift_shiftl n h :
  iter_n n ref_shift (Z.shiftl h (Z.of_nat n)) = h.
Proof.
  induction n as [|n IH]; cbn [iter_n].
  - apply Z.shiftl_0_r.
  - unfold ref_shift at 2.
    rewrite Z.shiftl_spec_low by lia.
    rewrite Z.shiftr_shiftl_l by lia.
    replace (Z.of_nat (S n) - 1) with (Z.of_nat n) by lia. exact IH.
Qed.

Lemma split_low_byte x :
  x = Z.lxor (Z.land x 255) (Z.shiftl (Z.shiftr x 8) 8).
Proof.
  apply Z.bits_inj'. intros n Hn.
  change 255 with (Z.ones 8). rewrite Z.land_ones by lia.
  rewrite Z.lxor_spec.
  destruct (Z.lt_ge_cases n 8) as [Hlt|Hge].
  - rewrite Z.mod_pow2_bits_low, Z.shiftl_spec_low by lia.
    rewrite xorb_false_r. reflexivity.
  - rewrite Z.mod_pow2_bits_high, Z.shiftl_spec, Z.shiftr_spec by lia.
    simpl. f_equal. lia.
Qed.

(** The table look-up does the eight shifts of the byte at once. *)
Lemma table_lookup_ref x :
  iter_n 8 ref_shift x
  = Z.lxor (iter_n 8 ref_shift (Z.land x 255)) (Z.shiftr x 8).
Proof.
  rewrite (split_low_byte x) at 1.
  rewrite iter_ref_shift_lxor. f_equal.
  apply (iter_ref_shift_shiftl 8).
Qed.

Lemma crcTable_unfold :
  crcTable = map (fun n => crcTable_entry (Z.of_nat n)) (seq 0 256).
Proof. vm_compute. reflexivity. Qed.

Lemma crcTable_get_entry i :
  0 <= i < 256 -> crcTable_get i = crcTable_entry i.
Proof.
  intros Hi. unfold crcTable_get.
  replace ((0 <=? i) && (i <? 256)) with true
    by (symmetry; apply andb_true_iff; split; [apply Z.leb_le|apply Z.ltb_lt]; lia).
  rewrite crcTable_unfold.
  set (f := fun n => crcTable_entry (Z.of_nat n)).
  assert (E : f O = 0) by reflexivity.
  rewrite <- E at 1. rewrite map_nth, seq_nth by lia.
  unfold f. f_equal. lia.
Qed.

Lemma land_255_range x : 0 <= Z.land x 255 < 256.
Proof.
  change 255 with (Z.ones 8). rewrite Z.land_ones by lia.
  apply Z.mod_pos_bound. lia.
Qed.

Lemma js_and_255 x : js_and x 255 = Z.land (toUint32 x) 255.
Proof.
  unfold js_and. rewrite (toInt32_small 255) by lia.
  rewrite <- (toUint32_toInt32 x).
  change 255 with (Z.ones 8). rewrite !Z.land_ones by lia.
  unfold toUint32.
  rewrite Z.mod_mod_divide; [reflexivity|].
  exists (2 ^ 24). reflexivity.
Qed.

Lemma crc32_update_ref c b :
  toUint32 (crc32_update c b) = ref_update (toUint32 c) b.
Proof.
  unfold crc32_update, ref_update.
  pose proof (b2z_range b) as Hb.
  rewrite toUint32_js_xor, js_and_255, toUint32_js_xor.
  rewrite (toUint32_small (b2z b)) by lia.
  rewrite crcTable_get_entry by apply land_255_range.
  unfold crcTable_entry. rewrite iter_crcTable_step_ref.
  rewrite (toUint32_small (Z.land _ 255)) by (pose proof (land_255_range (Z.lxor (toUint32 c) (b2z b))); lia).
  rewrite js_ushr_shiftr by lia.
  rewrite (toUint32_small (Z.shiftr _ 8))
    by (apply shiftr_range; [lia|apply toUint32_range]).
  rewrite (table_lookup_ref (Z.lxor (toUint32 c) (b2z b))).
  f_equal. rewrite Z.shiftr_lxor.
  rewrite (Z.shiftr_div_pow2 (b2z b)) by lia.
  rewrite (Z.div_small (b2z b)) by (change (2 ^ 8) with 256; lia).
  symmetry. apply Z.lxor_0_r.
Qed.

Lemma fold_crc32_update_ref buf c :
  toUint32 (fold_left crc32_update buf c)
  = fold_left ref_update buf (toUint32 c).
Proof.
  revert c. induction buf as [|b buf IH]; intros c; simpl.
  - reflexivity.
  - rewrite IH, crc32_update_ref. reflexivity.
Qed.

Lemma crc32_unsigned buf : toUint32 (crc32 buf) = crc32_reference buf.
Proof.
  unfold crc32, crc32_reference.
  rewrite toUint32_js_xor, fold_crc32_update_ref. reflexivity.
Qed.

Lemma crc32_signed buf : crc32 buf = toInt32 (crc32_reference buf).
Proof.
  apply int32_of_uint32; [apply js_xor_range | apply crc32_unsigned].
Qed.

(* ================================================================== *)
Lemma utf8_lead_1 b : 0 <= b <= 0x7F -> utf8_lead b = ([b], utf8_init).
Proof. intros H. unfold utf8_lead. by_tests. Qed.

Lemma utf8_lead_2 b :
  0xC2 <= b <= 0xDF ->
  utf8_lead b = ([], {| u_cp := b mod 32; u_seen := 0; u_needed := 1;
                        u_lower := 0x80; u_upper := 0xBF |}).
Proof. intros H. unfold utf8_lead. by_tests. Qed.

Lemma utf8_lead_3 b :
  0xE0 <= b <= 0xEF ->
  utf8_lead b = ([], {| u_cp := b mod 16; u_seen := 0; u_needed := 2;
                        u_lower := if b =? 0xE0 then 0xA0 else 0x80;
                        u_upper := if b =? 0xED then 0x9F else 0xBF |}).
Proof.
  intros H. unfold utf8_lead.
  destruct (Z.leb_spec b 127); [lia|].
  destruct (Z.leb_spec 194 b); [|lia].
  destruct (Z.leb_spec b 223); [lia|].
  destruct (Z.leb_spec 224 b); [|lia].
  destruct (Z.leb_spec b 239); [|lia].
  reflexivity.
Qed.

Lemma utf8_lead_4 b :
  0xF0 <= b <= 0xF4 ->
  utf8_lead b = ([], {| u_cp := b mod 8; u_seen := 0; u_needed := 3;
                        u_lower := if b =? 0xF0 then 0x90 else 0x80;
                        u_upper := if b =? 0xF4 then 0x8F else 0xBF |}).
Proof.
  intros H. unfold utf8_lead.
  destruct (Z.leb_spec b 127); [lia|].
  destruct (Z.leb_spec 194 b); [|lia].
  destruct (Z.leb_spec b 223); [lia|].
  destruct (Z.leb_spec 224 b); [|lia].
  destruct (Z.leb_spec b 239); [lia|].
  destruct (Z.leb_spec 240 b); [|lia].
  destruct (Z.leb_spec b 244); [|lia].
  reflexivity.
Qed.

Lemma utf8_handler_init b : utf8_handler utf8_init b = utf8_lead b.
Proof. reflexivity. Qed.

Lemma utf8_handler_more st b :
  u_needed st <> 0 -> u_lower st <= b <= u_upper st ->
  u_seen st + 1 <> u_needed st ->
  utf8_handler st b =
  ([], {| u_cp := u_cp st * 64 + b mod 64; u_seen := u_seen st + 1;
          u_needed := u_needed st; u_lower := 0x80; u_upper := 0xBF |}).
Proof.
  intros Hn Hb Hs. unfold utf8_handler.
  destruct (Z.eqb_spec (u_needed st) 0); [lia|].
  destruct (Z.leb_spec (u_lower st) b); [|lia].
  destruct (Z.leb_spec b (u_upper st)); [|lia].
  destruct (Z.eqb_spec (u_seen st + 1) (u_needed st)); [lia|].
  reflexivity.
Qed.

Lemma utf8_handler_last st b :
  u_needed st <> 0 -> u_lower st <= b <= u_upper st ->
  u_seen st + 1 = u_needed st ->
  utf8_handler st b = ([u_cp st * 64 + b mod 64], utf8_init).
Proof.
  intros Hn Hb Hs. unfold utf8_handler.
  destruct (Z.eqb_spec (u_needed st) 0); [lia|].
  destruct (Z.leb_spec (u_lower st) b); [|lia].
  destruct (Z.leb_spec b (u_upper st)); [|lia].
  destruct (Z.eqb_spec (u_seen st + 1) (u_needed st)); [|lia].
  reflexivity.
Qed.

Lemma utf8_run_encode_cp cp rest :
  scalar cp ->
  utf8_run utf8_init (map z2b (utf8_encode_cp cp) ++ rest)
  = cp :: utf8_run utf8_init rest.
Proof.
  intros Hs. unfold scalar in Hs. unfold utf8_encode_cp.
  destruct (Z.ltb_spec cp 128);
    [|destruct (Z.ltb_spec cp 2048); [|destruct (Z.ltb_spec cp 65536)]];
    cbn [map app utf8_run]; rewrite !b2z_z2b_small by dlia;
    rewrite utf8_handler_init.
  - rewrite utf8_lead_1 by lia. reflexivity.
  - rewrite utf8_lead_2 by dlia.
    rewrite utf8_handler_last by (utf8_fields; dlia).
    utf8_fields. cbn [app]. f_equal. dlia.
  - rewrite utf8_lead_3 by dlia.
    rewrite utf8_handler_more by (utf8_fields; by_tests).
    rewrite utf8_handler_last by (utf8_fields; dlia).
    utf8_fields. cbn [app]. f_equal. dlia.
  - rewrite utf8_lead_4 by dlia.
    rewrite utf8_handler_more by (utf8_fields; by_tests).
    rewrite utf8_handler_more by (utf8_fields; dlia).
    rewrite utf8_handler_last by (utf8_fields; dlia).
    utf8_fields. cbn [app]. f_equal. dlia.
Qed.

Lemma utf8_run_encode cps :
  Forall scalar cps ->
  utf8_run utf8_init (map z2b (flat_map utf8_encode_cp cps)) = cps.
Proof.
  induction 1 as [|cp cps Hcp _ IH]; cbn [flat_map].
  - reflexivity.
  - rewrite map_app, utf8_run_encode_cp, IH by exact Hcp. reflexivity.
Qed.

(** An induction principle that follows [well_formed]. *)
Lemma well_formed_ind (P : jsstring -> Prop) :
  P [] ->
  (forall c rest,
      is_lead c = false -> is_trail c = false -> 0 <= c < 0x10000 ->
      well_formed rest = true -> P rest -> P (c :: rest)) ->
  (forall c d rest,
      is_lead c = true -> is_trail d = true ->
      well_formed rest = true -> P rest -> P (c :: d :: rest)) ->
  forall s, well_formed s = true -> P s.
Proof.
  intros Hnil Hone Hpair s.
  remember (List.length s) as n eqn:Hn.
  revert s Hn. induction n as [n IH] using lt_wf_ind. intros s Hn Hwf.
  destruct s as [|c rest]; [exact Hnil|].
  cbn [well_formed] in Hwf.
  destruct (is_lead c) eqn:Hl.
  - destruct rest as [|d rest']; [discriminate|].
    apply andb_true_iff in Hwf. destruct Hwf as [Ht Hwf].
    apply Hpair; try assumption.
    apply (IH (List.length rest')); [cbn in Hn; lia|reflexivity|exact Hwf].
  - destruct (is_trail c) eqn:Ht; [discriminate|].
    apply andb_true_iff in Hwf. destruct Hwf as [Hr Hwf].
    apply andb_true_iff in Hr. destruct Hr as [Hr1 Hr2].
    apply Z.leb_le in Hr1. apply Z.ltb_lt in Hr2.
    apply Hone; try assumption; [lia|].
    apply (IH (List.length rest)); [cbn in Hn; lia|reflexivity|exact Hwf].
Qed.

Lemma is_lead_true c : is_lead c = true <-> 0xD800 <= c <= 0xDBFF.
Proof. unfold is_lead. rewrite andb_true_iff, !Z.leb_le. reflexivity. Qed.
Lemma is_trail_true c : is_trail c = true <-> 0xDC00 <= c <= 0xDFFF.
Proof. unfold is_trail. rewrite andb_true_iff, !Z.leb_le. reflexivity. Qed.
Lemma is_lead_false c : is_lead c = false <-> ~ (0xD800 <= c <= 0xDBFF).
Proof. rewrite <- is_lead_true. destruct (is_lead c); intuition congruence. Qed.
Lemma is_trail_false c : is_trail c = false <-> ~ (0xDC00 <= c <= 0xDFFF).
Proof. rewrite <- is_trail_true. destruct (is_trail c); intuition congruence. Qed.

Lemma usv_of_js_scalar s : well_formed s = true -> Forall scalar (usv_of_js s).
Proof.
  revert s. apply well_formed_ind;
    [|intros c rest Hl Ht Hc _ IH|intros c d rest Hl Ht _ IH].
  - constructor.
  - cbn [usv_of_js]. rewrite Hl, Ht. constructor; [|exact IH].
    apply is_lead_false in Hl. apply is_trail_false in Ht. unfold scalar. lia.
  - cbn [usv_of_js]. rewrite Hl, Ht. constructor; [|exact IH].
    apply is_lead_true in Hl. apply is_trail_true in Ht. unfold scalar. lia.
Qed.

Lemma utf16_of_usv s :
  well_formed s = true -> flat_map utf16_of_cp (usv_of_js s) = s.
Proof.
  revert s. apply well_formed_ind;
    [|intros c rest Hl Ht Hc _ IH|intros c d rest Hl Ht _ IH].
  - reflexivity.
  - cbn [usv_of_js]. rewrite Hl, Ht. cbn [flat_map]. rewrite IH.
    unfold utf16_of_cp. destruct (Z.ltb_spec c 65536); [reflexivity|lia].
  - cbn [usv_of_js]. rewrite Hl, Ht. cbn [flat_map]. rewrite IH.
    apply is_lead_true in Hl. apply is_trail_true in Ht.
    unfold utf16_of_cp.
    destruct (Z.ltb_spec (65536 + (c - 55296) * 1024 + (d - 56320)) 65536);
      [lia|].
    cbn [app]. f_equal; [dlia|]. f_equal. dlia.
Qed.


Lemma strip_bom_usv s :
  well_formed s = true -> starts_with_bom s = false ->
  strip_bom (usv_of_js s) = usv_of_js s.
Proof.
  revert s. apply (well_formed_ind
    (fun s => starts_with_bom s = false -> strip_bom (usv_of_js s) = usv_of_js s));
    [|intros c rest Hl Ht Hc _ _|intros c d rest Hl Ht _ _]; intros Hb.
  - reflexivity.
  - cbn [usv_of_js]. rewrite Hl, Ht. cbn [starts_with_bom] in Hb.
    cbn [strip_bom]. rewrite Hb. reflexivity.
  - cbn [usv_of_js]. rewrite Hl, Ht. cbn [strip_bom].
    apply is_lead_true in Hl. apply is_trail_true in Ht.
    destruct (Z.eqb_spec (65536 + (c - 55296) * 1024 + (d - 56320)) 65279);
      [lia|reflexivity].
Qed.

(** Decoding what the encoder wrote gives the string back, for a
    well-formed string that does not start with U+FEFF. *)
Lemma decode_encode s :
  well_formed s = true -> starts_with_bom s = false ->
  TextDecoder_decode (TextEncoder_encode s) = s.
Proof.
  intros Hwf Hb. unfold TextDecoder_decode, TextEncoder_encode.
  rewrite utf8_run_encode by (apply usv_of_js_scalar, Hwf).
  rewrite strip_bom_usv by assumption.
  apply utf16_of_usv, Hwf.
Qed.

(* ================================================================== *)
(** * Decoding to ASCII

    The decoder gives a string of ASCII characters of the same length as
    its input only for the bytes of these very characters. *)

Lemma utf8_run_pending_high bs : forall st,
  pending_high st ->
  exists cp tail, utf8_run st bs = cp :: tail /\ 0x80 <= cp.
Proof.
  induction bs as [|b bs IH]; intros st (Hn & Hl & Hu & Hs & H1 & H2).
  - cbn [utf8_run]. destruct (Z.eqb_spec (u_needed st) 0); [lia|].
    exists 0xFFFD, []. split; [reflexivity|lia].
  - cbn [utf8_run]. pose proof (b2z_range b) as Hb.
    destruct (Z.le_gt_cases (u_lower st) (b2z b)) as [Hlo|Hlo];
      [destruct (Z.le_gt_cases (b2z b) (u_upper st)) as [Hhi|Hhi]|].
    + destruct (Z.eq_dec (u_seen st + 1) (u_needed st)) as [Hlast|Hmore].
      * rewrite utf8_handler_last by lia.
        eexists. eexists. split; [reflexivity|]. dlia.
      * rewrite utf8_handler_more by lia.
        cbn [app]. apply IH. unfold pending_high. utf8_fields.
        repeat split; try lia; intros; dlia.
    + unfold utf8_handler.
      destruct (Z.eqb_spec (u_needed st) 0); [lia|].
      destruct (Z.leb_spec (u_lower st) (b2z b)); [|lia].
      destruct (Z.leb_spec (b2z b) (u_upper st)); [lia|].
      cbn [andb negb]. destruct (utf8_lead (b2z b)) as [out st'].
      eexists. eexists. split; [reflexivity|lia].
    + unfold utf8_handler.
      destruct (Z.eqb_spec (u_needed st) 0); [lia|].
      destruct (Z.leb_spec (u_lower st) (b2z b)); [lia|].
      cbn [andb negb]. destruct (utf8_lead (b2z b)) as [out st'].
      eexists. eexists. split; [reflexivity|lia].
Qed.

(** After a byte that is not ASCII, the first code point is not ASCII. *)
Lemma utf8_run_high_byte b bs :
  0x80 <= b2z b ->
  exists cp tail, utf8_run utf8_init (b :: bs) = cp :: tail /\ 0x80 <= cp.
Proof.
  intros Hb. pose proof (b2z_range b) as Hr.
  cbn [utf8_run]. rewrite utf8_handler_init.
  destruct (Z.le_gt_cases 0xC2 (b2z b)) as [H1|H1];
    [destruct (Z.le_gt_cases (b2z b) 0xDF) as [H2|H2];
     [|destruct (Z.le_gt_cases (b2z b) 0xEF) as [H3|H3];
       [|destruct (Z.le_gt_cases (b2z b) 0xF4) as [H4|H4]]]|].
  - rewrite utf8_lead_2 by lia. cbn [app].
    apply utf8_run_pending_high. unfold pending_high. utf8_fields.
    repeat split; try lia; intros; dlia.
  - rewrite utf8_lead_3 by lia. cbn [app].
    apply utf8_run_pending_high. unfold pending_high. utf8_fields.
    destruct (Z.eqb_spec (b2z b) 224); destruct (Z.eqb_spec (b2z b) 237);
      repeat split; try lia; intros; dlia.
  - rewrite utf8_lead_4 by lia. cbn [app].
    apply utf8_run_pending_high. unfold pending_high. utf8_fields.
    destruct (Z.eqb_spec (b2z b) 240); destruct (Z.eqb_spec (b2z b) 244);
      repeat split; try lia; intros; dlia.
  - unfold utf8_lead.
    destruct (Z.leb_spec (b2z b) 127); [lia|].
    destruct (Z.leb_spec 194 (b2z b)); [|lia].
    destruct (Z.leb_spec (b2z b) 223); [lia|].
    destruct (Z.leb_spec 224 (b2z b)); [|lia].
    destruct (Z.leb_spec (b2z b) 239); [lia|].
    destruct (Z.leb_spec 240 (b2z b)); [|lia].
    destruct (Z.leb_spec (b2z b) 244); [lia|].
    cbn [andb app]. eexists. eexists. split; [reflexivity|lia].
  - unfold utf8_lead.
    destruct (Z.leb_spec (b2z b) 127); [lia|].
    destruct (Z.leb_spec 194 (b2z b)); [lia|].
    cbn [andb].
    destruct (Z.leb_spec 224 (b2z b)); [lia|].
    cbn [andb].
    destruct (Z.leb_spec 240 (b2z b)); [lia|].
    cbn [andb app]. eexists. eexists. split; [reflexivity|lia].
Qed.

Lemma utf16_of_cp_head cp :
  0x80 <= cp -> exists u us, utf16_of_cp cp = u :: us /\ 0x80 <= u.
Proof.
  intros H. unfold utf16_of_cp. destruct (Z.ltb_spec cp 65536).
  - exists cp, []. split; [reflexivity|lia].
  - eexists. eexists. split; [reflexivity|]. dlia.
Qed.

(** Without the removal of U+FEFF: ASCII output comes from ASCII input. *)
Lemma utf8_run_ascii bs : forall s,
  ascii_only s ->
  flat_map utf16_of_cp (utf8_run utf8_init bs) = s -> map b2z bs = s.
Proof.
  induction bs as [|b bs IH]; intros s Hs Hrun.
  - cbn in Hrun. subst s. reflexivity.
  - pose proof (b2z_range b) as Hb.
    destruct (Z.le_gt_cases (b2z b) 0x7F) as [Hlow|Hhigh].
    + cbn [utf8_run] in Hrun. rewrite utf8_handler_init, utf8_lead_1 in Hrun by lia.
      cbn [app flat_map] in Hrun. unfold utf16_of_cp at 1 in Hrun.
      destruct (Z.ltb_spec (b2z b) 65536); [|lia].
      cbn [app] in Hrun. destruct s as [|c s]; [discriminate|].
      injection Hrun as Hc Hrest. cbn [map]. f_equal; [exact Hc|].
      apply IH; [inversion Hs; assumption|exact Hrest].
    + exfalso.
      destruct (utf8_run_high_byte b bs ltac:(lia)) as (cp & tail & Hcp & Hge).
      rewrite Hcp in Hrun. cbn [flat_map] in Hrun.
      destruct (utf16_of_cp_head cp Hge) as (u & us & Hu & Hu80).
      rewrite Hu in Hrun. cbn [app] in Hrun. subst s.
      inversion Hs as [|? ? Hc _]. lia.
Qed.

(** The decoder never gives more code units than it reads bytes. *)
Lemma utf16_of_cp_length cp : (List.length (utf16_of_cp cp) <= 2)%nat.
Proof. unfold utf16_of_cp. destruct (cp <? 65536); cbn; lia. Qed.

Lemma utf8_lead_cases b :
  (exists c, utf8_lead b = ([c], utf8_init) /\ (c = b /\ b <= 0x7F \/ c = 0xFFFD))
  \/ (exists st, utf8_lead b = ([], st) /\ u_needed st <> 0).
Proof.
  unfold utf8_lead.
  destruct (Z.leb_spec b 127); [left; eexists; split; [reflexivity|left; lia]|].
  destruct ((194 <=? b) && (b <=? 223));
    [right; eexists; split; [reflexivity|utf8_fields; lia]|].
  destruct ((224 <=? b) && (b <=? 239));
    [right; eexists; split; [reflexivity|utf8_fields; lia]|].
  destruct ((240 <=? b) && (b <=? 244));
    [right; eexists; split; [reflexivity|utf8_fields; lia]|].
  left. eexists. split; [reflexivity|right; reflexivity].
Qed.

Lemma utf16_FFFD : utf16_of_cp 0xFFFD = [0xFFFD].
Proof. reflexivity. Qed.

Lemma utf8_run_units bs : forall st,
  (List.length (flat_map utf16_of_cp (utf8_run st bs))
   <= List.length bs + (if (u_needed st =? 0)%Z then 0 else 1))%nat.
Proof.
  assert (Hlead : forall b bs,
    (forall st, (List.length (flat_map utf16_of_cp (utf8_run st bs))
                 <= List.length bs + (if (u_needed st =? 0)%Z then 0 else 1))%nat) ->
    (List.length (flat_map utf16_of_cp
                    (fst (utf8_lead (b2z b)) ++ utf8_run (snd (utf8_lead (b2z b))) bs))
     <= S (List.length bs))%nat).
  { intros b bs0 IH.
    destruct (utf8_lead_cases (b2z b)) as [(c & Hl & Hc)|(st' & Hl & Hst')];
      rewrite Hl; cbn [fst snd app flat_map].
    - rewrite length_app. specialize (IH utf8_init). cbn in IH.
      assert (List.length (utf16_of_cp c) = 1%nat).
      { destruct Hc as [[-> Hlow]| ->]; [|reflexivity].
        unfold utf16_of_cp. destruct (Z.ltb_spec (b2z b) 65536); [reflexivity|lia]. }
      lia.
    - specialize (IH st'). destruct (Z.eqb_spec (u_needed st') 0); [lia|]. lia. }
  induction bs as [|b bs IH]; intros st.
  - cbn [utf8_run List.length]. destruct (u_needed st =? 0); cbn; lia.
  - cbn [utf8_run List.length]. unfold utf8_handler.
    destruct (Z.eqb_spec (u_needed st) 0) as [Hz|Hnz].
    + specialize (Hlead b bs IH).
      destruct (utf8_lead (b2z b)) as [out st']. cbn [fst snd] in Hlead. lia.
    + destruct (negb _).
      * specialize (Hlead b bs IH).
        destruct (utf8_lead (b2z b)) as [out st']. cbn [fst snd] in Hlead.
        cbn [app flat_map]. rewrite length_app, utf16_FFFD. cbn [List.length].
        cbn [app] in Hlead. lia.
      * destruct (u_seen st + 1 =? u_needed st).
        -- cbn [app flat_map]. rewrite length_app.
           pose proof (utf16_of_cp_length (u_cp st * 64 + b2z b mod 64)).
           specialize (IH utf8_init). cbn in IH. lia.
        -- cbn [app].
           match goal with
           | |- context [utf8_run ?s bs] => specialize (IH s)
           end.
           destruct (_ =? 0) in IH; lia.
Qed.

(** With the removal of U+FEFF: a string of ASCII characters as long as
    the input comes from the bytes of these characters. *)
Lemma TextDecoder_decode_ascii bs s :
  ascii_only s -> List.length bs = List.length s ->
  TextDecoder_decode bs = s -> map b2z bs = s.
Proof.
  intros Hs Hlen Hdec. unfold TextDecoder_decode in Hdec.
  pose proof (utf8_run_units bs utf8_init) as Hunits. cbn in Hunits.
  destruct (utf8_run utf8_init bs) as [|c cps] eqn:Hrun.
  - apply utf8_run_ascii; [exact Hs|]. rewrite Hrun. exact Hdec.
  - cbn [strip_bom] in Hdec. destruct (Z.eqb_spec c 65279) as [->|Hc].
    + exfalso. cbn [flat_map] in Hunits. rewrite length_app, Hdec in Hunits.
      cbn in Hunits. lia.
    + apply utf8_run_ascii; [exact Hs|]. rewrite Hrun. exact Hdec.
Qed.

(* ================================================================== *)
(** * Decoding to ASCII, whatever the length

    A leading U+FEFF comes from the bytes EF BB BF only, so the decoder
    gives a string of ASCII characters for the bytes of these characters,
    alone or behind EF BB BF, and for no other input. *)

Lemma utf8_run_pending_end st : u_needed st <> 0 -> utf8_run st [] = [0xFFFD].
Proof.
  intros H. cbn [utf8_run]. destruct (Z.eqb_spec (u_needed st) 0); [lia|].
  reflexivity.
Qed.

(** A byte outside the boundaries of a pending sequence: the first code
    point is U+FFFD. *)
Lemma utf8_run_pending_error st b bs :
  u_needed st <> 0 -> ~ (u_lower st <= b2z b <= u_upper st) ->
  exists tail, utf8_run st (b :: bs) = 0xFFFD :: tail.
Proof.
  intros Hn Hout. cbn [utf8_run]. unfold utf8_handler.
  destruct (Z.eqb_spec (u_needed st) 0); [lia|].
  replace ((u_lower st <=? b2z b) && (b2z b <=? u_upper st)) with false.
  - cbn [negb]. destruct (utf8_lead (b2z b)) as [out st'].
    eexists. reflexivity.
  - symmetry. apply andb_false_iff.
    destruct (Z.leb_spec (u_lower st) (b2z b)); [|left; reflexivity].
    destruct (Z.leb_spec (b2z b) (u_upper st)); [lia|right; reflexivity].
Qed.

Lemma utf8_lead_bad b :
  0x80 <= b <= 0xC1 \/ 0xF5 <= b -> utf8_lead b = ([0xFFFD], utf8_init).
Proof.
  intros H. unfold utf8_lead.
  destruct (Z.leb_spec b 127); [lia|].
  replace ((194 <=? b) && (b <=? 223)) with false
    by (symmetry; apply andb_false_iff;
        destruct (Z.leb_spec 194 b); [right; apply Z.leb_gt; lia|left; reflexivity]).
  replace ((224 <=? b) && (b <=? 239)) with false
    by (symmetry; apply andb_false_iff;
        destruct (Z.leb_spec 224 b); [right; apply Z.leb_gt; lia|left; reflexivity]).
  replace ((240 <=? b) && (b <=? 244)) with false
    by (symmetry; apply andb_false_iff;
        destruct (Z.leb_spec 240 b); [right; apply Z.leb_gt; lia|left; reflexivity]).
  reflexivity.
Qed.

(** The last byte of a sequence: the code point of the sequence, or
    U+FFFD. *)
Lemma utf8_run_last st bs :
  u_needed st <> 0 -> u_seen st + 1 = u_needed st ->
  0x80 <= u_lower st -> u_upper st <= 0xBF ->
  exists cp tail,
    utf8_run st bs = cp :: tail
    /\ (cp = 0xFFFD
        \/ exists b rest,
             bs = b :: rest /\ u_lower st <= b2z b <= u_upper st
             /\ cp = u_cp st * 64 + b2z b mod 64
             /\ tail = utf8_run utf8_init rest).
Proof.
  intros Hn Hs Hl Hu. destruct bs as [|b bs].
  - rewrite utf8_run_pending_end by exact Hn. eauto.
  - destruct (Z.le_gt_cases (u_lower st) (b2z b)) as [Hlo|Hlo];
      [destruct (Z.le_gt_cases (b2z b) (u_upper st)) as [Hhi|Hhi]|].
    + cbn [utf8_run]. rewrite utf8_handler_last by lia. cbn [app].
      eexists. eexists. split; [reflexivity|]. right.
      exists b, bs. repeat split; lia.
    + destruct (utf8_run_pending_error st b bs Hn) as [tail ->]; [lia|eauto].
    + destruct (utf8_run_pending_error st b bs Hn) as [tail ->]; [lia|eauto].
Qed.

(** A byte of a sequence that is not the last one: U+FFFD, or the run goes
    on from the next state. *)
Lemma utf8_run_more st bs :
  u_needed st <> 0 -> u_seen st + 1 <> u_needed st ->
  (exists tail, utf8_run st bs = 0xFFFD :: tail)
  \/ exists b rest,
       bs = b :: rest /\ u_lower st <= b2z b <= u_upper st
       /\ utf8_run st bs
          = utf8_run {| u_cp := u_cp st * 64 + b2z b mod 64;
                        u_seen := u_seen st + 1; u_needed := u_needed st;
                        u_lower := 0x80; u_upper := 0xBF |} rest.
Proof.
  intros Hn Hs. destruct bs as [|b bs].
  - rewrite utf8_run_pending_end by exact Hn. eauto.
  - destruct (Z.le_gt_cases (u_lower st) (b2z b)) as [Hlo|Hlo];
      [destruct (Z.le_gt_cases (b2z b) (u_upper st)) as [Hhi|Hhi]|].
    + right. exists b, bs. split; [reflexivity|]. split; [lia|].
      cbn [utf8_run]. rewrite utf8_handler_more by lia. reflexivity.
    + left. apply utf8_run_pending_error; [exact Hn|lia].
    + left. apply utf8_run_pending_error; [exact Hn|lia].
Qed.

Lemma utf8_run_bom bs cps :
  utf8_run utf8_init bs = 0xFEFF :: cps ->
  exists rest, bs = utf8_bom ++ rest /\ utf8_run utf8_init rest = cps.
Proof.
  destruct bs as [|b0 bs]; [discriminate|].
  pose proof (b2z_range b0) as Hb0.
  cbn [utf8_run]. rewrite utf8_handler_init.
  destruct (Z.le_gt_cases (b2z b0) 0x7F) as [H1|H1].
  { rewrite utf8_lead_1 by lia. cbn [app]. intros H. exfalso.
    assert (b2z b0 = 0xFEFF) by congruence. lia. }
  destruct (Z.le_gt_cases (b2z b0) 0xC1) as [H2|H2].
  { rewrite utf8_lead_bad by lia. cbn [app]. discriminate. }
  destruct (Z.le_gt_cases (b2z b0) 0xDF) as [H3|H3].
  { rewrite utf8_lead_2 by lia. cbn [app].
    match goal with |- utf8_run ?st _ = _ -> _ =>
      destruct (utf8_run_last st bs) as (cp & tail & -> & [-> |Hcp]);
        utf8_fields; try lia
    end; [discriminate|].
    destruct Hcp as (b1 & rest & _ & Hb1 & -> & _).
    utf8_fields. intros H. exfalso.
    assert (b2z b0 mod 32 * 64 + b2z b1 mod 64 = 0xFEFF) by congruence.
    dlia. }
  destruct (Z.le_gt_cases (b2z b0) 0xEF) as [H4|H4].
  { rewrite utf8_lead_3 by lia. cbn [app].
    match goal with |- utf8_run ?st _ = _ -> _ =>
      destruct (utf8_run_more st bs) as [[tail ->]|(b1 & bs1 & -> & Hb1 & ->)];
        utf8_fields; try lia
    end; [discriminate|].
    utf8_fields.
    match goal with |- utf8_run ?st _ = _ -> _ =>
      destruct (utf8_run_last st bs1) as (cp & tail & -> & [-> |Hcp]);
        utf8_fields; try lia
    end; [discriminate|].
    destruct Hcp as (b2 & rest & -> & Hb2 & -> & ->).
    cbn [u_cp u_seen u_needed u_lower u_upper] in Hb1, Hb2. utf8_fields.
    intros H.
    assert (Hcp : (b2z b0 mod 16 * 64 + b2z b1 mod 64) * 64 + b2z b2 mod 64
                  = 0xFEFF) by congruence.
    assert (Htail : utf8_run utf8_init rest = cps) by congruence.
    pose proof (b2z_range b1) as Hr1. pose proof (b2z_range b2) as Hr2.
    assert (Hb1' : 0x80 <= b2z b1 <= 0xBF)
      by (destruct (Z.eqb_spec (b2z b0) 224), (Z.eqb_spec (b2z b0) 237); lia).
    assert (E0 : b2z b0 = 0xEF) by dlia.
    assert (E1 : b2z b1 = 0xBB) by dlia.
    assert (E2 : b2z b2 = 0xBF) by dlia.
    exists rest. split; [|exact Htail].
    unfold utf8_bom. cbn [app]. repeat f_equal; apply b2z_inj; assumption. }
  destruct (Z.le_gt_cases (b2z b0) 0xF4) as [H5|H5].
  { rewrite utf8_lead_4 by lia. cbn [app].
    match goal with |- utf8_run ?st _ = _ -> _ =>
      destruct (utf8_run_more st bs) as [[tail ->]|(b1 & bs1 & -> & Hb1 & ->)];
        utf8_fields; try lia
    end; [discriminate|].
    utf8_fields.
    match goal with |- utf8_run ?st _ = _ -> _ =>
      destruct (utf8_run_more st bs1) as [[tail ->]|(b2 & bs2 & -> & Hb2 & ->)];
        utf8_fields; try lia
    end; [discriminate|].
    utf8_fields.
    match goal with |- utf8_run ?st _ = _ -> _ =>
      destruct (utf8_run_last st bs2) as (cp & tail & -> & [-> |Hcp]);
        utf8_fields; try lia
    end; [discriminate|].
    destruct Hcp as (b3 & rest & -> & Hb3 & -> & ->).
    cbn [u_cp u_seen u_needed u_lower u_upper] in Hb1. utf8_fields.
    intros H. exfalso.
    assert (Hcp : ((b2z b0 mod 8 * 64 + b2z b1 mod 64) * 64 + b2z b2 mod 64) * 64
                  + b2z b3 mod 64 = 0xFEFF) by congruence.
    pose proof (b2z_range b1) as Hr1.
    destruct (Z.eqb_spec (b2z b0) 240), (Z.eqb_spec (b2z b0) 244); dlia. }
  rewrite utf8_lead_bad by lia. cbn [app]. discriminate.
Qed.

Lemma TextDecoder_decode_ascii_cases bs s :
  ascii_only s -> TextDecoder_decode bs = s ->
  map b2z bs = s \/ exists rest, bs = utf8_bom ++ rest /\ map b2z rest = s.
Proof.
  intros Hs Hdec. unfold TextDecoder_decode in Hdec.
  destruct (utf8_run utf8_init bs) as [|c cps] eqn:Hrun.
  - left. apply utf8_run_ascii; [exact Hs|]. rewrite Hrun. exact Hdec.
  - cbn [strip_bom] in Hdec. destruct (Z.eqb_spec c 65279) as [-> |Hc].
    + right. destruct (utf8_run_bom bs cps Hrun) as [rest [-> Hrest]].
      exists rest. split; [reflexivity|].
      apply utf8_run_ascii; [exact Hs|]. rewrite Hrest. exact Hdec.
    + left. apply utf8_run_ascii; [exact Hs|]. rewrite Hrun. exact Hdec.
Qed.

(* ================================================================== *)
(** * Buffers *)

Lemma byteLength_app a b : byteLength (a ++ b) = byteLength a + byteLength b.
Proof. unfold byteLength. rewrite length_app. lia. Qed.

Lemma byteLength_nonneg a : 0 <= byteLength a.
Proof. unfold byteLength. lia. Qed.

Lemma byteLength_repeat b n : byteLength (repeat b n) = Z.of_nat n.
Proof. unfold byteLength. rewrite repeat_length. reflexivity. Qed.

Lemma byteLength_be32 v : byteLength (be32 v) = 4.
Proof. reflexivity. Qed.

Lemma to_nat_byteLength a : Z.to_nat (byteLength a) = List.length a.
Proof. unfold byteLength. apply Nat2Z.id. Qed.

Lemma skipn_repeat {A} (x : A) k n : skipn k (repeat x n) = repeat x (n - k).
Proof.
  revert n. induction k as [|k IH]; intros n.
  - rewrite Nat.sub_0_r. reflexivity.
  - destruct n as [|n]; [reflexivity|]. cbn [repeat skipn]. apply IH.
Qed.

(** Writing at the end of the part of a zero-filled buffer that is already
    written. *)
Lemma overwrite_fill a n src :
  (List.length src <= n)%nat ->
  overwrite (a ++ repeat x00 n) (List.length a) src
  = (a ++ src) ++ repeat x00 (n - List.length src).
Proof.
  intros H. unfold overwrite.
  rewrite firstn_app, firstn_all, Nat.sub_diag, firstn_O, app_nil_r.
  rewrite skipn_app, skipn_all2 by lia.
  replace (List.length a + List.length src - List.length a)%nat
    with (List.length src) by lia.
  rewrite skipn_repeat. rewrite <- app_assoc. reflexivity.
Qed.

Lemma andb_true_intro2 a b : a = true -> b = true -> a && b = true.
Proof. intros -> ->. reflexivity. Qed.

Lemma in_bounds offset len total :
  0 <= offset -> offset + len <= total ->
  (0 <=? offset) && (offset + len <=? total) = true.
Proof.
  intros H1 H2. apply andb_true_intro2; apply Z.leb_le; assumption.
Qed.

Lemma setUint32_fill a n offset v :
  offset = byteLength a -> (4 <= n)%nat ->
  setUint32 (a ++ repeat x00 n) offset v
  = Ok ((a ++ be32 v) ++ repeat x00 (n - 4)).
Proof.
  intros -> Hn. unfold setUint32.
  rewrite in_bounds;
    [|apply byteLength_nonneg|rewrite byteLength_app, byteLength_repeat; lia].
  rewrite to_nat_byteLength, overwrite_fill by exact Hn. reflexivity.
Qed.

Lemma setUint8_fill a n offset v :
  offset = byteLength a -> (1 <= n)%nat ->
  setUint8 (a ++ repeat x00 n) offset v
  = Ok ((a ++ [z2b v]) ++ repeat x00 (n - 1)).
Proof.
  intros -> Hn. unfold setUint8.
  rewrite in_bounds;
    [|apply byteLength_nonneg|rewrite byteLength_app, byteLength_repeat; lia].
  rewrite to_nat_byteLength, overwrite_fill by exact Hn. reflexivity.
Qed.

Lemma TypedArray_set_fill a n offset src :
  offset = byteLength a -> (List.length src <= n)%nat ->
  TypedArray_set (a ++ repeat x00 n) src offset
  = Ok ((a ++ src) ++ repeat x00 (n - List.length src)).
Proof.
  intros -> Hn. unfold TypedArray_set.
  rewrite in_bounds;
    [|apply byteLength_nonneg
     |rewrite byteLength_app, byteLength_repeat; unfold byteLength; lia].
  rewrite to_nat_byteLength, overwrite_fill by exact Hn. reflexivity.
Qed.

Lemma index_assign_fill a n i v :
  i = byteLength a -> (1 <= n)%nat ->
  index_assign (a ++ repeat x00 n) i v
  = (a ++ [z2b v]) ++ repeat x00 (n - 1).
Proof.
  intros -> Hn. unfold index_assign.
  replace ((0 <=? byteLength a) && (byteLength a <? byteLength (a ++ repeat x00 n)))
    with true.
  - rewrite to_nat_byteLength, overwrite_fill by exact Hn. reflexivity.
  - symmetry. apply andb_true_intro2; [apply Z.leb_le, byteLength_nonneg|].
    apply Z.ltb_lt. rewrite byteLength_app, byteLength_repeat. lia.
Qed.

(** * Statements *)

Lemma pbind_ok {A B} (c : prog A) (k : A -> prog B) s a s' :
  c s = Ok (a, s') -> pbind c k s = k a s'.
Proof. intros H. unfold pbind. rewrite H. reflexivity. Qed.

Lemma pbind_throw {A B} (c : prog A) (k : A -> prog B) s e :
  c s = Throw e -> pbind c k s = Throw e.
Proof. intros H. unfold pbind. rewrite H. reflexivity. Qed.

Lemma write_ok n f s v :
  f (get s n) = Ok v -> write n f s = Ok (tt, put s n v).
Proof. intros H. unfold write. rewrite H. reflexivity. Qed.

Lemma get_put s n v : get (put s n v) n = v.
Proof. destruct n; reflexivity. Qed.

Lemma put_put s n v w : put (put s n v) n w = put s n w.
Proof. destruct n; reflexivity. Qed.

Lemma put_get s n : put s n (get s n) = s.
Proof. destruct s, n; reflexivity. Qed.

Lemma get_put_other s n m v : n <> m -> get (put s n v) m = get s m.
Proof. destruct n, m; intros H; try reflexivity; congruence. Qed.

Lemma writeString_from_fill view offset i chars s a n :
  get s view = a ++ repeat x00 n ->
  offset + i = byteLength a -> (List.length chars <= n)%nat ->
  writeString_from view offset i chars s
  = Ok (tt, put s view ((a ++ map z2b chars)
                         ++ repeat x00 (n - List.length chars))).
Proof.
  revert i s a n. induction chars as [|c chars IH]; intros i s a n Hg Hi Hn.
  - cbn [writeString_from map List.length]. unfold ret.
    rewrite app_nil_r, Nat.sub_0_r, <- Hg, put_get. reflexivity.
  - cbn [writeString_from map List.length] in *.
    erewrite pbind_ok; cycle 1.
    { apply write_ok. rewrite Hg. apply setUint8_fill; [exact Hi|lia]. }
    erewrite IH; cycle 1.
    { apply get_put. }
    { rewrite byteLength_app. change (byteLength [z2b c]) with 1. lia. }
    { lia. }
    rewrite put_put.
    replace (n - 1 - List.length chars)%nat with (n - S (List.length chars))%nat by lia.
    rewrite <- (app_assoc a). reflexivity.
Qed.

(* ================================================================== *)
Lemma keyData_bytes :
  TextEncoder_encode (js_lit "parameters") = ascii_bytes "parameters".
Proof. vm_compute. reflexivity. Qed.

Lemma slice_mid a m c start stop :
  start = byteLength a -> stop = start + byteLength m ->
  slice (a ++ m ++ c) start stop = m.
Proof.
  intros -> ->. unfold slice.
  rewrite Z2Nat.inj_add by apply byteLength_nonneg.
  rewrite !to_nat_byteLength.
  replace (List.length a + List.length m - List.length a)%nat
    with (List.length m + 0)%nat by lia.
  rewrite skipn_app, skipn_all, Nat.sub_diag, skipn_O. cbn [app].
  rewrite firstn_app_2, firstn_O, app_nil_r. reflexivity.
Qed.

Lemma alloc_ok n len s : alloc n len s = Ok (tt, put s n (new_Uint8Array len)).
Proof. reflexivity. Qed.

Lemma read_ok n s : read n s = Ok (get s n, s).
Proof. reflexivity. Qed.

Lemma build_chunk_run t s :
  build_chunk t s = Ok (tt, put s chunkBuffer (encode_chunk (parameters_chunk t))).
Proof.
  unfold build_chunk.
  rewrite keyData_bytes.
  unfold parameters_chunk, text_chunk, make_chunk, encode_chunk.
  cbn [chunk_type chunk_data chunk_crc].
  rewrite keyData_bytes.
  set (T := TextEncoder_encode t).
  set (K := ascii_bytes "parameters").
  cbv zeta.
  erewrite pbind_ok by apply alloc_ok.
  change (byteLength K) with 10.
  assert (HT : byteLength T = Z.of_nat (List.length T)) by reflexivity.
  replace (new_Uint8Array (10 + 1 + byteLength T + 12))
    with ([] ++ repeat x00 (List.length T + 23)); cycle 1.
  { unfold new_Uint8Array. cbn [app]. f_equal. lia. }
  (* 1. Length *)
  erewrite pbind_ok; cycle 1.
  { apply write_ok. rewrite get_put. apply setUint32_fill; [reflexivity|lia]. }
  rewrite put_put.
  (* 2. Type *)
  unfold writeString.
  erewrite pbind_ok; cycle 1.
  { eapply writeString_from_fill; [apply get_put|reflexivity|cbn; lia]. }
  rewrite put_put.
  (* 3. Data *)
  erewrite pbind_ok; cycle 1.
  { apply write_ok. rewrite get_put. apply TypedArray_set_fill; [reflexivity|cbn; lia]. }
  rewrite put_put.
  erewrite pbind_ok; cycle 1.
  { apply write_ok. rewrite get_put.
    rewrite index_assign_fill; [reflexivity|reflexivity|cbn; lia]. }
  rewrite put_put.
  erewrite pbind_ok; cycle 1.
  { apply write_ok. rewrite get_put. apply TypedArray_set_fill; [reflexivity|cbn; lia]. }
  rewrite put_put.
  (* 4. CRC *)
  erewrite pbind_ok by apply read_ok. rewrite get_put.
  change (map z2b (js_lit "tEXt")) with (ascii_bytes "tEXt").
  change (z2b 0) with x00.
  change (List.length (js_lit "tEXt")) with 4%nat.
  change (List.length K) with 10%nat.
  replace (List.length T + 23 - 4 - 4 - 10 - 1 - List.length T)%nat
    with 4%nat by lia.
  set (Ty := ascii_bytes "tEXt").
  set (L := 10 + 1 + byteLength T).
  assert (HL : byteLength (K ++ [x00] ++ T) = L).
  { rewrite !byteLength_app. change (byteLength K) with 10.
    change (byteLength [x00]) with 1. unfold L. lia. }
  replace (((((([] ++ be32 L) ++ Ty) ++ K) ++ [x00]) ++ T) ++ repeat x00 4)
    with (be32 L ++ (Ty ++ K ++ [x00] ++ T) ++ repeat x00 4)
    by (cbn [app]; rewrite <- !app_assoc; reflexivity).
  rewrite slice_mid; cycle 1.
  { reflexivity. }
  { rewrite byteLength_app, HL. change (byteLength Ty) with 4. lia. }
  set (crc := crc32 (Ty ++ K ++ [x00] ++ T)).
  erewrite write_ok; cycle 1.
  { rewrite get_put, (app_assoc (be32 L)).
    apply setUint32_fill; [|lia].
    rewrite (byteLength_app (be32 L)), (byteLength_app Ty), HL, byteLength_be32.
    change (byteLength Ty) with 4. lia. }
  rewrite put_put. cbn [repeat Nat.sub]. rewrite app_nil_r, HL.
  rewrite <- !app_assoc. reflexivity.
Qed.

Lemma slice_0_8 buf : slice buf 0 8 = firstn 8 buf.
Proof. reflexivity. Qed.

Lemma combine_run s :
  8 <= byteLength (get s originalBuffer) ->
  let out := firstn 8 (get s originalBuffer) ++ get s chunkBuffer
             ++ skipn 8 (get s originalBuffer) in
  combine s = Ok (out, put s finalBuffer out).
Proof.
  intros Hlen out. unfold combine.
  erewrite pbind_ok by apply read_ok.
  erewrite pbind_ok by apply read_ok.
  erewrite pbind_ok by apply alloc_ok.
  set (original := get s originalBuffer) in *.
  set (chunk := get s chunkBuffer) in *.
  clearbody original chunk.
  assert (Hl : (8 <= List.length original)%nat)
    by (unfold byteLength in Hlen; lia).
  assert (H8 : List.length (firstn 8 original) = 8%nat).
  { rewrite length_firstn. lia. }
  assert (Hrest : List.length (skipn 8 original) = (List.length original - 8)%nat).
  { apply length_skipn. }
  replace (new_Uint8Array (byteLength original + byteLength chunk))
    with ([] ++ repeat x00 (List.length original + List.length chunk)); cycle 1.
  { unfold new_Uint8Array, byteLength. cbn [app]. f_equal. lia. }
  erewrite pbind_ok; cycle 1.
  { apply write_ok. rewrite get_put, slice_0_8.
    apply TypedArray_set_fill; [reflexivity|]. unfold byteLength in Hlen. lia. }
  rewrite put_put.
  erewrite pbind_ok; cycle 1.
  { apply write_ok. rewrite get_put.
    apply TypedArray_set_fill.
    - unfold byteLength. cbn [app]. rewrite H8. reflexivity.
    - lia. }
  rewrite put_put.
  erewrite pbind_ok; cycle 1.
  { apply write_ok. rewrite get_put. unfold slice_from.
    apply TypedArray_set_fill.
    - unfold byteLength. cbn [app]. rewrite length_app, H8. lia.
    - change (Z.to_nat 8) with 8%nat. unfold byteLength in Hlen. lia. }
  rewrite put_put, read_ok, get_put.
  change (Z.to_nat 8) with 8%nat.
  replace (List.length original + List.length chunk - List.length (firstn 8 original)
           - List.length chunk - List.length (skipn 8 original))%nat with 0%nat
    by (unfold byteLength in Hlen; lia).
  cbn [repeat app]. rewrite app_nil_r, <- app_assoc. reflexivity.
Qed.

Lemma combine_short s :
  byteLength (get s originalBuffer) < 8 -> combine s = Throw RangeError.
Proof.
  intros Hlen. unfold combine.
  erewrite pbind_ok by apply read_ok.
  erewrite pbind_ok by apply read_ok.
  erewrite pbind_ok by apply alloc_ok.
  set (original := get s originalBuffer) in *.
  set (chunk := get s chunkBuffer) in *.
  clearbody original chunk.
  assert (H8 : firstn 8 original = original).
  { apply firstn_all2. unfold byteLength in Hlen. lia. }
  replace (new_Uint8Array (byteLength original + byteLength chunk))
    with ([] ++ repeat x00 (List.length original + List.length chunk)); cycle 1.
  { unfold new_Uint8Array, byteLength. cbn [app]. f_equal. lia. }
  erewrite pbind_ok; cycle 1.
  { apply write_ok. rewrite get_put, slice_0_8, H8.
    apply TypedArray_set_fill; [reflexivity|apply Nat.le_add_r]. }
  rewrite put_put.
  apply pbind_throw. unfold write. rewrite get_put. unfold TypedArray_set.
  replace (8 + byteLength chunk <=? _) with false; [reflexivity|].
  symmetry. apply Z.leb_gt.
  rewrite !byteLength_app, byteLength_repeat. cbn [app].
  unfold byteLength in *. cbn [List.length]. lia.
Qed.

(** What [injectPngMetadata] returns: the first eight bytes of the file,
    the new chunk, the rest of the file; a file of less than eight bytes
    makes [finalBuffer.set(chunkBuffer, 8)] throw. *)
Lemma injectPngMetadata_body_run file t :
  8 <= byteLength file ->
  let out := firstn 8 file ++ encode_chunk (parameters_chunk t) ++ skipn 8 file in
  injectPngMetadata_body t (initial_store file)
  = Ok (out, {| s_originalBuffer := file;
                s_chunkBuffer := encode_chunk (parameters_chunk t);
                s_finalBuffer := out |}).
Proof.
  intros Hlen out. unfold injectPngMetadata_body.
  erewrite pbind_ok by apply build_chunk_run.
  rewrite combine_run by exact Hlen. reflexivity.
Qed.

Lemma injectPngMetadata_eq file t :
  injectPngMetadata file t =
  if 8 <=? byteLength file
  then Ok {| blob_bytes := firstn 8 file ++ encode_chunk (parameters_chunk t)
                           ++ skipn 8 file;
             blob_type := "image/png" |}
  else Throw RangeError.
Proof.
  unfold injectPngMetadata.
  destruct (Z.leb_spec 8 (byteLength file)) as [Hlen|Hlen].
  - rewrite injectPngMetadata_body_run by exact Hlen. reflexivity.
  - unfold injectPngMetadata_body.
    erewrite pbind_ok by apply build_chunk_run.
    rewrite combine_short by exact Hlen. reflexivity.
Qed.

(* ================================================================== *)
(** * Reading *)

Lemma byte_at_range buf i : 0 <= byte_at buf i < 256.
Proof. apply b2z_range. Qed.

Lemma getUint32_nonneg buf offset v : getUint32 buf offset = Ok v -> 0 <= v.
Proof.
  unfold getUint32. destruct (_ && _); [|discriminate].
  intros [= <-].
  pose proof (byte_at_range buf offset).
  pose proof (byte_at_range buf (offset + 1)).
  pose proof (byte_at_range buf (offset + 2)).
  pose proof (byte_at_range buf (offset + 3)). lia.
Qed.

Lemma byte_at_app_r pre buf k :
  0 <= k -> byte_at (pre ++ buf) (byteLength pre + k) = byte_at buf k.
Proof.
  intros Hk. unfold byte_at, byteLength. f_equal.
  rewrite Z2Nat.inj_add, Nat2Z.id by lia.
  rewrite app_nth2_plus. reflexivity.
Qed.

Lemma be32_value u :
  0 <= u < 2 ^ 32 ->
  (u / 2 ^ 24 mod 256) * 2 ^ 24 + (u / 2 ^ 16 mod 256) * 2 ^ 16
  + (u / 2 ^ 8 mod 256) * 2 ^ 8 + u mod 256 = u.
Proof.
  intros Hu. change (2 ^ 24) with 16777216. change (2 ^ 16) with 65536.
  change (2 ^ 8) with 256. change (2 ^ 32) with 4294967296 in Hu. dlia.
Qed.

Lemma getUint32_be32 pre v post :
  getUint32 (pre ++ be32 v ++ post) (byteLength pre) = Ok (toUint32 v).
Proof.
  unfold getUint32.
  rewrite in_bounds; [|apply byteLength_nonneg|].
  2:{ rewrite !byteLength_app, byteLength_be32.
      pose proof (byteLength_nonneg post). lia. }
  f_equal.
  rewrite <- (Z.add_0_r (byteLength pre)) at 1.
  rewrite !byte_at_app_r by lia.
  unfold be32. cbn [app]. unfold byte_at.
  change (Z.to_nat 0) with 0%nat. change (Z.to_nat 1) with 1%nat.
  change (Z.to_nat 2) with 2%nat. change (Z.to_nat 3) with 3%nat.
  cbn [nth].
  rewrite !b2z_z2b. apply be32_value, toUint32_range.
Qed.

Lemma Uint8Array_view_mid pre mid post byteOffset len :
  byteOffset = byteLength pre -> len = byteLength mid ->
  Uint8Array_view (pre ++ mid ++ post) byteOffset len = Ok mid.
Proof.
  intros -> ->. unfold Uint8Array_view.
  pose proof (byteLength_nonneg pre). pose proof (byteLength_nonneg mid).
  pose proof (byteLength_nonneg post).
  replace (_ && _ && _) with true.
  - rewrite !to_nat_byteLength.
    rewrite skipn_app, skipn_all, Nat.sub_diag, skipn_O. cbn [app].
    rewrite <- (Nat.add_0_r (List.length mid)).
    rewrite firstn_app_2, firstn_O, app_nil_r. reflexivity.
  - symmetry. rewrite !andb_true_iff, !Z.leb_le, !byteLength_app. lia.
Qed.

(** * One turn of the loop, on a chunk *)

Lemma byteLength_encode_chunk c :
  wf_chunk c -> byteLength (encode_chunk c) = 12 + byteLength (chunk_data c).
Proof.
  intros (Ht & Hc & _). unfold encode_chunk.
  rewrite !byteLength_app, byteLength_be32. unfold byteLength.
  rewrite Ht, Hc. lia.
Qed.

Lemma scan_chunk_at pre c post :
  wf_chunk c ->
  scan_chunk (pre ++ encode_chunk c ++ post) (byteLength pre)
  = Ok (chunk_iteration c (byteLength pre)).
Proof.
  intros Hwf. pose proof Hwf as (Ht & Hc & Hd).
  unfold scan_chunk, encode_chunk, chunk_iteration, chunk_entry, chunk_is_tEXt.
  destruct c as [ty data crc]. cbn [chunk_type chunk_data chunk_crc] in *.
  set (L := byteLength data) in *.
  assert (Hty : byteLength ty = 4) by (unfold byteLength; rewrite Ht; reflexivity).
  rewrite <- !app_assoc.
  rewrite getUint32_be32. cbn [bind].
  rewrite toUint32_small by (pose proof (byteLength_nonneg data); lia).
  rewrite (app_assoc pre (be32 L)).
  rewrite (Uint8Array_view_mid (pre ++ be32 L) ty); cycle 1.
  { rewrite byteLength_app, byteLength_be32. reflexivity. }
  { symmetry. exact Hty. }
  cbn [bind].
  destruct (jsstring_eqb (TextDecoder_decode ty) (js_lit "tEXt")); [|reflexivity].
  rewrite (app_assoc (pre ++ be32 L) ty).
  rewrite (Uint8Array_view_mid ((pre ++ be32 L) ++ ty) data); cycle 1.
  { rewrite !byteLength_app, byteLength_be32, Hty. lia. }
  { reflexivity. }
  cbn [bind].
  destruct (-1 <? find_null 0 data); [|reflexivity].
  destruct (jsstring_eqb _ (js_lit "parameters")); reflexivity.
Qed.

Lemma flat_map_encode_length cs :
  Forall wf_chunk cs ->
  (List.length cs <= List.length (flat_map encode_chunk cs))%nat.
Proof.
  induction 1 as [|c cs Hc _ IH]; cbn [flat_map List.length].
  - lia.
  - rewrite length_app. apply byteLength_encode_chunk in Hc.
    pose proof (byteLength_nonneg (chunk_data c)).
    unfold byteLength in *. lia.
Qed.

(** The loop over a sequence of chunks: it stops at the first one whose
    keyword is [parameters], and otherwise goes on behind the last one. *)
Lemma scan_chunks cs : forall pre post fuel,
  Forall wf_chunk cs -> (List.length cs <= fuel)%nat ->
  scan fuel (pre ++ flat_map encode_chunk cs ++ post) (byteLength pre) =
  match first_parameters cs with
  | Some text => Some (Ok (Some text))
  | None =>
      scan (fuel - List.length cs) (pre ++ flat_map encode_chunk cs ++ post)
           (byteLength pre + byteLength (flat_map encode_chunk cs))
  end.
Proof.
  induction cs as [|c cs IH]; intros pre post fuel Hwf Hfuel.
  - cbn [first_parameters flat_map List.length].
    rewrite Nat.sub_0_r. change (byteLength []) with 0. rewrite Z.add_0_r.
    reflexivity.
  - inversion Hwf as [|? ? Hc Hcs]; subst.
    cbn [List.length] in Hfuel. destruct fuel as [|fuel]; [lia|].
    cbn [flat_map first_parameters]. rewrite <- app_assoc.
    cbn [scan].
    replace (byteLength pre <? _) with true; cycle 1.
    { symmetry. apply Z.ltb_lt. rewrite !byteLength_app.
      rewrite byteLength_encode_chunk by exact Hc.
      pose proof (byteLength_nonneg (chunk_data c)).
      pose proof (byteLength_nonneg (flat_map encode_chunk cs)).
      pose proof (byteLength_nonneg post). lia. }
    rewrite scan_chunk_at by exact Hc.
    unfold chunk_iteration.
    assert (Hnext :
      scan fuel (pre ++ encode_chunk c ++ flat_map encode_chunk cs ++ post)
           (byteLength pre + (12 + byteLength (chunk_data c)))
      = match first_parameters cs with
        | Some text => Some (Ok (Some text))
        | None =>
            scan (S fuel - S (List.length cs))
              (pre ++ encode_chunk c ++ flat_map encode_chunk cs ++ post)
              (byteLength pre
               + byteLength (encode_chunk c ++ flat_map encode_chunk cs))
        end).
    { rewrite <- byteLength_encode_chunk by exact Hc.
      rewrite <- byteLength_app.
      rewrite (app_assoc pre (encode_chunk c)).
      rewrite IH by (assumption || lia).
      destruct (first_parameters cs); [reflexivity|].
      rewrite !byteLength_app. f_equal. lia. }
    destruct (chunk_entry c) as [[keyword text]|]; [|exact Hnext].
    destruct (jsstring_eqb keyword (js_lit "parameters")); [reflexivity|exact Hnext].
Qed.

Lemma scan_at_end fuel buffer : scan fuel buffer (byteLength buffer) = Some (Ok None).
Proof.
  destruct fuel; cbn [scan]; rewrite Z.ltb_irrefl; reflexivity.
Qed.

(** * The signature *)

Lemma PNG_SIGNATURE_words :
  PNG_SIGNATURE = be32 0x89504e47 ++ be32 0x0d0a1a0a.
Proof. vm_compute. reflexivity. Qed.

Lemma getUint32_signature_0 rest :
  getUint32 (PNG_SIGNATURE ++ rest) 0 = Ok 0x89504e47.
Proof.
  rewrite PNG_SIGNATURE_words, <- app_assoc.
  apply (getUint32_be32 [] 0x89504e47).
Qed.

Lemma getUint32_signature_4 rest :
  getUint32 (PNG_SIGNATURE ++ rest) 4 = Ok 0x0d0a1a0a.
Proof.
  rewrite PNG_SIGNATURE_words, <- app_assoc.
  apply (getUint32_be32 (be32 0x89504e47) 0x0d0a1a0a).
Qed.

(** [extractPngMetadata] on a file with the signature: the result of the
    loop from offset 8. *)
Lemma extractPngMetadata_signature {E} rest :
  @extractPngMetadata E (PNG_SIGNATURE ++ rest) =
  match scan (List.length (PNG_SIGNATURE ++ rest)) (PNG_SIGNATURE ++ rest) 8 with
  | None => None
  | Some (Throw e) => Some (Throw e)
  | Some (Ok parameters) => Some (Ok (png_result parameters))
  end.
Proof.
  unfold extractPngMetadata.
  rewrite getUint32_signature_0, getUint32_signature_4. reflexivity.
Qed.

(** The file is the signature and a sequence of chunks, followed by any
    bytes: the result is decided by the first chunk whose keyword is
    [parameters], when there is one. *)
Lemma extractPngMetadata_chunks {E} cs post :
  Forall wf_chunk cs ->
  @extractPngMetadata E (PNG_SIGNATURE ++ flat_map encode_chunk cs ++ post) =
  match first_parameters cs with
  | Some text => Some (Ok (png_result (Some text)))
  | None =>
      match scan (List.length (PNG_SIGNATURE ++ flat_map encode_chunk cs ++ post)
                  - List.length cs)
                 (PNG_SIGNATURE ++ flat_map encode_chunk cs ++ post)
                 (8 + byteLength (flat_map encode_chunk cs)) with
      | None => None
      | Some (Throw e) => Some (Throw e)
      | Some (Ok parameters) => Some (Ok (png_result parameters))
      end
  end.
Proof.
  intros Hwf. rewrite extractPngMetadata_signature.
  change 8 with (byteLength PNG_SIGNATURE) at 1.
  rewrite scan_chunks.
  - destruct (first_parameters cs); reflexivity.
  - exact Hwf.
  - rewrite !length_app. pose proof (flat_map_encode_length cs Hwf). lia.
Qed.

Lemma extractPngMetadata_png_of {E} cs :
  Forall wf_chunk cs ->
  @extractPngMetadata E (png_of cs) = Some (Ok (png_result (first_parameters cs))).
Proof.
  intros Hwf. unfold png_of.
  rewrite <- (app_nil_r (flat_map encode_chunk cs)) at 1.
  rewrite extractPngMetadata_chunks by exact Hwf.
  destruct (first_parameters cs); [reflexivity|].
  rewrite app_nil_r.
  change 8 with (byteLength PNG_SIGNATURE). rewrite <- byteLength_app.
  rewrite scan_at_end. reflexivity.
Qed.

(* ================================================================== *)
(** * The loop ends *)

Lemma scan_chunk_next buffer offset offset' :
  scan_chunk buffer offset = Ok (Next offset') -> offset + 12 <= offset'.
Proof.
  unfold scan_chunk.
  destruct (getUint32 buffer offset) as [len|] eqn:Hlen; [|discriminate].
  apply getUint32_nonneg in Hlen. cbn [bind].
  destruct (Uint8Array_view buffer (offset + 4) 4); [|discriminate]. cbn [bind].
  destruct (jsstring_eqb _ (js_lit "tEXt")).
  - destruct (Uint8Array_view buffer (offset + 8) len); [|discriminate].
    cbn [bind].
    destruct (-1 <? _); [destruct (jsstring_eqb _ _); [discriminate|]|];
      intros H; assert (offset' = offset + (12 + len)) by congruence; lia.
  - intros H. assert (offset' = offset + (12 + len)) by congruence. lia.
Qed.

Lemma scan_total fuel : forall buffer offset,
  byteLength buffer - offset <= Z.of_nat fuel ->
  exists r, scan fuel buffer offset = Some r.
Proof.
  induction fuel as [|fuel IH]; intros buffer offset Hfuel; cbn [scan].
  - destruct (Z.ltb_spec offset (byteLength buffer)); [lia|eauto].
  - destruct (Z.ltb_spec offset (byteLength buffer)); [|eauto].
    destruct (scan_chunk buffer offset) as [[parameters|offset']|e] eqn:Hstep;
      [eauto| |eauto].
    apply scan_chunk_next in Hstep. apply IH. lia.
Qed.

(** [extractPngMetadata] never runs out of fuel. *)
Lemma extractPngMetadata_total {E} (file : list byte) :
  exists r, @extractPngMetadata E file = Some r.
Proof.
  unfold extractPngMetadata.
  destruct (getUint32 file 0) as [w0|]; [|eauto].
  destruct (negb (w0 =? _)); [eauto|].
  destruct (getUint32 file 4) as [w1|]; [|eauto].
  destruct (negb (w1 =? _)); [eauto|].
  destruct (scan_total (List.length file) file 8) as [r Hr].
  { unfold byteLength. lia. }
  rewrite Hr. destruct r as [parameters|e]; eauto.
Qed.

Lemma handleExtract_total {E} window_piexif piexif_load (st : AppState E) file :
  exists st', handleExtract window_piexif piexif_load st file = Some st'.
Proof.
  unfold handleExtract.
  destruct (String.eqb (file_type file) "image/png").
  - destruct (@extractPngMetadata_total E (file_bytes file)) as [r ->].
    destruct r as [[m|]|e]; eauto.
  - destruct (String.eqb (file_type file) "image/jpeg").
    + destruct (negb window_piexif); [eauto|].
      destruct (extractJpgMetadata E piexif_load file); eauto.
    + destruct (String.eqb (file_type file) "image/webp"); eauto.
Qed.

(* ================================================================== *)
(** * CRC *)

Example crc32_check_value :
  toUint32 (crc32 (ascii_bytes "123456789")) = 0xCBF43926.
Proof. vm_compute. reflexivity. Qed.

(** C4, counterexample: on the ASCII bytes of IEND [crc32] returns the
    negative number -1371381630, not 0xAE426082: the last [^] of line 37
    gives a signed 32-bit integer. *)
Lemma C4_counterexample :
  crc32 (ascii_bytes "IEND") = -1371381630
  /\ crc32 (ascii_bytes "IEND") <> 0xAE426082.
Proof. split; [vm_compute; reflexivity|vm_compute; discriminate]. Qed.

(** C4, as amended: on every byte sequence the result of [crc32], read as an
    unsigned 32-bit value, is the reference CRC-32 computed bit by bit from
    the polynomial 0xEDB88320; [crc32] itself returns that value as a signed
    32-bit integer, and the four bytes that [setUint32] stores for it are
    those of the reference value.  For IEND the reference value is
    0xAE426082 and [crc32] returns 0xAE426082 - 2^32. *)
Theorem C4_crc32_reference (buf : list byte) :
  toUint32 (crc32 buf) = crc32_reference buf
  /\ crc32 buf = toInt32 (crc32_reference buf)
  /\ be32 (crc32 buf) = be32 (crc32_reference buf)
  /\ crc32_reference (ascii_bytes "IEND") = 0xAE426082
  /\ crc32 (ascii_bytes "IEND") = 0xAE426082 - 2 ^ 32.
Proof.
  split; [apply crc32_unsigned|].
  split; [apply crc32_signed|].
  split.
  - unfold be32. rewrite crc32_unsigned.
    rewrite (toUint32_small (crc32_reference buf)); [reflexivity|].
    rewrite <- crc32_unsigned. apply toUint32_range.
  - split; vm_compute; reflexivity.
Qed.

(** * inject *)

Lemma byteLength_signature_app rest : 8 <= byteLength (PNG_SIGNATURE ++ rest).
Proof.
  rewrite byteLength_app. pose proof (byteLength_nonneg rest).
  change (byteLength PNG_SIGNATURE) with 8. lia.
Qed.

Lemma injectPngMetadata_signature rest t :
  injectPngMetadata (PNG_SIGNATURE ++ rest) t
  = Ok {| blob_bytes := PNG_SIGNATURE ++ encode_chunk (parameters_chunk t) ++ rest;
          blob_type := "image/png" |}.
Proof.
  rewrite injectPngMetadata_eq.
  destruct (Z.leb_spec 8 (byteLength (PNG_SIGNATURE ++ rest))) as [_|H].
  - reflexivity.
  - pose proof (byteLength_signature_app rest). lia.
Qed.

(** C1, counterexample: in the example file the length field at offset 8 is
    13, and the output of [injectPngMetadata] is not the file with the new
    chunk inserted at [headerEnd = 8 + 4 + 4 + 13 + 4]. *)
Lemma C1_counterexample :
  getUint32 example_png 8 = Ok 13
  /\ injectPngMetadata example_png (js_lit "ab")
     <> Ok {| blob_bytes :=
                spec_inject example_png 13
                  [text_chunk (js_lit "parameters") (js_lit "ab")];
              blob_type := "image/png" |}.
Proof.
  split; [vm_compute; reflexivity|].
  intros H. vm_compute in H. discriminate H.
Qed.

(** C1, as amended: for every buffer that starts with the PNG signature and
    every metadata string, [injectPngMetadata] returns the original bytes
    [0, 8), then the one new [tEXt] chunk with the keyword [parameters],
    then the original bytes [8, end); the length field of the first chunk
    is not read.  On a file made of chunks the output is the signature, the
    new chunk, and the chunks of the file, the header chunk first among
    them. *)
Theorem C1_inject_after_signature
  (rest : list byte) (chunks : list Chunk) (metadataString : jsstring) :
  injectPngMetadata (PNG_SIGNATURE ++ rest) metadataString
  = Ok {| blob_bytes :=
            slice (PNG_SIGNATURE ++ rest) 0 8
            ++ encode_chunk (text_chunk (js_lit "parameters") metadataString)
            ++ slice_from (PNG_SIGNATURE ++ rest) 8;
          blob_type := "image/png" |}
  /\ injectPngMetadata (png_of chunks) metadataString
     = Ok {| blob_bytes :=
               png_of (text_chunk (js_lit "parameters") metadataString :: chunks);
             blob_type := "image/png" |}.
Proof.
  split.
  - apply injectPngMetadata_signature.
  - unfold png_of. cbn [flat_map]. apply injectPngMetadata_signature.
Qed.

(** C7: for every buffer that starts with the PNG signature and every
    metadata string, the run of [injectPngMetadata] leaves [originalBuffer]
    as it was, the output is longer than the input by
    12 + len(keyword) + 1 + len(text) bytes (lengths of the UTF-8 bytes;
    the keyword is [parameters]), and the bytes of the output that follow
    a header end moved by that amount are the bytes of the input that
    follow the header end. *)
Theorem C7_inject_frame
  (rest : list byte) (metadataString : jsstring) (k : nat) :
  let file := PNG_SIGNATURE ++ rest in
  let added :=
    12 + byteLength (TextEncoder_encode (js_lit "parameters")) + 1
    + byteLength (TextEncoder_encode metadataString) in
  let headerEnd := 8 + Z.of_nat k in
  exists out s',
    injectPngMetadata_body metadataString (initial_store file) = Ok (out, s')
    /\ injectPngMetadata file metadataString
       = Ok {| blob_bytes := out; blob_type := "image/png" |}
    /\ s_originalBuffer s' = file
    /\ byteLength out = byteLength file + added
    /\ slice_from out (headerEnd + added) = slice_from file headerEnd.
Proof.
  intros file added headerEnd.
  pose proof (byteLength_signature_app rest) as Hlen. fold file in Hlen.
  pose proof (injectPngMetadata_body_run file metadataString Hlen) as Hrun.
  cbv zeta in Hrun.
  set (chunk := encode_chunk (parameters_chunk metadataString)) in *.
  assert (Hchunk : byteLength chunk = added).
  { unfold chunk, parameters_chunk, text_chunk, make_chunk, encode_chunk, added.
    cbn [chunk_type chunk_data chunk_crc].
    rewrite !byteLength_app, !byteLength_be32.
    change (byteLength (ascii_bytes "tEXt")) with 4.
    change (byteLength [x00]) with 1. lia. }
  eexists. eexists. split; [exact Hrun|].
  split; [unfold injectPngMetadata; rewrite Hrun; reflexivity|].
  split; [reflexivity|].
  assert (H8 : List.length (firstn 8 file) = 8%nat).
  { rewrite length_firstn. unfold byteLength in Hlen. lia. }
  assert (Hfirst : byteLength (firstn 8 file) = 8).
  { unfold byteLength. rewrite H8. reflexivity. }
  assert (Hskip : byteLength (skipn 8 file) = byteLength file - 8).
  { unfold byteLength in *. rewrite length_skipn. lia. }
  split.
  - rewrite !byteLength_app, Hchunk, Hfirst, Hskip. lia.
  - unfold slice_from, headerEnd.
    pose proof (byteLength_nonneg chunk) as Hc. rewrite Hchunk in Hc.
    replace (Z.to_nat (8 + Z.of_nat k + added))
      with (List.length (firstn 8 file ++ chunk) + k)%nat; cycle 1.
    { rewrite length_app, H8. unfold byteLength in Hchunk. lia. }
    rewrite app_assoc, skipn_app, skipn_all2 by lia. cbn [app].
    replace (_ + k - _)%nat with k by lia.
    rewrite skipn_skipn. f_equal. lia.
Qed.

(** * The signature check *)

(** C3, the code at the failing input: the example file with the first byte
    of the signature altered.  [extractPngMetadata] refuses it with the
    error of line 54, [injectPngMetadata] does not check the signature and
    returns an output with the new chunk after the first eight bytes. *)
Theorem C3_inject_accepts_corrupt_signature (metadataString : jsstring) :
  firstn 8 corrupt_png <> PNG_SIGNATURE
  /\ @extractPngMetadata unit corrupt_png = Some (Throw InvalidPngError)
  /\ injectPngMetadata corrupt_png metadataString
     = Ok {| blob_bytes :=
               firstn 8 corrupt_png
               ++ encode_chunk (text_chunk (js_lit "parameters") metadataString)
               ++ skipn 8 corrupt_png;
             blob_type := "image/png" |}.
Proof.
  split; [vm_compute; discriminate|].
  split; [vm_compute; reflexivity|].
  rewrite injectPngMetadata_eq. reflexivity.
Qed.

(** * extract *)

Lemma find_null_parameters textData :
  find_null 0 (ascii_bytes "parameters" ++ [x00] ++ textData) = 10.
Proof. reflexivity. Qed.

(** The chunk that [injectPngMetadata] writes is read back as the keyword
    [parameters] and the decoded text. *)
Lemma chunk_entry_parameters_chunk t :
  chunk_entry (parameters_chunk t)
  = Some (js_lit "parameters", TextDecoder_decode (TextEncoder_encode t)).
Proof.
  unfold chunk_entry, parameters_chunk, text_chunk, make_chunk, chunk_is_tEXt.
  cbn [chunk_type chunk_data].
  replace (jsstring_eqb (TextDecoder_decode (ascii_bytes "tEXt")) (js_lit "tEXt"))
    with true by (vm_compute; reflexivity).
  rewrite keyData_bytes, find_null_parameters.
  change (-1 <? 10) with true. cbv iota.
  change (slice (ascii_bytes "parameters" ++ [x00] ++ TextEncoder_encode t) 0 10)
    with (ascii_bytes "parameters").
  change (slice_from (ascii_bytes "parameters" ++ [x00] ++ TextEncoder_encode t)
                     (10 + 1))
    with (TextEncoder_encode t).
  replace (TextDecoder_decode (ascii_bytes "parameters")) with (js_lit "parameters")
    by (vm_compute; reflexivity).
  reflexivity.
Qed.

Lemma wf_parameters_chunk t :
  11 + byteLength (TextEncoder_encode t) < 2 ^ 32 -> wf_chunk (parameters_chunk t).
Proof.
  intros H. unfold wf_chunk, parameters_chunk, text_chunk, make_chunk.
  cbn [chunk_type chunk_data chunk_crc].
  split; [reflexivity|]. split; [reflexivity|].
  rewrite keyData_bytes, !byteLength_app.
  change (byteLength (ascii_bytes "parameters")) with 10.
  change (byteLength [x00]) with 1. lia.
Qed.

Lemma jsstring_eqb_refl s : jsstring_eqb s s = true.
Proof. unfold jsstring_eqb. destruct (list_eq_dec Z.eq_dec s s); congruence. Qed.

Lemma jsstring_eqb_eq a b : jsstring_eqb a b = true <-> a = b.
Proof.
  unfold jsstring_eqb. destruct (list_eq_dec Z.eq_dec a b); split;
    congruence.
Qed.


(** C2, counterexample: a file whose only text entry has the keyword
    [prompt].  Section 4.2 collects that entry; [extractPngMetadata]
    returns [null]. *)
Lemma C2_counterexample :
  spec_extract prompt_chunks = Some [(js_lit "prompt", js_lit "abc")]
  /\ @extractPngMetadata unit (png_of prompt_chunks) = Some (Ok None)
  /\ @result_entries unit None <> spec_extract prompt_chunks.
Proof.
  split; [vm_compute; reflexivity|].
  split; [vm_compute; reflexivity|].
  vm_compute. discriminate.
Qed.

(** C2, as amended: for every file made of the signature and well-formed
    chunks, [extractPngMetadata] returns the text of the first [tEXt]
    chunk, in file order, whose keyword is [parameters], and [null] when
    there is none or when that text is empty; entries with another keyword
    ([prompt], [workflow]) are not collected. *)
Theorem C2_extract_first_parameters (E : Type) (chunks : list Chunk) :
  Forall wf_chunk chunks ->
  @extractPngMetadata E (png_of chunks)
  = Some (Ok (png_result (first_parameters chunks))).
Proof. apply extractPngMetadata_png_of. Qed.

(** C2, witness: the file with two [parameters] entries. *)
Lemma C2_witness :
  Forall wf_chunk duplicate_chunks
  /\ @extractPngMetadata unit (png_of duplicate_chunks)
     = Some (Ok (png_result (first_parameters duplicate_chunks))).
Proof.
  split; [wf_chunks|].
  apply (C2_extract_first_parameters unit duplicate_chunks). wf_chunks.
Defined.


(** C5, counterexample: the empty text.  After [injectPngMetadata] with the
    empty string, [extractPngMetadata] returns [null], not the entry with
    the empty text: line 88 tests the text for truth. *)
Lemma C5_counterexample :
  exists b,
    injectPngMetadata example_png [] = Ok b
    /\ @extractPngMetadata unit (blob_bytes b) = Some (Ok None)
    /\ @extractPngMetadata unit (blob_bytes b)
       <> Some (Ok (Some (PngMetadata []))).
Proof.
  eexists. split; [vm_compute; reflexivity|].
  split; [vm_compute; reflexivity|].
  vm_compute. discriminate.
Qed.

(** A text that starts with U+FEFF comes back without it, and an unpaired
    surrogate comes back as U+FFFD. *)
Example roundtrip_loses_bom :
  exists b,
    injectPngMetadata example_png (0xFEFF :: js_lit "abc") = Ok b
    /\ @extractPngMetadata unit (blob_bytes b)
       = Some (Ok (Some (PngMetadata (js_lit "abc")))).
Proof. eexists. split; [vm_compute; reflexivity|]. vm_compute. reflexivity. Qed.

Example roundtrip_replaces_lone_surrogate :
  exists b,
    injectPngMetadata example_png [0xD800] = Ok b
    /\ @extractPngMetadata unit (blob_bytes b)
       = Some (Ok (Some (PngMetadata [0xFFFD]))).
Proof. eexists. split; [vm_compute; reflexivity|]. vm_compute. reflexivity. Qed.

(** Injection into any file with the signature, then extraction. *)
Lemma inject_then_extract (E : Type) rest t :
  11 + byteLength (TextEncoder_encode t) < 2 ^ 32 ->
  exists b,
    injectPngMetadata (PNG_SIGNATURE ++ rest) t = Ok b
    /\ @extractPngMetadata E (blob_bytes b)
       = Some (Ok (png_result
                     (Some (TextDecoder_decode (TextEncoder_encode t))))).
Proof.
  intros Hlen. eexists. split; [apply injectPngMetadata_signature|].
  cbn [blob_bytes].
  replace (encode_chunk (parameters_chunk t) ++ rest)
    with (flat_map encode_chunk [parameters_chunk t] ++ rest)
    by (cbn [flat_map]; rewrite app_nil_r; reflexivity).
  rewrite extractPngMetadata_chunks
    by (constructor; [apply wf_parameters_chunk, Hlen|constructor]).
  cbn [first_parameters]. rewrite chunk_entry_parameters_chunk.
  rewrite jsstring_eqb_refl. reflexivity.
Qed.

(** C5, as amended: for every minimal file (signature, IHDR, IDAT, IEND) and
    every text that is well-formed UTF-16, not empty, does not start with
    U+FEFF, and whose chunk data fits the 32-bit length field,
    [injectPngMetadata] followed by [extractPngMetadata] returns that
    text under [type: 'png']. *)
Theorem C5_roundtrip (E : Type) (ihdr idat : list byte) (t : jsstring) :
  well_formed t = true -> t <> [] -> starts_with_bom t = false ->
  11 + byteLength (TextEncoder_encode t) < 2 ^ 32 ->
  exists b,
    injectPngMetadata (minimal_png ihdr idat) t = Ok b
    /\ @extractPngMetadata E (blob_bytes b) = Some (Ok (Some (PngMetadata t))).
Proof.
  intros Hwf Hne Hbom Hlen.
  destruct (inject_then_extract E
              (flat_map encode_chunk
                 [make_chunk "IHDR" ihdr; make_chunk "IDAT" idat;
                  make_chunk "IEND" []]) t Hlen) as (b & Hb & Hx).
  exists b. split; [exact Hb|].
  rewrite Hx, decode_encode by assumption.
  destruct t; [congruence|reflexivity].
Qed.

(** C5, witness: the text of the specification's example. *)
Lemma C5_witness :
  (well_formed (js_lit "best quality, 1girl") = true
   /\ js_lit "best quality, 1girl" <> []
   /\ starts_with_bom (js_lit "best quality, 1girl") = false
   /\ 11 + byteLength (TextEncoder_encode (js_lit "best quality, 1girl")) < 2 ^ 32)
  /\ exists b,
      injectPngMetadata (minimal_png example_ihdr example_idat)
                        (js_lit "best quality, 1girl") = Ok b
      /\ @extractPngMetadata unit (blob_bytes b)
         = Some (Ok (Some (PngMetadata (js_lit "best quality, 1girl")))).
Proof.
  assert (H : well_formed (js_lit "best quality, 1girl") = true
              /\ js_lit "best quality, 1girl" <> []
              /\ starts_with_bom (js_lit "best quality, 1girl") = false
              /\ 11 + byteLength (TextEncoder_encode (js_lit "best quality, 1girl"))
                 < 2 ^ 32).
  { split; [vm_compute; reflexivity|].
    split; [vm_compute; discriminate|].
    split; vm_compute; reflexivity. }
  split; [exact H|].
  destruct H as (H1 & H2 & H3 & H4).
  exact (C5_roundtrip unit example_ihdr example_idat
           (js_lit "best quality, 1girl") H1 H2 H3 H4).
Defined.


Lemma no_null_find_null data i : ~ In x00 data -> find_null i data = -1.
Proof.
  revert i. induction data as [|b data IH]; intros i Hn; cbn [find_null].
  - reflexivity.
  - destruct (Z.eqb_spec (b2z b) 0) as [Hb|Hb].
    + exfalso. apply Hn. left. apply b2z_inj. rewrite Hb. reflexivity.
    + apply IH. intros Hin. apply Hn. right. exact Hin.
Qed.

Lemma map_b2z_inj (a : list byte) : forall b, map b2z a = map b2z b -> a = b.
Proof.
  induction a as [|x a IH]; intros [|y b] H; try discriminate H.
  - reflexivity.
  - cbn [map] in H. injection H as Hx Ha.
    f_equal; [apply b2z_inj, Hx|apply IH, Ha].
Qed.

(** The type of a chunk is read as [tEXt] exactly when its four bytes are
    the ASCII bytes of [tEXt]. *)
Lemma chunk_is_tEXt_iff c :
  List.length (chunk_type c) = 4%nat ->
  chunk_is_tEXt c = true <-> chunk_type c = ascii_bytes "tEXt".
Proof.
  intros Hlen. unfold chunk_is_tEXt. rewrite jsstring_eqb_eq. split.
  - intros Hdec. apply TextDecoder_decode_ascii in Hdec.
    + apply map_b2z_inj. exact Hdec.
    + unfold ascii_only. change (js_lit "tEXt") with [116; 69; 88; 116].
      repeat (apply Forall_cons; [lia|]). apply Forall_nil.
    + rewrite Hlen. reflexivity.
  - intros ->. vm_compute. reflexivity.
Qed.

Lemma chunk_entry_not_tEXt c :
  List.length (chunk_type c) = 4%nat -> chunk_type c <> ascii_bytes "tEXt" ->
  chunk_entry c = None.
Proof.
  intros Hlen Hne. unfold chunk_entry.
  destruct (chunk_is_tEXt c) eqn:Ht; [|reflexivity].
  apply chunk_is_tEXt_iff in Ht; [contradiction|exact Hlen].
Qed.

Lemma no_null_tEXt_entry c : no_null_tEXt c -> chunk_entry c = None.
Proof.
  intros [Ht Hn]. unfold chunk_entry, chunk_is_tEXt.
  rewrite Ht, (no_null_find_null _ 0 Hn). reflexivity.
Qed.

(** The loop of lines 67-73 finds the first zero byte. *)
Lemma find_null_split data : forall k,
  (find_null k data = -1 /\ ~ In x00 data)
  \/ exists pre post,
       data = pre ++ x00 :: post /\ ~ In x00 pre
       /\ find_null k data = k + byteLength pre.
Proof.
  induction data as [|b data IH]; intros k; cbn [find_null].
  - left. split; [reflexivity|intros []].
  - destruct (Z.eqb_spec (b2z b) 0) as [Hb|Hb].
    + right. exists [], data. split.
      * cbn [app]. f_equal. apply b2z_inj. rewrite Hb. reflexivity.
      * split; [intros []|]. unfold byteLength. cbn [List.length]. lia.
    + destruct (IH (k + 1)) as [[Hf Hn]|(pre & post & -> & Hn & Hf)].
      * left. split; [exact Hf|]. intros [Heq|Hin]; [|exact (Hn Hin)].
        apply Hb. rewrite Heq. reflexivity.
      * right. exists (b :: pre), post. split; [reflexivity|]. split.
        -- intros [Heq|Hin]; [|exact (Hn Hin)].
           apply Hb. rewrite Heq. reflexivity.
        -- rewrite Hf. unfold byteLength. cbn [List.length]. lia.
Qed.

Lemma slice_prefix pre post : slice (pre ++ post) 0 (byteLength pre) = pre.
Proof.
  unfold slice, byteLength. rewrite Nat2Z.id. cbn [Z.to_nat skipn].
  rewrite Nat.sub_0_r, firstn_app, Nat.sub_diag, firstn_all.
  cbn [firstn]. apply app_nil_r.
Qed.

(** The data of a chunk splits at its first zero byte in one way only. *)
Lemma carries_keyword_unique c pre post keyword :
  chunk_data c = pre ++ x00 :: post -> ~ In x00 pre ->
  carries_keyword c keyword -> keyword = pre.
Proof.
  intros Hd Hn (_ & Hk & text & Hd'). rewrite Hd in Hd'. clear Hd.
  revert keyword Hk Hd'.
  induction pre as [|b pre IH]; intros [|b' keyword] Hk Hd'; cbn [app] in Hd'.
  - reflexivity.
  - exfalso. apply Hk. left. congruence.
  - exfalso. apply Hn. left. congruence.
  - injection Hd' as <- Hd'. f_equal. apply IH.
    + intros Hin. apply Hn. right. exact Hin.
    + intros Hin. apply Hk. right. exact Hin.
    + exact Hd'.
Qed.

(** The keyword that [extractPngMetadata] reads in a chunk is the decoding
    of the keyword that the chunk carries. *)
Lemma chunk_entry_keyword c keyword text :
  List.length (chunk_type c) = 4%nat ->
  chunk_entry c = Some (keyword, text) ->
  exists bytes, carries_keyword c bytes /\ keyword = TextDecoder_decode bytes.
Proof.
  intros Hlen. unfold chunk_entry.
  destruct (chunk_is_tEXt c) eqn:Ht; [|discriminate].
  apply (chunk_is_tEXt_iff c Hlen) in Ht.
  destruct (find_null_split (chunk_data c) 0)
    as [[Hf _]|(pre & post & Hd & Hn & Hf)]; rewrite Hf.
  - discriminate.
  - replace (-1 <? 0 + byteLength pre) with true
      by (symmetry; apply Z.ltb_lt; pose proof (byteLength_nonneg pre); lia).
    rewrite Z.add_0_l, Hd, slice_prefix.
    intros H. exists pre. split; [|congruence].
    split; [exact Ht|]. split; [exact Hn|]. exists post. exact Hd.
Qed.

(** The decoder reads [parameters] in these very bytes, alone or behind
    EF BB BF, and in no others. *)
Lemma decode_parameters bytes :
  TextDecoder_decode bytes = js_lit "parameters" -> In bytes read_as_parameters.
Proof.
  intros H. apply TextDecoder_decode_ascii_cases in H.
  - destruct H as [H|(rest & -> & H)].
    + left. symmetry. apply map_b2z_inj. exact H.
    + right. left. f_equal. symmetry. apply map_b2z_inj. exact H.
  - unfold ascii_only.
    change (js_lit "parameters")
      with [112; 97; 114; 97; 109; 101; 116; 101; 114; 115].
    repeat (apply Forall_cons; [lia|]). apply Forall_nil.
Qed.

Lemma carries_no_parameters_entry c :
  List.length (chunk_type c) = 4%nat -> carries_no_parameters c ->
  match chunk_entry c with
  | Some (keyword, _) => jsstring_eqb keyword (js_lit "parameters") = false
  | None => True
  end.
Proof.
  intros Hlen Hno.
  destruct (chunk_entry c) as [[keyword text]|] eqn:He; [|exact I].
  destruct (chunk_entry_keyword c keyword text Hlen He) as (bytes & Hk & ->).
  destruct (jsstring_eqb (TextDecoder_decode bytes) (js_lit "parameters"))
    eqn:Heq; [|reflexivity].
  exfalso. apply (Hno bytes Hk). apply decode_parameters.
  apply jsstring_eqb_eq. exact Heq.
Qed.

Lemma first_parameters_skip pre post :
  Forall wf_chunk pre ->
  Forall (fun c => no_null_tEXt c \/ carries_no_parameters c) pre ->
  first_parameters (pre ++ post) = first_parameters post.
Proof.
  intros Hwf Hskip. induction Hskip as [|c pre Hc _ IH]; [reflexivity|].
  inversion Hwf as [|c' pre' [Hlen _] Hwf']; subst.
  cbn [app first_parameters]. destruct Hc as [Hc|Hc].
  - rewrite (no_null_tEXt_entry c Hc). exact (IH Hwf').
  - pose proof (carries_no_parameters_entry c Hlen Hc) as He.
    destruct (chunk_entry c) as [[keyword text]|]; [|exact (IH Hwf')].
    rewrite He. exact (IH Hwf').
Qed.

(** A chunk of another type carries no keyword. *)
Lemma other_type_no_parameters c :
  chunk_type c <> ascii_bytes "tEXt" -> carries_no_parameters c.
Proof. intros Hne keyword [Ht _]. contradiction. Qed.

Lemma other_type_no_recognized c :
  chunk_type c <> ascii_bytes "tEXt" -> carries_no_recognized c.
Proof. intros Hne keyword [Ht _]. contradiction. Qed.

Lemma bom_chunks_no_recognized : Forall carries_no_recognized bom_chunks.
Proof.
  unfold bom_chunks.
  constructor; [apply other_type_no_recognized; discriminate|].
  constructor.
  { intros keyword Hk.
    apply (carries_keyword_unique _
             (utf8_bom ++ ascii_bytes "parameters") (ascii_bytes "abc"))
      in Hk.
    - subst keyword. intros [H|[H|[H|[]]]]; discriminate H.
    - reflexivity.
    - intros H. cbn in H.
      repeat (destruct H as [H|H]; [discriminate H|]). exact H. }
  constructor; [apply other_type_no_recognized; discriminate|].
  constructor; [apply other_type_no_recognized; discriminate|].
  constructor.
Qed.

(** C9, counterexample: a file whose only [tEXt] chunk has the keyword bytes
    EF BB BF followed by [parameters].  No chunk of it carries a keyword of
    the recognized set, and [extractPngMetadata] returns the text of that
    chunk, not [null]: [TextDecoder] drops the three bytes before the
    keyword is compared. *)
Lemma C9_counterexample :
  Forall wf_chunk bom_chunks
  /\ Forall carries_no_recognized bom_chunks
  /\ @extractPngMetadata unit (png_of bom_chunks)
     = Some (Ok (Some (PngMetadata (js_lit "abc"))))
  /\ @extractPngMetadata unit (png_of bom_chunks) <> Some (Ok None).
Proof.
  assert (H : @extractPngMetadata unit (png_of bom_chunks)
              = Some (Ok (Some (PngMetadata (js_lit "abc")))))
    by (vm_compute; reflexivity).
  split; [unfold bom_chunks; wf_chunks|].
  split; [exact bom_chunks_no_recognized|].
  split; [exact H|]. rewrite H. discriminate.
Qed.

(** C9, as amended: when every chunk of a well-formed file is a [tEXt] chunk
    without a zero byte, or is no [tEXt] chunk whose keyword bytes are
    those of [parameters], alone or behind EF BB BF,
    [extractPngMetadata] returns [null] and throws nothing; and such
    chunks in front of any well-formed chunks are only stepped over: the
    result is the first [parameters] text of the chunks behind them. *)
Theorem C9_no_metadata_is_null (E : Type) (skipped rest : list Chunk) :
  Forall wf_chunk skipped -> Forall wf_chunk rest ->
  Forall (fun c => no_null_tEXt c \/ carries_no_parameters c) skipped ->
  @extractPngMetadata E (png_of skipped) = Some (Ok None)
  /\ @extractPngMetadata E (png_of (skipped ++ rest))
     = Some (Ok (png_result (first_parameters rest))).
Proof.
  intros Hs Hr Hskip. split.
  - rewrite extractPngMetadata_png_of by exact Hs.
    rewrite <- (app_nil_r skipped), (first_parameters_skip skipped [])
      by assumption.
    reflexivity.
  - rewrite extractPngMetadata_png_of by (apply Forall_app; auto).
    rewrite first_parameters_skip by assumption. reflexivity.
Qed.

Lemma skipped_chunks_no_parameters :
  Forall (fun c => no_null_tEXt c \/ carries_no_parameters c) skipped_chunks.
Proof.
  unfold skipped_chunks.
  constructor; [right; apply other_type_no_parameters; discriminate|].
  constructor; [left; no_null|].
  constructor.
  { right. intros keyword Hk.
    apply (carries_keyword_unique _ (ascii_bytes "Comment") (ascii_bytes "hello"))
      in Hk.
    - subst keyword. intros [H|[H|[]]]; discriminate H.
    - reflexivity.
    - intros H. cbn in H.
      repeat (destruct H as [H|H]; [discriminate H|]). exact H. }
  constructor; [right; apply other_type_no_parameters; discriminate|].
  constructor.
Qed.

(** C9, witness: a [tEXt] chunk without a zero byte and a [Comment] entry in
    front of a [parameters] entry, whose text is the result. *)
Lemma C9_witness :
  (Forall wf_chunk skipped_chunks
   /\ Forall wf_chunk
        [text_chunk (js_lit "parameters") (js_lit "abc"); make_chunk "IEND" []]
   /\ Forall (fun c => no_null_tEXt c \/ carries_no_parameters c) skipped_chunks)
  /\ @extractPngMetadata unit (png_of skipped_chunks) = Some (Ok None)
  /\ @extractPngMetadata unit
       (png_of (skipped_chunks
                ++ [text_chunk (js_lit "parameters") (js_lit "abc");
                    make_chunk "IEND" []]))
     = Some (Ok (Some (PngMetadata (js_lit "abc")))).
Proof.
  assert (H1 : Forall wf_chunk skipped_chunks) by wf_chunks.
  assert (H2 : Forall wf_chunk
                 [text_chunk (js_lit "parameters") (js_lit "abc");
                  make_chunk "IEND" []]) by wf_chunks.
  pose proof skipped_chunks_no_parameters as H3.
  split; [auto|].
  destruct (C9_no_metadata_is_null unit skipped_chunks _ H1 H2 H3) as [Ha Hb].
  split; [exact Ha|]. rewrite Hb. vm_compute. reflexivity.
Defined.


Lemma first_parameters_app_none pre post :
  first_parameters pre = None ->
  first_parameters (pre ++ post) = first_parameters post.
Proof.
  induction pre as [|c pre IH]; [reflexivity|].
  cbn [app first_parameters].
  destruct (chunk_entry c) as [[keyword text]|]; [|exact IH].
  destruct (jsstring_eqb keyword (js_lit "parameters")); [discriminate|exact IH].
Qed.

(** C10, counterexample: two [parameters] chunks, the first one with an empty
    text.  The result is [null], not the text of the first chunk. *)
Lemma C10_counterexample :
  first_parameters duplicate_chunks = Some []
  /\ @extractPngMetadata unit (png_of duplicate_chunks) = Some (Ok None)
  /\ @extractPngMetadata unit (png_of duplicate_chunks)
     <> Some (Ok (Some (PngMetadata []))).
Proof.
  split; [vm_compute; reflexivity|].
  split; [vm_compute; reflexivity|].
  vm_compute. discriminate.
Qed.

(** C10, as amended: when a well-formed chunk with the keyword [parameters]
    follows well-formed chunks none of which has that keyword, the result
    of [extractPngMetadata] is that chunk's text when it is not empty and
    [null] when it is empty, whatever bytes follow the chunk. *)
Theorem C10_first_parameters_wins
  (E : Type) (before : list Chunk) (c : Chunk) (text : jsstring)
  (later : list byte) :
  Forall wf_chunk before -> first_parameters before = None ->
  wf_chunk c -> chunk_entry c = Some (js_lit "parameters", text) ->
  @extractPngMetadata E
    (PNG_SIGNATURE ++ flat_map encode_chunk before ++ encode_chunk c ++ later)
  = Some (Ok (png_result (Some text))).
Proof.
  intros Hb Hnone Hc He.
  replace (flat_map encode_chunk before ++ encode_chunk c ++ later)
    with (flat_map encode_chunk (before ++ [c]) ++ later); cycle 1.
  { rewrite flat_map_app. cbn [flat_map].
    rewrite app_nil_r, <- app_assoc. reflexivity. }
  rewrite extractPngMetadata_chunks
    by (apply Forall_app; split; [exact Hb|constructor; [exact Hc|constructor]]).
  rewrite first_parameters_app_none by exact Hnone.
  cbn [first_parameters]. rewrite He, jsstring_eqb_refl. reflexivity.
Qed.

(** C10, witness: a second [parameters] chunk after the first. *)
Lemma C10_witness :
  (Forall wf_chunk [make_chunk "IHDR" example_ihdr]
   /\ first_parameters [make_chunk "IHDR" example_ihdr] = None
   /\ wf_chunk (text_chunk (js_lit "parameters") (js_lit "first"))
   /\ chunk_entry (text_chunk (js_lit "parameters") (js_lit "first"))
      = Some (js_lit "parameters", js_lit "first"))
  /\ @extractPngMetadata unit
       (PNG_SIGNATURE ++ flat_map encode_chunk [make_chunk "IHDR" example_ihdr]
        ++ encode_chunk (text_chunk (js_lit "parameters") (js_lit "first"))
        ++ flat_map encode_chunk
             [text_chunk (js_lit "parameters") (js_lit "second");
              make_chunk "IDAT" example_idat; make_chunk "IEND" []])
     = Some (Ok (png_result (Some (js_lit "first")))).
Proof.
  assert (H1 : Forall wf_chunk [make_chunk "IHDR" example_ihdr]) by wf_chunks.
  assert (H2 : first_parameters [make_chunk "IHDR" example_ihdr] = None)
    by (vm_compute; reflexivity).
  assert (H3 : wf_chunk (text_chunk (js_lit "parameters") (js_lit "first")))
    by (repeat split; vm_compute; reflexivity).
  assert (H4 : chunk_entry (text_chunk (js_lit "parameters") (js_lit "first"))
               = Some (js_lit "parameters", js_lit "first"))
    by (vm_compute; reflexivity).
  split; [auto|].
  exact (C10_first_parameters_wins unit _ _ _ _ H1 H2 H3 H4).
Defined.

(** * The handlers *)

Lemma handleExtract_webp (E : Type) window_piexif piexif_load
  (st : AppState E) (file : File) :
  file_type file = "image/webp"%string ->
  handleExtract window_piexif piexif_load st file
  = Some {| cachedMetadata := cachedMetadata st;
            sourceFileName := sourceFileName st;
            processedImage := None;
            status := {| status_type := error;
                         status_msg := MsgWebpExperimental |} |}.
Proof. intros H. unfold handleExtract. rewrite H. reflexivity. Qed.

(** With metadata in the cache, [handleInject] on a file declared
    [image/webp] only sets the status to [loading]. *)
Lemma handleInject_webp (E : Type) piexif_dump_insert
  (st : AppState E) (cached : Metadata E) (file : File) :
  cachedMetadata st = Some cached ->
  file_type file = "image/webp"%string ->
  handleInject piexif_dump_insert st file = setStatus st loading MsgInjecting.
Proof.
  intros Hc Ht. unfold handleInject. rewrite Hc, Ht. reflexivity.
Qed.

(** C8, the code at the failing input: metadata of a PNG file is cached and
    a file declared [image/webp] is dropped on the second step.
    [handleInject] leaves the status at [loading] with the message of line
    224 and sets no error; nothing else of the state changes. *)
Theorem C8_inject_does_not_reject_webp
  (E : Type) (piexif_dump_insert : jsstring + E -> list byte -> result Blob)
  (bytes : list byte) :
  handleInject piexif_dump_insert (cached_png_state E) (webp_file bytes)
  = {| cachedMetadata := cachedMetadata (cached_png_state E);
       sourceFileName := sourceFileName (cached_png_state E);
       processedImage := processedImage (cached_png_state E);
       status := {| status_type := loading; status_msg := MsgInjecting |} |}.
Proof. reflexivity. Qed.

Lemma meta_type_cases {E} (m : Metadata E) :
  meta_type m = "png"%string \/ meta_type m = "jpg"%string.
Proof. destruct m; [left|right]; reflexivity. Qed.

(** C6: when the target is declared [image/png] and the cached metadata is
    not of type [png], or the target is declared [image/jpeg] and the
    cached metadata is not of type [jpg], [handleInject] ends with an error
    status whose message is one of the two format-mismatch messages,
    leaves [processedImage] and the cache as they were, and its result
    depends neither on the bytes of the target nor on the piexif
    library. *)
Theorem C6_format_mismatch
  (E : Type)
  (piexif_dump_insert piexif_dump_insert' : jsstring + E -> list byte -> result Blob)
  (st : AppState E) (cached : Metadata E) (file : File) (bytes' : list byte) :
  cachedMetadata st = Some cached ->
  (file_type file = "image/png"%string /\ meta_type cached <> "png"%string)
  \/ (file_type file = "image/jpeg"%string /\ meta_type cached <> "jpg"%string) ->
  let st' := handleInject piexif_dump_insert st file in
  status_type (status st') = error
  /\ (status_msg (status st') = MsgMismatchPng
      \/ status_msg (status st') = MsgMismatchJpg)
  /\ processedImage st' = processedImage st
  /\ cachedMetadata st' = cachedMetadata st
  /\ handleInject piexif_dump_insert' st
       {| file_name := file_name file; file_type := file_type file;
          file_bytes := bytes' |} = st'.
Proof.
  intros Hc Hm st'. subst st'. unfold handleInject. rewrite Hc.
  cbn [file_type].
  destruct Hm as [[Ht Hm]|[Ht Hm]]; rewrite Ht.
  - destruct cached; [exfalso; apply Hm; reflexivity|].
    cbn. repeat split; auto.
  - destruct cached; [|exfalso; apply Hm; reflexivity].
    cbn. repeat split; auto.
Qed.

(** C6, witness: cached PNG metadata, target declared [image/jpeg]. *)
Lemma C6_witness :
  (cachedMetadata (cached_png_state unit)
   = Some (PngMetadata (js_lit "best quality, 1girl"))
   /\ ((file_type (jpeg_file example_png) = "image/png"%string
        /\ @meta_type unit (PngMetadata (js_lit "best quality, 1girl")) <> "png"%string)
       \/ (file_type (jpeg_file example_png) = "image/jpeg"%string
           /\ @meta_type unit (PngMetadata (js_lit "best quality, 1girl"))
              <> "jpg"%string)))
  /\ status_type
       (status (handleInject (fun _ _ => Throw RangeError)
                  (cached_png_state unit) (jpeg_file example_png))) = error.
Proof.
  assert (H1 : cachedMetadata (cached_png_state unit)
               = Some (PngMetadata (js_lit "best quality, 1girl")))
    by reflexivity.
  assert (H2 : (file_type (jpeg_file example_png) = "image/png"%string
        /\ @meta_type unit (PngMetadata (js_lit "best quality, 1girl")) <> "png"%string)
       \/ (file_type (jpeg_file example_png) = "image/jpeg"%string
           /\ @meta_type unit (PngMetadata (js_lit "best quality, 1girl"))
              <> "jpg"%string)).
  { right. split; [reflexivity|]. cbn. discriminate. }
  split; [auto|].
  exact (proj1 (C6_format_mismatch unit (fun _ _ => Throw RangeError)
                  (fun _ _ => Throw RangeError) (cached_png_state unit) _
                  (jpeg_file example_png) [] H1 H2)).
Defined.

(** ** The signature check of [extractPngMetadata] *)

Lemma word_bytes a b c d a' b' c' d' :
  0 <= a < 256 -> 0 <= b < 256 -> 0 <= c < 256 -> 0 <= d < 256 ->
  0 <= a' < 256 -> 0 <= b' < 256 -> 0 <= c' < 256 -> 0 <= d' < 256 ->
  a * 2 ^ 24 + b * 2 ^ 16 + c * 2 ^ 8 + d
  = a' * 2 ^ 24 + b' * 2 ^ 16 + c' * 2 ^ 8 + d' ->
  a = a' /\ b = b' /\ c = c' /\ d = d'.
Proof.
  change (2 ^ 24) with 16777216. change (2 ^ 16) with 65536.
  change (2 ^ 8) with 256. lia.
Qed.

Lemma getUint32_cons4 a b c d rest :
  getUint32 (a :: b :: c :: d :: rest) 0
  = Ok (b2z a * 2 ^ 24 + b2z b * 2 ^ 16 + b2z c * 2 ^ 8 + b2z d).
Proof.
  unfold getUint32.
  rewrite in_bounds; [reflexivity|lia|].
  unfold byteLength. cbn [List.length]. lia.
Qed.

Lemma getUint32_skip4 a b c d rest :
  getUint32 (a :: b :: c :: d :: rest) 4 = getUint32 rest 0.
Proof.
  unfold getUint32, byteLength. cbn [List.length].
  destruct (Z.leb_spec (0 + 4) (Z.of_nat (List.length rest))) as [H|H].
  - rewrite !in_bounds by lia. reflexivity.
  - replace ((0 <=? 4) && (4 + 4 <=? _)) with false; [reflexivity|].
    symmetry. apply andb_false_iff. right. apply Z.leb_gt. lia.
Qed.

(** A file of at least eight bytes that does not start with the signature
    is refused by [extractPngMetadata] with the error of line 54. *)
Lemma extractPngMetadata_bad_signature (E : Type) (file : list byte) :
  8 <= byteLength file -> firstn 8 file <> PNG_SIGNATURE ->
  @extractPngMetadata E file = Some (Throw InvalidPngError).
Proof.
  intros Hlen Hsig.
  do 8 (destruct file as [|? file];
        [unfold byteLength in Hlen; cbn [List.length] in Hlen; lia|]).
  cbn [firstn] in Hsig. unfold extractPngMetadata.
  rewrite getUint32_cons4.
  match goal with
  | |- context [negb (?x =? ?y)] => destruct (Z.eqb_spec x y) as [H0|H0]
  end; [|reflexivity].
  cbn [negb]. rewrite getUint32_skip4, getUint32_cons4.
  match goal with
  | |- context [negb (?x =? ?y)] => destruct (Z.eqb_spec x y) as [H1|H1]
  end; [|reflexivity].
  exfalso. apply Hsig.
  apply (word_bytes _ _ _ _ 0x89 0x50 0x4e 0x47) in H0;
    try apply b2z_range; try lia.
  apply (word_bytes _ _ _ _ 0x0d 0x0a 0x1a 0x0a) in H1;
    try apply b2z_range; try lia.
  destruct H0 as (? & ? & ? & ?). destruct H1 as (? & ? & ? & ?).
  unfold PNG_SIGNATURE.
  repeat f_equal; apply b2z_inj; assumption.
Qed.

(* ================================================================== *)
(** * The decoder gives well-formed strings *)

Lemma scalar_FFFD : scalar 0xFFFD.
Proof. unfold scalar. lia. Qed.

Lemma decoder_ok_init : decoder_ok utf8_init.
Proof. left. reflexivity. Qed.

Lemma utf8_lead_ok b :
  0 <= b < 256 ->
  Forall scalar (fst (utf8_lead b)) /\ decoder_ok (snd (utf8_lead b)).
Proof.
  intros Hb. unfold utf8_lead.
  destruct (Z.leb_spec b 127).
  { cbn [fst snd]. split; [|apply decoder_ok_init].
    constructor; [unfold scalar; lia|constructor]. }
  destruct (Z.leb_spec 194 b); destruct (Z.leb_spec b 223); cbn [andb].
  1:{ cbn [fst snd]. split; [constructor|]. right. utf8_fields.
      unfold range_scalar. repeat split; try lia; intros; dlia. }
  all: destruct (Z.leb_spec 224 b); destruct (Z.leb_spec b 239); cbn [andb].
  all: try (cbn [fst snd]; split; [constructor|]; right; utf8_fields;
            unfold range_scalar;
            destruct (Z.eqb_spec b 224); destruct (Z.eqb_spec b 237);
            repeat split; try lia; intros; dlia).
  all: destruct (Z.leb_spec 240 b); destruct (Z.leb_spec b 244); cbn [andb].
  all: try (cbn [fst snd]; split; [constructor|]; right; utf8_fields;
            unfold range_scalar;
            destruct (Z.eqb_spec b 240); destruct (Z.eqb_spec b 244);
            repeat split; try lia; intros; dlia).
  all: cbn [fst snd]; split; [|apply decoder_ok_init];
       constructor; [apply scalar_FFFD|constructor].
Qed.

Lemma utf8_handler_ok st b :
  decoder_ok st -> 0 <= b < 256 ->
  Forall scalar (fst (utf8_handler st b)) /\ decoder_ok (snd (utf8_handler st b)).
Proof.
  intros Hst Hb. unfold utf8_handler.
  destruct (Z.eqb_spec (u_needed st) 0) as [Hz|Hnz]; [apply utf8_lead_ok, Hb|].
  destruct Hst as [Hz|(Hs & Hn & Hl & Hu & H1 & H2 & H3)]; [contradiction|].
  cbv zeta in H1, H2, H3.
  destruct (Z.leb_spec (u_lower st) b); destruct (Z.leb_spec b (u_upper st));
    cbn [andb negb].
  2-4: pose proof (utf8_lead_ok b Hb) as [Ho Hs'];
       destruct (utf8_lead b) as [out st']; cbn [fst snd] in *;
       split; [constructor; [apply scalar_FFFD|exact Ho]|exact Hs'].
  destruct (Z.eqb_spec (u_seen st + 1) (u_needed st)) as [Hlast|Hmore];
    cbn [fst snd].
  - split; [|apply decoder_ok_init].
    constructor; [|constructor].
    assert (Hr : u_needed st - u_seen st = 1) by lia.
    specialize (H1 Hr). unfold range_scalar in H1. unfold scalar. dlia.
  - split; [constructor|]. right. utf8_fields.
    unfold range_scalar in *.
    assert (Hr : u_needed st - u_seen st = 2 \/ u_needed st - u_seen st = 3) by lia.
    repeat split; try lia.
    all: first [ specialize (H2 ltac:(lia)); dlia
               | specialize (H3 ltac:(lia)); dlia ].
Qed.

Lemma utf8_run_scalar bs : forall st,
  decoder_ok st -> Forall scalar (utf8_run st bs).
Proof.
  induction bs as [|b bs IH]; intros st Hst; cbn [utf8_run].
  - destruct (u_needed st =? 0); [constructor|].
    constructor; [apply scalar_FFFD|constructor].
  - pose proof (utf8_handler_ok st (b2z b) Hst (b2z_range b)) as [Ho Hs].
    destruct (utf8_handler st (b2z b)) as [out st']. cbn [fst snd] in *.
    apply Forall_app. split; [exact Ho|apply IH, Hs].
Qed.

Lemma well_formed_utf16 cps :
  Forall scalar cps -> well_formed (flat_map utf16_of_cp cps) = true.
Proof.
  induction 1 as [|cp cps Hcp _ IH]; [reflexivity|].
  cbn [flat_map]. unfold utf16_of_cp at 1. unfold scalar in Hcp.
  destruct (Z.ltb_spec cp 65536) as [Hlt|Hge]; cbn [app well_formed].
  - replace (is_lead cp) with false by (symmetry; apply is_lead_false; lia).
    replace (is_trail cp) with false by (symmetry; apply is_trail_false; lia).
    rewrite IH.
    replace (0 <=? cp) with true by (symmetry; apply Z.leb_le; lia).
    replace (cp <? 65536) with true by (symmetry; apply Z.ltb_lt; lia).
    reflexivity.
  - replace (is_lead (55296 + (cp - 65536) / 1024)) with true
      by (symmetry; apply is_lead_true; dlia).
    replace (is_trail (56320 + (cp - 65536) mod 1024)) with true
      by (symmetry; apply is_trail_true; dlia).
    exact IH.
Qed.

Lemma strip_bom_scalar cps : Forall scalar cps -> Forall scalar (strip_bom cps).
Proof.
  intros H. destruct H as [|c cps Hc Hcps]; [constructor|].
  cbn [strip_bom]. destruct (c =? 65279); [exact Hcps|constructor; assumption].
Qed.

(** Whatever the bytes, the decoder returns a well-formed string. *)
Lemma TextDecoder_decode_well_formed bs :
  well_formed (TextDecoder_decode bs) = true.
Proof.
  unfold TextDecoder_decode.
  apply well_formed_utf16, strip_bom_scalar, utf8_run_scalar, decoder_ok_init.
Qed.

(** A decoded text that does not start with U+FEFF is encoded and decoded
    again to itself. *)
Lemma decode_encode_decode bs :
  starts_with_bom (TextDecoder_decode bs) = false ->
  TextDecoder_decode (TextEncoder_encode (TextDecoder_decode bs))
  = TextDecoder_decode bs.
Proof.
  intros H. apply decode_encode; [apply TextDecoder_decode_well_formed|exact H].
Qed.

(* ================================================================== *)
(** * The guard of [extractPngMetadata] *)

Lemma getUint32_short buf offset :
  byteLength buf < offset + 4 -> getUint32 buf offset = Throw RangeError.
Proof.
  intros H. unfold getUint32.
  replace (offset + 4 <=? byteLength buf) with false
    by (symmetry; apply Z.leb_gt; lia).
  rewrite andb_false_r. reflexivity.
Qed.

Lemma firstn4_signature a b c d :
  b2z a * 2 ^ 24 + b2z b * 2 ^ 16 + b2z c * 2 ^ 8 + b2z d = 0x89504e47
  <-> [a; b; c; d] = firstn 4 PNG_SIGNATURE.
Proof.
  split.
  - intros H.
    apply (word_bytes _ _ _ _ 0x89 0x50 0x4e 0x47) in H;
      try apply b2z_range; try lia.
    destruct H as (? & ? & ? & ?).
    change (firstn 4 PNG_SIGNATURE) with [x89; x50; x4e; x47].
    repeat f_equal; apply b2z_inj; assumption.
  - change (firstn 4 PNG_SIGNATURE) with [x89; x50; x4e; x47].
    intros [= -> -> -> ->]. reflexivity.
Qed.

(** A file of fewer than eight bytes: the invalid-PNG error when four bytes
    are there and differ from the start of the signature, a [RangeError]
    otherwise. *)
Lemma extractPngMetadata_short (E : Type) (file : list byte) :
  byteLength file < 8 ->
  @extractPngMetadata E file =
  Some (Throw (if (4 <=? byteLength file)
                  && negb (if list_eq_dec byte_eq_dec (firstn 4 file)
                                          (firstn 4 PNG_SIGNATURE)
                           then true else false)
               then InvalidPngError else RangeError)).
Proof.
  intros Hlen. unfold extractPngMetadata.
  destruct (Z.leb_spec 4 (byteLength file)) as [H4|H4]; cbn [andb].
  - destruct file as [|a [|b [|c [|d rest]]]];
      try (unfold byteLength in H4; cbn [List.length] in H4; lia).
    rewrite getUint32_cons4.
    change (firstn 4 (a :: b :: c :: d :: rest)) with [a; b; c; d].
    match goal with
    | |- context [negb (?x =? ?y)] => destruct (Z.eqb_spec x y) as [Hw|Hw]
    end; cbn [negb].
    + rewrite getUint32_skip4, getUint32_short; cycle 1.
      { unfold byteLength in *. cbn [List.length] in Hlen. lia. }
      apply firstn4_signature in Hw.
      destruct (list_eq_dec byte_eq_dec [a; b; c; d] (firstn 4 PNG_SIGNATURE));
        [reflexivity|contradiction].
    + destruct (list_eq_dec byte_eq_dec [a; b; c; d] (firstn 4 PNG_SIGNATURE))
        as [Heq|Hne]; [|reflexivity].
      apply firstn4_signature in Heq. contradiction.
  - rewrite getUint32_short by lia. reflexivity.
Qed.

(** * What the loop does at the end of the chunks *)

Lemma Uint8Array_view_short buf byteOffset len :
  byteLength buf < byteOffset + len ->
  Uint8Array_view buf byteOffset len = Throw RangeError.
Proof.
  intros H. unfold Uint8Array_view.
  replace (byteOffset + len <=? byteLength buf) with false
    by (symmetry; apply Z.leb_gt; lia).
  rewrite andb_false_r. reflexivity.
Qed.

Lemma getUint32_ok buf offset :
  0 <= offset -> offset + 4 <= byteLength buf ->
  exists v, getUint32 buf offset = Ok v.
Proof.
  intros H0 H4. unfold getUint32. rewrite in_bounds by lia. eauto.
Qed.

(** Fewer than eight bytes are left at [offset]: the body of the loop
    throws. *)
Lemma scan_chunk_short buffer offset :
  0 <= offset -> byteLength buffer < offset + 8 ->
  scan_chunk buffer offset = Throw RangeError.
Proof.
  intros H0 H8. unfold scan_chunk.
  destruct (Z.le_gt_cases (offset + 4) (byteLength buffer)) as [H4|H4].
  - destruct (getUint32_ok buffer offset H0 H4) as [v ->]. cbn [bind].
    rewrite Uint8Array_view_short by lia. reflexivity.
  - rewrite getUint32_short by lia. reflexivity.
Qed.

(** X1: [extractPngMetadata] returns a value only for a file that starts with
    the signature. *)
Theorem extract_returns_only_for_signature
  (E : Type) (file : list byte) (r : option (Metadata E)) :
  @extractPngMetadata E file = Some (Ok r) ->
  exists rest, file = PNG_SIGNATURE ++ rest.
Proof.
  intros Hx.
  destruct (Z.lt_ge_cases (byteLength file) 8) as [Hshort|Hlong].
  - rewrite extractPngMetadata_short in Hx by exact Hshort. discriminate Hx.
  - destruct (list_eq_dec byte_eq_dec (firstn 8 file) PNG_SIGNATURE) as [Hs|Hs].
    + exists (skipn 8 file). rewrite <- Hs. symmetry. apply firstn_skipn.
    + rewrite extractPngMetadata_bad_signature in Hx by (lia || exact Hs).
      discriminate Hx.
Qed.

(** X1, witness: the example file, which extracts to [null]. *)
Lemma extract_returns_only_for_signature_witness :
  @extractPngMetadata unit example_png = Some (Ok None)
  /\ exists rest, example_png = PNG_SIGNATURE ++ rest.
Proof.
  assert (H : @extractPngMetadata unit example_png = Some (Ok None))
    by (vm_compute; reflexivity).
  split; [exact H|].
  exact (extract_returns_only_for_signature unit example_png None H).
Defined.

(** X2: a file of fewer than eight bytes never yields a result: when four bytes
    are there and are not the first four of the signature, the error is the
    invalid-PNG error of line 54; in every other case the second read of
    the signature, or the first, is out of bounds and throws a
    [RangeError]. *)
Theorem extract_short_file (E : Type) (file : list byte) :
  byteLength file < 8 ->
  (4 <= byteLength file /\ firstn 4 file <> firstn 4 PNG_SIGNATURE ->
   @extractPngMetadata E file = Some (Throw InvalidPngError))
  /\ (byteLength file < 4 \/ firstn 4 file = firstn 4 PNG_SIGNATURE ->
      @extractPngMetadata E file = Some (Throw RangeError)).
Proof.
  intros Hlen. rewrite extractPngMetadata_short by exact Hlen.
  destruct (list_eq_dec byte_eq_dec (firstn 4 file) (firstn 4 PNG_SIGNATURE))
    as [Heq|Hne]; cbn [negb]; rewrite ?andb_false_r, ?andb_true_r.
  - split; [intros [_ H]; contradiction|reflexivity].
  - destruct (Z.leb_spec 4 (byteLength file)) as [H4|H4].
    + split; [reflexivity|intros [H|H]; [lia|contradiction]].
    + split; [intros [H _]; lia|reflexivity].
Qed.

(** X2, witness: six bytes of a GIF header, and the first six bytes of the
    signature. *)
Lemma extract_short_file_witness :
  byteLength (ascii_bytes "GIF89a") < 8
  /\ @extractPngMetadata unit (ascii_bytes "GIF89a") = Some (Throw InvalidPngError)
  /\ byteLength [x89; x50; x4e; x47; x0d; x0a] < 8
  /\ @extractPngMetadata unit [x89; x50; x4e; x47; x0d; x0a]
     = Some (Throw RangeError).
Proof.
  assert (H1 : byteLength (ascii_bytes "GIF89a") < 8) by (vm_compute; reflexivity).
  assert (H2 : byteLength [x89; x50; x4e; x47; x0d; x0a] < 8)
    by (vm_compute; reflexivity).
  split; [exact H1|]. split.
  - apply (proj1 (extract_short_file unit (ascii_bytes "GIF89a") H1)).
    split; [vm_compute; discriminate|discriminate].
  - split; [exact H2|].
    apply (proj2 (extract_short_file unit [x89; x50; x4e; x47; x0d; x0a] H2)).
    right. reflexivity.
Defined.

Lemma scan_throws_at_short_end fuel buffer offset :
  0 <= offset -> offset < byteLength buffer < offset + 8 -> (0 < fuel)%nat ->
  scan fuel buffer offset = Some (Throw RangeError).
Proof.
  intros H0 H8 Hf. destruct fuel as [|fuel]; [lia|]. cbn [scan].
  replace (offset <? byteLength buffer) with true
    by (symmetry; apply Z.ltb_lt; lia).
  rewrite scan_chunk_short by lia. reflexivity.
Qed.

(** X3: one to seven bytes behind the last chunk of a file without a
    [parameters] entry make [extractPngMetadata] throw. *)
Theorem extract_trailing_bytes
  (E : Type) (chunks : list Chunk) (trailing : list byte) :
  Forall wf_chunk chunks -> first_parameters chunks = None ->
  0 < byteLength trailing < 8 ->
  @extractPngMetadata E (png_of chunks ++ trailing) = Some (Throw RangeError).
Proof.
  intros Hwf Hnone Ht. unfold png_of. rewrite <- app_assoc.
  rewrite extractPngMetadata_chunks by exact Hwf. rewrite Hnone.
  pose proof (flat_map_encode_length chunks Hwf) as Hl.
  pose proof (byteLength_nonneg (flat_map encode_chunk chunks)) as Hn.
  rewrite scan_throws_at_short_end; [reflexivity| | |].
  - lia.
  - rewrite !byteLength_app. change (byteLength PNG_SIGNATURE) with 8. lia.
  - rewrite !length_app. unfold byteLength in Ht. lia.
Qed.

(** X3, witness: one line feed behind the IEND chunk of the example file. *)
Lemma extract_trailing_bytes_witness :
  let chunks := [make_chunk "IHDR" example_ihdr;
                 make_chunk "IDAT" example_idat; make_chunk "IEND" []] in
  (Forall wf_chunk chunks /\ first_parameters chunks = None
   /\ 0 < byteLength [x0a] < 8)
  /\ @extractPngMetadata unit (png_of chunks ++ [x0a]) = Some (Throw RangeError).
Proof.
  cbv zeta.
  assert (H1 : Forall wf_chunk
                 [make_chunk "IHDR" example_ihdr;
                  make_chunk "IDAT" example_idat; make_chunk "IEND" []])
    by wf_chunks.
  assert (H2 : first_parameters
                 [make_chunk "IHDR" example_ihdr;
                  make_chunk "IDAT" example_idat; make_chunk "IEND" []] = None)
    by (vm_compute; reflexivity).
  assert (H3 : 0 < byteLength [x0a] < 8) by (vm_compute; split; reflexivity).
  split; [auto|].
  exact (extract_trailing_bytes unit _ [x0a] H1 H2 H3).
Defined.

Lemma decode_tEXt : TextDecoder_decode (ascii_bytes "tEXt") = js_lit "tEXt".
Proof. vm_compute. reflexivity. Qed.

(** X4: a last [tEXt] chunk whose data stops before the length that its length
    field declares makes [extractPngMetadata] throw. *)
Theorem extract_truncated_tEXt
  (E : Type) (chunks : list Chunk) (declared : Z) (data : list byte) :
  Forall wf_chunk chunks -> first_parameters chunks = None ->
  byteLength data < declared < 2 ^ 32 ->
  @extractPngMetadata E
    (png_of chunks ++ be32 declared ++ ascii_bytes "tEXt" ++ data)
  = Some (Throw RangeError).
Proof.
  intros Hwf Hnone Hd. unfold png_of. rewrite <- app_assoc.
  rewrite extractPngMetadata_chunks by exact Hwf. rewrite Hnone.
  pose proof (flat_map_encode_length chunks Hwf) as Hl.
  pose proof (byteLength_nonneg data) as Hdata.
  set (tail := be32 declared ++ ascii_bytes "tEXt" ++ data).
  set (body := flat_map encode_chunk chunks) in *.
  assert (Htail : byteLength tail = 8 + byteLength data).
  { unfold tail. rewrite !byteLength_app, byteLength_be32.
    change (byteLength (ascii_bytes "tEXt")) with 4. lia. }
  assert (Hfuel : exists fuel,
    (List.length (PNG_SIGNATURE ++ body ++ tail) - List.length chunks
     = S fuel)%nat).
  { exists (List.length (PNG_SIGNATURE ++ body ++ tail) - List.length chunks - 1)%nat.
    rewrite !length_app. unfold byteLength in Htail. lia. }
  destruct Hfuel as [fuel ->]. cbn [scan].
  replace (8 + byteLength body <? _) with true; cycle 1.
  { symmetry. apply Z.ltb_lt. rewrite !byteLength_app, Htail.
    change (byteLength PNG_SIGNATURE) with 8. lia. }
  replace (scan_chunk (PNG_SIGNATURE ++ body ++ tail) (8 + byteLength body))
    with (@Throw iteration RangeError); [reflexivity|].
  symmetry. unfold scan_chunk, tail.
  change 8 with (byteLength PNG_SIGNATURE) at 1 2 3.
  rewrite <- byteLength_app.
  rewrite (app_assoc PNG_SIGNATURE body).
  rewrite getUint32_be32. cbn [bind].
  rewrite toUint32_small by lia.
  rewrite (app_assoc (PNG_SIGNATURE ++ body) (be32 declared)).
  rewrite (Uint8Array_view_mid _ (ascii_bytes "tEXt")); cycle 1.
  { rewrite (byteLength_app _ (be32 declared)), byteLength_be32. reflexivity. }
  { reflexivity. }
  cbn [bind]. rewrite decode_tEXt, jsstring_eqb_refl.
  rewrite Uint8Array_view_short; [reflexivity|].
  rewrite !byteLength_app, byteLength_be32.
  change (byteLength (ascii_bytes "tEXt")) with 4. lia.
Qed.

(** X4, witness: a [tEXt] chunk that declares 4096 bytes and holds ten. *)
Lemma extract_truncated_tEXt_witness :
  (Forall wf_chunk [make_chunk "IHDR" example_ihdr]
   /\ first_parameters [make_chunk "IHDR" example_ihdr] = None
   /\ byteLength (ascii_bytes "parameters") < 4096 < 2 ^ 32)
  /\ @extractPngMetadata unit
       (png_of [make_chunk "IHDR" example_ihdr] ++ be32 4096
        ++ ascii_bytes "tEXt" ++ ascii_bytes "parameters")
     = Some (Throw RangeError).
Proof.
  assert (H1 : Forall wf_chunk [make_chunk "IHDR" example_ihdr]) by wf_chunks.
  assert (H2 : first_parameters [make_chunk "IHDR" example_ihdr] = None)
    by (vm_compute; reflexivity).
  assert (H3 : byteLength (ascii_bytes "parameters") < 4096 < 2 ^ 32)
    by (vm_compute; split; reflexivity).
  split; [auto|].
  exact (extract_truncated_tEXt unit _ 4096 (ascii_bytes "parameters") H1 H2 H3).
Defined.

Lemma decode_type_not_tEXt ty :
  List.length ty = 4%nat -> ty <> ascii_bytes "tEXt" ->
  jsstring_eqb (TextDecoder_decode ty) (js_lit "tEXt") = false.
Proof.
  intros Hlen Hne.
  pose proof (chunk_is_tEXt_iff
                {| chunk_type := ty; chunk_data := []; chunk_crc := [] |} Hlen)
    as Hiff.
  unfold chunk_is_tEXt in Hiff. cbn [chunk_type] in Hiff.
  destruct (jsstring_eqb (TextDecoder_decode ty) (js_lit "tEXt"));
    [|reflexivity].
  exfalso. apply Hne, Hiff. reflexivity.
Qed.

(** X5: a last chunk of another type may stop anywhere in its data or in its
    CRC field: the loop only steps over it. *)
Theorem extract_tolerates_cut_last_chunk
  (E : Type) (chunks : list Chunk) (declared : Z) (ty rest : list byte) :
  Forall wf_chunk chunks -> first_parameters chunks = None ->
  List.length ty = 4%nat -> ty <> ascii_bytes "tEXt" ->
  0 <= declared < 2 ^ 32 -> byteLength rest <= declared + 4 ->
  @extractPngMetadata E (png_of chunks ++ be32 declared ++ ty ++ rest)
  = Some (Ok None).
Proof.
  intros Hwf Hnone Hlen Hty Hd Hrest. unfold png_of. rewrite <- app_assoc.
  rewrite extractPngMetadata_chunks by exact Hwf. rewrite Hnone.
  pose proof (flat_map_encode_length chunks Hwf) as Hl.
  pose proof (byteLength_nonneg rest) as Hr0.
  set (tail := be32 declared ++ ty ++ rest).
  set (body := flat_map encode_chunk chunks) in *.
  assert (Hbty : byteLength ty = 4) by (unfold byteLength; rewrite Hlen; reflexivity).
  assert (Htail : byteLength tail = 8 + byteLength rest).
  { unfold tail. rewrite !byteLength_app, byteLength_be32, Hbty. lia. }
  assert (Hfuel : exists fuel,
    (List.length (PNG_SIGNATURE ++ body ++ tail) - List.length chunks
     = S fuel)%nat).
  { exists (List.length (PNG_SIGNATURE ++ body ++ tail) - List.length chunks - 1)%nat.
    rewrite !length_app. unfold byteLength in Htail. lia. }
  destruct Hfuel as [fuel ->]. cbn [scan].
  replace (8 + byteLength body <? _) with true; cycle 1.
  { symmetry. apply Z.ltb_lt. rewrite !byteLength_app, Htail.
    change (byteLength PNG_SIGNATURE) with 8. lia. }
  replace (scan_chunk (PNG_SIGNATURE ++ body ++ tail) (8 + byteLength body))
    with (Ok (Next (8 + byteLength body + (12 + declared)))).
  - destruct fuel; cbn [scan];
      (replace (8 + byteLength body + (12 + declared) <? _) with false;
       [reflexivity|]);
      symmetry; apply Z.ltb_ge; rewrite !byteLength_app, Htail;
      change (byteLength PNG_SIGNATURE) with 8; lia.
  - symmetry. unfold scan_chunk, tail.
    change 8 with (byteLength PNG_SIGNATURE) at 1 2 3.
    rewrite <- byteLength_app.
    rewrite (app_assoc PNG_SIGNATURE body).
    rewrite getUint32_be32. cbn [bind].
    rewrite toUint32_small by lia.
    rewrite (app_assoc (PNG_SIGNATURE ++ body) (be32 declared)).
    rewrite (Uint8Array_view_mid _ ty); cycle 1.
    { rewrite (byteLength_app _ (be32 declared)), byteLength_be32. reflexivity. }
    { symmetry. exact Hbty. }
    cbn [bind]. rewrite decode_type_not_tEXt by assumption.
    reflexivity.
Qed.

(** X5, witness: an IDAT chunk that declares 4096 bytes and holds ten. *)
Lemma extract_tolerates_cut_last_chunk_witness :
  (Forall wf_chunk [make_chunk "IHDR" example_ihdr]
   /\ first_parameters [make_chunk "IHDR" example_ihdr] = None
   /\ List.length (ascii_bytes "IDAT") = 4%nat
   /\ ascii_bytes "IDAT" <> ascii_bytes "tEXt"
   /\ 0 <= 4096 < 2 ^ 32
   /\ byteLength example_idat <= 4096 + 4)
  /\ @extractPngMetadata unit
       (png_of [make_chunk "IHDR" example_ihdr] ++ be32 4096
        ++ ascii_bytes "IDAT" ++ example_idat)
     = Some (Ok None).
Proof.
  assert (H1 : Forall wf_chunk [make_chunk "IHDR" example_ihdr]) by wf_chunks.
  assert (H2 : first_parameters [make_chunk "IHDR" example_ihdr] = None)
    by (vm_compute; reflexivity).
  assert (H4 : ascii_bytes "IDAT" <> ascii_bytes "tEXt") by discriminate.
  assert (H5 : 0 <= 4096 < 2 ^ 32) by lia.
  assert (H6 : byteLength example_idat <= 4096 + 4)
    by (vm_compute; discriminate).
  split.
  - repeat split; try assumption; try lia.
  - exact (extract_tolerates_cut_last_chunk unit _ 4096 (ascii_bytes "IDAT")
             example_idat H1 H2 eq_refl H4 H5 H6).
Defined.

(** * The CRC fields are not read *)

Lemma chunk_entry_same c c' :
  same_type_and_data c c' -> chunk_entry c = chunk_entry c'.
Proof.
  intros [Ht Hd]. unfold chunk_entry, chunk_is_tEXt. rewrite Ht, Hd. reflexivity.
Qed.

Lemma first_parameters_same cs cs' :
  Forall2 same_type_and_data cs cs' ->
  first_parameters cs = first_parameters cs'.
Proof.
  induction 1 as [|c c' cs cs' Hc _ IH]; [reflexivity|].
  cbn [first_parameters]. rewrite (chunk_entry_same c c' Hc), IH. reflexivity.
Qed.

(** X6: two files whose chunks have the same types and data extract to the same
    result, whatever their CRC fields hold. *)
Theorem extract_ignores_crc (E : Type) (chunks chunks' : list Chunk) :
  Forall wf_chunk chunks -> Forall wf_chunk chunks' ->
  Forall2 same_type_and_data chunks chunks' ->
  @extractPngMetadata E (png_of chunks) = @extractPngMetadata E (png_of chunks').
Proof.
  intros Hwf Hwf' Hsame.
  rewrite !extractPngMetadata_png_of by assumption.
  rewrite (first_parameters_same chunks chunks' Hsame). reflexivity.
Qed.

(** X6, witness: the tagged example file and the same file with every CRC
    field set to zero. *)
Lemma extract_ignores_crc_witness :
  let chunks := tagged_chunks (js_lit "masterpiece") in
  let chunks' :=
    map (fun c => {| chunk_type := chunk_type c; chunk_data := chunk_data c;
                     chunk_crc := [x00; x00; x00; x00] |}) chunks in
  (Forall wf_chunk chunks /\ Forall wf_chunk chunks'
   /\ Forall2 same_type_and_data chunks chunks')
  /\ @extractPngMetadata unit (png_of chunks)
     = @extractPngMetadata unit (png_of chunks').
Proof.
  cbv zeta.
  assert (H1 : Forall wf_chunk (tagged_chunks (js_lit "masterpiece")))
    by (unfold tagged_chunks; wf_chunks).
  assert (H2 : Forall wf_chunk
                 (map (fun c => {| chunk_type := chunk_type c;
                                   chunk_data := chunk_data c;
                                   chunk_crc := [x00; x00; x00; x00] |})
                      (tagged_chunks (js_lit "masterpiece"))))
    by (unfold tagged_chunks; cbn [map]; wf_chunks).
  assert (H3 : Forall2 same_type_and_data
                 (tagged_chunks (js_lit "masterpiece"))
                 (map (fun c => {| chunk_type := chunk_type c;
                                   chunk_data := chunk_data c;
                                   chunk_crc := [x00; x00; x00; x00] |})
                      (tagged_chunks (js_lit "masterpiece"))))
    by (unfold tagged_chunks; cbn [map]; repeat constructor).
  split; [auto|].
  exact (extract_ignores_crc unit _ _ H1 H2 H3).
Defined.

(** * The number of turns of the loop *)

Lemma scan_fuel_enough fuel : forall buffer offset,
  byteLength buffer - offset <= 12 * Z.of_nat fuel ->
  exists r, scan fuel buffer offset = Some r.
Proof.
  induction fuel as [|fuel IH]; intros buffer offset Hfuel; cbn [scan].
  - destruct (Z.ltb_spec offset (byteLength buffer)); [lia|eauto].
  - destruct (Z.ltb_spec offset (byteLength buffer)); [|eauto].
    destruct (scan_chunk buffer offset) as [[parameters|offset']|e] eqn:Hstep;
      [eauto| |eauto].
    apply scan_chunk_next in Hstep. apply IH. lia.
Qed.

Lemma scan_more_fuel fuel : forall buffer offset r k,
  scan fuel buffer offset = Some r -> scan (fuel + k) buffer offset = Some r.
Proof.
  induction fuel as [|fuel IH]; intros buffer offset r k; cbn [scan].
  - destruct (Z.ltb_spec offset (byteLength buffer)); [discriminate|].
    intros Hr. destruct (0 + k)%nat; cbn [scan];
      (replace (offset <? byteLength buffer) with false
         by (symmetry; apply Z.ltb_ge; lia)); exact Hr.
  - cbn [Nat.add scan].
    destruct (offset <? byteLength buffer); [|trivial].
    destruct (scan_chunk buffer offset) as [[parameters|offset']|e];
      [trivial|apply IH|trivial].
Qed.

(** X7: the loop of [extractPngMetadata] ends within one turn for every twelve
    bytes behind the signature, and the fuel of the model is never used
    up. *)
Theorem scan_turns_bound (buffer : list byte) (turns : nat) :
  byteLength buffer - 8 <= 12 * Z.of_nat turns ->
  exists r,
    scan turns buffer 8 = Some r
    /\ forall more, scan (turns + more) buffer 8 = Some r.
Proof.
  intros H. destruct (scan_fuel_enough turns buffer 8 H) as [r Hr].
  exists r. split; [exact Hr|]. intros more. apply scan_more_fuel, Hr.
Qed.

(** X7, witness: the example file, 59 bytes behind the signature, five turns.
    *)
Lemma scan_turns_bound_witness :
  byteLength example_png - 8 <= 12 * Z.of_nat 5
  /\ exists r,
      scan 5 example_png 8 = Some r
      /\ forall more, scan (5 + more) example_png 8 = Some r.
Proof.
  assert (H : byteLength example_png - 8 <= 12 * Z.of_nat 5)
    by (vm_compute; discriminate).
  split; [exact H|].
  exact (scan_turns_bound example_png 5 H).
Defined.

(** * What a result holds *)

Lemma scan_chunk_break buffer offset parameters :
  scan_chunk buffer offset = Ok (Break parameters) ->
  exists bs, parameters = TextDecoder_decode bs.
Proof.
  unfold scan_chunk.
  destruct (getUint32 buffer offset) as [len|e]; [|discriminate].
  cbn [bind].
  destruct (Uint8Array_view buffer (offset + 4) 4) as [typeBytes|e];
    [|discriminate].
  cbn [bind].
  destruct (jsstring_eqb (TextDecoder_decode typeBytes) (js_lit "tEXt"));
    [|discriminate].
  destruct (Uint8Array_view buffer (offset + 8) len) as [chunkData|e];
    [|discriminate].
  cbn [bind]. cbv zeta.
  destruct (-1 <? find_null 0 chunkData); [|discriminate].
  destruct (jsstring_eqb _ (js_lit "parameters")); [|discriminate].
  intros H. eexists. injection H as <-. reflexivity.
Qed.

Lemma scan_result_decoded fuel : forall buffer offset parameters,
  scan fuel buffer offset = Some (Ok (Some parameters)) ->
  exists bs, parameters = TextDecoder_decode bs.
Proof.
  induction fuel as [|fuel IH]; intros buffer offset parameters; cbn [scan];
    destruct (offset <? byteLength buffer); try discriminate.
  destruct (scan_chunk buffer offset) as [[p|offset']|e] eqn:Hstep;
    [|apply IH|discriminate].
  intros H. injection H as <-. eapply scan_chunk_break, Hstep.
Qed.

(** X8: whatever the file, a result of [extractPngMetadata] that is not [null]
    has the type [png], and its data is a string that is not empty and is
    well-formed UTF-16: the string can be encoded again without loss of a
    surrogate. *)
Theorem extract_result_well_formed
  (E : Type) (file : list byte) (m : Metadata E) :
  @extractPngMetadata E file = Some (Ok (Some m)) ->
  exists data,
    m = PngMetadata data /\ data <> [] /\ well_formed data = true.
Proof.
  unfold extractPngMetadata.
  destruct (getUint32 file 0) as [w0|e]; [|discriminate].
  destruct (negb (w0 =? 0x89504e47)); [discriminate|].
  destruct (getUint32 file 4) as [w1|e]; [|discriminate].
  destruct (negb (w1 =? 0x0d0a1a0a)); [discriminate|].
  destruct (scan (List.length file) file 8) as [[[p|]|e]|] eqn:Hscan;
    try discriminate.
  destruct (scan_result_decoded _ _ _ _ Hscan) as [bs ->].
  destruct (TextDecoder_decode bs) as [|c s] eqn:Hdec; [discriminate|].
  cbn [png_result]. intros H. exists (c :: s).
  split; [congruence|]. split; [discriminate|].
  rewrite <- Hdec. apply TextDecoder_decode_well_formed.
Qed.

(** X8, witness: the tagged example file. *)
Lemma extract_result_well_formed_witness :
  @extractPngMetadata unit (png_of (tagged_chunks (js_lit "masterpiece")))
  = Some (Ok (Some (PngMetadata (js_lit "masterpiece"))))
  /\ exists data,
      @PngMetadata unit (js_lit "masterpiece") = PngMetadata data
      /\ data <> [] /\ well_formed data = true.
Proof.
  assert (H : @extractPngMetadata unit
                (png_of (tagged_chunks (js_lit "masterpiece")))
              = Some (Ok (Some (PngMetadata (js_lit "masterpiece")))))
    by (vm_compute; reflexivity).
  split; [exact H|].
  exact (extract_result_well_formed unit _ _ H).
Defined.

(* ================================================================== *)
(** * The checksum tells a changed byte *)

Lemma lxor_cancel_l p x y : Z.lxor p x = Z.lxor p y -> x = y.
Proof.
  intros H.
  rewrite <- (Z.lxor_0_l x), <- (Z.lxor_0_l y), <- (Z.lxor_nilpotent p),
    !Z.lxor_assoc, H.
  reflexivity.
Qed.

Lemma testbit_31_low x : 0 <= x < 2 ^ 31 -> Z.testbit x 31 = false.
Proof.
  intros Hx. destruct (Z.eq_dec x 0) as [-> |Hne]; [apply Z.bits_0|].
  apply Z.bits_above_log2; [lia|]. apply Z.log2_lt_pow2; lia.
Qed.

Lemma half_parity a b :
  Z.shiftr a 1 = Z.shiftr b 1 -> Z.testbit a 0 = Z.testbit b 0 -> a = b.
Proof.
  rewrite !Z.shiftr_div_pow2, !Z.bit0_odd by lia. change (2 ^ 1) with 2.
  intros Hh Hp.
  rewrite (Z.div_mod a 2), (Z.div_mod b 2), Hh, !Zmod_odd, Hp by lia.
  reflexivity.
Qed.

Lemma ref_shift_inj a b :
  0 <= a < 2 ^ 32 -> 0 <= b < 2 ^ 32 -> ref_shift a = ref_shift b -> a = b.
Proof.
  intros Ha Hb. unfold ref_shift.
  assert (Hsa : 0 <= Z.shiftr a 1 < 2 ^ 31)
    by (rewrite Z.shiftr_div_pow2 by lia; change (2 ^ 1) with 2; dlia).
  assert (Hsb : 0 <= Z.shiftr b 1 < 2 ^ 31)
    by (rewrite Z.shiftr_div_pow2 by lia; change (2 ^ 1) with 2; dlia).
  assert (Hmixed : forall x y, 0 <= x < 2 ^ 31 -> 0 <= y < 2 ^ 31 ->
                               Z.lxor 0xedb88320 x <> y).
  { intros x y Hx Hy Heq.
    assert (Hbit : Z.testbit (Z.lxor 0xedb88320 x) 31 = Z.testbit y 31)
      by (rewrite Heq; reflexivity).
    rewrite Z.lxor_spec, (testbit_31_low x Hx), (testbit_31_low y Hy) in Hbit.
    vm_compute in Hbit. discriminate. }
  destruct (Z.testbit a 0) eqn:Ea, (Z.testbit b 0) eqn:Eb; intros Heq.
  - apply half_parity; [eapply lxor_cancel_l; exact Heq|congruence].
  - exfalso. exact (Hmixed _ _ Hsa Hsb Heq).
  - exfalso. symmetry in Heq. exact (Hmixed _ _ Hsb Hsa Heq).
  - apply half_parity; [exact Heq|congruence].
Qed.

Lemma iter_ref_shift_inj n : forall a b,
  0 <= a < 2 ^ 32 -> 0 <= b < 2 ^ 32 ->
  iter_n n ref_shift a = iter_n n ref_shift b -> a = b.
Proof.
  induction n as [|n IH]; intros a b Ha Hb; cbn [iter_n]; [trivial|].
  intros Heq. apply ref_shift_inj; [assumption..|].
  apply IH; [apply ref_shift_range; assumption..|exact Heq].
Qed.

Lemma lxor_byte_range c b : 0 <= c < 2 ^ 32 -> 0 <= Z.lxor c (b2z b) < 2 ^ 32.
Proof.
  intros Hc. pose proof (b2z_range b). apply lxor_bound; lia.
Qed.

Lemma ref_update_range c b : 0 <= c < 2 ^ 32 -> 0 <= ref_update c b < 2 ^ 32.
Proof.
  intros Hc. apply iter_ref_shift_range, lxor_byte_range, Hc.
Qed.

Lemma fold_ref_update_range buf : forall c,
  0 <= c < 2 ^ 32 -> 0 <= fold_left ref_update buf c < 2 ^ 32.
Proof.
  induction buf as [|b buf IH]; intros c Hc; cbn [fold_left]; [exact Hc|].
  apply IH, ref_update_range, Hc.
Qed.

Lemma ref_update_inj_state c c' b :
  0 <= c < 2 ^ 32 -> 0 <= c' < 2 ^ 32 ->
  ref_update c b = ref_update c' b -> c = c'.
Proof.
  intros Hc Hc' Heq.
  apply iter_ref_shift_inj in Heq; [|apply lxor_byte_range; assumption..].
  rewrite (Z.lxor_comm c), (Z.lxor_comm c') in Heq.
  eapply lxor_cancel_l, Heq.
Qed.

Lemma ref_update_inj_byte c x y :
  0 <= c < 2 ^ 32 -> ref_update c x = ref_update c y -> x = y.
Proof.
  intros Hc Heq.
  apply iter_ref_shift_inj in Heq; [|apply lxor_byte_range; assumption..].
  apply b2z_inj. eapply lxor_cancel_l, Heq.
Qed.

Lemma fold_ref_update_inj buf : forall c c',
  0 <= c < 2 ^ 32 -> 0 <= c' < 2 ^ 32 ->
  fold_left ref_update buf c = fold_left ref_update buf c' -> c = c'.
Proof.
  induction buf as [|b buf IH]; intros c c' Hc Hc'; cbn [fold_left]; [trivial|].
  intros Heq. apply (ref_update_inj_state c c' b); [assumption..|].
  apply IH; [apply ref_update_range; assumption..|exact Heq].
Qed.

Lemma crc32_eq_reference a b :
  crc32 a = crc32 b -> crc32_reference a = crc32_reference b.
Proof.
  intros H. rewrite <- !crc32_unsigned, H. reflexivity.
Qed.

(** X9: a changed byte changes the checksum: two buffers that agree before and
    behind one position and differ there have different values of
    [crc32]. *)
Theorem crc32_detects_changed_byte (before after : list byte) (x y : byte) :
  x <> y -> crc32 (before ++ x :: after) <> crc32 (before ++ y :: after).
Proof.
  intros Hxy H. apply Hxy.
  apply crc32_eq_reference in H. unfold crc32_reference in H.
  rewrite !(Z.lxor_comm _ 0xffffffff) in H. apply lxor_cancel_l in H.
  rewrite !fold_left_app in H. cbn [fold_left] in H.
  assert (Hc : 0 <= fold_left ref_update before 0xffffffff < 2 ^ 32)
    by (apply fold_ref_update_range; lia).
  apply fold_ref_update_inj in H; [|apply ref_update_range; exact Hc..].
  eapply ref_update_inj_byte; eassumption.
Qed.

(** X9, witness: the bytes of IENDIDAT and of IENDJDAT. *)
Lemma crc32_detects_changed_byte_witness :
  x49 <> x4a
  /\ crc32 (ascii_bytes "IEND" ++ x49 :: ascii_bytes "DAT")
     <> crc32 (ascii_bytes "IEND" ++ x4a :: ascii_bytes "DAT").
Proof.
  split; [discriminate|].
  apply (crc32_detects_changed_byte (ascii_bytes "IEND") (ascii_bytes "DAT")
           x49 x4a).
  discriminate.
Defined.

(** * [writeString] on any buffer *)

Lemma overwrite_nil buf n : overwrite buf n [] = buf.
Proof.
  unfold overwrite. cbn [List.length app]. rewrite Nat.add_0_r.
  apply firstn_skipn.
Qed.

Lemma length_overwrite buf n src :
  (n + List.length src <= List.length buf)%nat ->
  List.length (overwrite buf n src) = List.length buf.
Proof.
  intros H. unfold overwrite.
  rewrite !length_app, length_firstn, length_skipn. lia.
Qed.

Lemma overwrite_cons buf n a l :
  (n < List.length buf)%nat ->
  overwrite (overwrite buf n [a]) (S n) l = overwrite buf n (a :: l).
Proof.
  intros H. unfold overwrite. cbn [List.length].
  assert (Hf : List.length (firstn n buf) = n)
    by (rewrite length_firstn; lia).
  replace (firstn (S n) (firstn n buf ++ [a] ++ skipn (n + 1) buf))
    with (firstn n buf ++ [a]).
  - replace (skipn (S n + List.length l)
               (firstn n buf ++ [a] ++ skipn (n + 1) buf))
      with (skipn (n + S (List.length l)) buf).
    + rewrite <- app_assoc. reflexivity.
    + rewrite skipn_app, Hf.
      rewrite (skipn_all2 (firstn n buf)) by lia.
      replace (S n + List.length l - n)%nat with (S (List.length l)) by lia.
      cbn [app skipn]. rewrite skipn_skipn. f_equal. lia.
  - rewrite app_assoc.
    rewrite firstn_app, length_app, Hf. cbn [List.length].
    replace (S n - (n + 1))%nat with 0%nat by lia.
    rewrite (@firstn_all2 _ (S n) (firstn n buf ++ [a]))
      by (rewrite length_app, Hf; cbn [List.length]; lia).
    cbn [firstn]. rewrite app_nil_r. reflexivity.
Qed.

Lemma byteLength_overwrite buf n src :
  (n + List.length src <= List.length buf)%nat ->
  byteLength (overwrite buf n src) = byteLength buf.
Proof.
  intros H. unfold byteLength. rewrite length_overwrite by exact H.
  reflexivity.
Qed.

Lemma writeString_from_overwrite view offset chars : forall i s,
  0 <= offset + i ->
  offset + i + Z.of_nat (List.length chars) <= byteLength (get s view) ->
  writeString_from view offset i chars s
  = Ok (tt, put s view (overwrite (get s view) (Z.to_nat (offset + i))
                                  (map z2b chars))).
Proof.
  induction chars as [|c chars IH]; intros i s H0 Hfit.
  - cbn [writeString_from map]. rewrite overwrite_nil, put_get. reflexivity.
  - cbn [List.length] in Hfit. cbn [writeString_from map].
    unfold pbind, write at 1, setUint8.
    replace ((0 <=? offset + i) && (offset + i + 1 <=? byteLength (get s view)))
      with true by (symmetry; apply andb_true_intro2;
                    [apply Z.leb_le|apply Z.leb_le]; lia).
    unfold byteLength in Hfit.
    rewrite IH; rewrite ?get_put, ?byteLength_overwrite;
      cbn [List.length]; unfold byteLength; try lia.
    rewrite put_put.
    replace (Z.to_nat (offset + (i + 1))) with (S (Z.to_nat (offset + i)))
      by lia.
    rewrite overwrite_cons by lia. reflexivity.
Qed.

(** X10: [writeString] stores the low byte of every code unit of the string, from
    [offset] on, and changes nothing else: neither the other bytes of the
    buffer nor the other buffers. *)
Theorem writeString_overwrites
  (view : bufname) (offset : Z) (string : jsstring) (s : store) :
  0 <= offset ->
  offset + Z.of_nat (List.length string) <= byteLength (get s view) ->
  writeString view offset string s
  = Ok (tt, put s view (overwrite (get s view) (Z.to_nat offset)
                                  (map z2b string))).
Proof.
  intros H0 Hfit. unfold writeString.
  rewrite writeString_from_overwrite by lia.
  rewrite Z.add_0_r. reflexivity.
Qed.

(** X10, witness: three code units, one of them above 255, written at offset 2
    of eight bytes. *)
Lemma writeString_overwrites_witness :
  let s := {| s_originalBuffer := [];
              s_chunkBuffer := [x01; x02; x03; x04; x05; x06; x07; x08];
              s_finalBuffer := [x09] |} in
  (0 <= 2
   /\ 2 + Z.of_nat (List.length [0x74; 0x20AC; 0x58]) <= byteLength (get s chunkBuffer))
  /\ writeString chunkBuffer 2 [0x74; 0x20AC; 0x58] s
     = Ok (tt, {| s_originalBuffer := [];
                  s_chunkBuffer := [x01; x02; x74; xac; x58; x06; x07; x08];
                  s_finalBuffer := [x09] |}).
Proof.
  cbv zeta. split; [vm_compute; split; discriminate|].
  refine (writeString_overwrites chunkBuffer 2 [0x74; 0x20AC; 0x58] _ _ _);
    vm_compute; discriminate.
Defined.

Lemma writeString_from_throws view offset chars : forall i s,
  chars <> [] ->
  offset + i < 0
  \/ byteLength (get s view) < offset + i + Z.of_nat (List.length chars) ->
  writeString_from view offset i chars s = Throw RangeError.
Proof.
  induction chars as [|c chars IH]; intros i s Hne Hout; [congruence|].
  cbn [writeString_from]. unfold pbind, write at 1, setUint8.
  destruct ((0 <=? offset + i) && (offset + i + 1 <=? byteLength (get s view)))
    eqn:Hin; [|reflexivity].
  apply andb_true_iff in Hin. destruct Hin as [H0 H1].
  apply Z.leb_le in H0, H1. cbn [List.length] in Hout.
  assert (Hlen : (Z.to_nat (offset + i) + List.length [z2b c]
                  <= List.length (get s view))%nat)
    by (cbn [List.length]; unfold byteLength in H1; lia).
  apply IH.
  - destruct chars; [cbn [List.length] in Hout; lia|discriminate].
  - right. rewrite get_put, byteLength_overwrite by exact Hlen. lia.
Qed.

(** X11: a string that is not empty and does not fit between [offset] and the
    end of the buffer makes [writeString] throw a [RangeError]. *)
Theorem writeString_out_of_bounds
  (view : bufname) (offset : Z) (string : jsstring) (s : store) :
  string <> [] ->
  offset < 0
  \/ byteLength (get s view) < offset + Z.of_nat (List.length string) ->
  writeString view offset string s = Throw RangeError.
Proof.
  intros Hne Hout. unfold writeString.
  apply writeString_from_throws; [exact Hne|].
  rewrite Z.add_0_r. exact Hout.
Qed.

(** X11, witness: four characters written at offset 6 of eight bytes. *)
Lemma writeString_out_of_bounds_witness :
  let s := {| s_originalBuffer := [];
              s_chunkBuffer := [x01; x02; x03; x04; x05; x06; x07; x08];
              s_finalBuffer := [x09] |} in
  (js_lit "tEXt" <> []
   /\ (6 < 0
       \/ byteLength (get s chunkBuffer)
          < 6 + Z.of_nat (List.length (js_lit "tEXt"))))
  /\ writeString chunkBuffer 6 (js_lit "tEXt") s = Throw RangeError.
Proof.
  cbv zeta.
  assert (H1 : js_lit "tEXt" <> []) by discriminate.
  split; [split; [exact H1|right; vm_compute; reflexivity]|].
  apply (writeString_out_of_bounds chunkBuffer 6 (js_lit "tEXt")); [exact H1|].
  right. vm_compute. reflexivity.
Defined.

(** * Injection into a file that already carries chunks *)

Lemma png_result_nonempty {E} (t : jsstring) :
  t <> [] -> @png_result E (Some t) = Some (PngMetadata t).
Proof. destruct t; [congruence|reflexivity]. Qed.

(** X12: whatever follows the signature in the target file (also a
    [parameters] chunk it already carries, or bytes that are no chunks at
    all), the file that [injectPngMetadata] returns extracts to the injected
    text. *)
Theorem inject_overrides_existing
  (E : Type) (rest : list byte) (t : jsstring) :
  t <> [] -> well_formed t = true -> starts_with_bom t = false ->
  11 + byteLength (TextEncoder_encode t) < 2 ^ 32 ->
  exists b,
    injectPngMetadata (PNG_SIGNATURE ++ rest) t = Ok b
    /\ @extractPngMetadata E (blob_bytes b) = Some (Ok (Some (PngMetadata t))).
Proof.
  intros Hne Hwf Hbom Hlen.
  destruct (inject_then_extract E rest t Hlen) as [b [Hb Hx]].
  exists b. split; [exact Hb|].
  rewrite Hx, decode_encode, png_result_nonempty by assumption. reflexivity.
Qed.

(** X12, witness: a target that already carries the text [masterpiece]. *)
Lemma inject_overrides_existing_witness :
  let rest := flat_map encode_chunk (tagged_chunks (js_lit "masterpiece")) in
  (js_lit "lowres" <> [] /\ well_formed (js_lit "lowres") = true
   /\ starts_with_bom (js_lit "lowres") = false
   /\ 11 + byteLength (TextEncoder_encode (js_lit "lowres")) < 2 ^ 32)
  /\ @extractPngMetadata unit (PNG_SIGNATURE ++ rest)
     = Some (Ok (Some (PngMetadata (js_lit "masterpiece"))))
  /\ exists b,
      injectPngMetadata (PNG_SIGNATURE ++ rest) (js_lit "lowres") = Ok b
      /\ @extractPngMetadata unit (blob_bytes b)
         = Some (Ok (Some (PngMetadata (js_lit "lowres")))).
Proof.
  cbv zeta.
  assert (H1 : js_lit "lowres" <> []) by discriminate.
  assert (H2 : well_formed (js_lit "lowres") = true) by (vm_compute; reflexivity).
  assert (H3 : starts_with_bom (js_lit "lowres") = false) by reflexivity.
  assert (H4 : 11 + byteLength (TextEncoder_encode (js_lit "lowres")) < 2 ^ 32)
    by (vm_compute; reflexivity).
  split; [auto|]. split; [vm_compute; reflexivity|].
  exact (inject_overrides_existing unit _ (js_lit "lowres") H1 H2 H3 H4).
Defined.

Lemma byteLength_parameters_chunk t :
  byteLength (encode_chunk (parameters_chunk t))
  = 23 + byteLength (TextEncoder_encode t).
Proof.
  unfold encode_chunk, parameters_chunk, text_chunk, make_chunk.
  cbn [chunk_type chunk_data chunk_crc].
  rewrite !byteLength_app, !byteLength_be32, keyData_bytes.
  change (byteLength (ascii_bytes "tEXt")) with 4.
  change (byteLength (ascii_bytes "parameters")) with 10.
  change (byteLength [x00]) with 1. lia.
Qed.

(** X13: a second injection keeps the chunk of the first one: the new chunk goes
    in front of it and the file grows by both chunks; and when the text
    injected last is not empty, is well-formed UTF-16, does not start with
    U+FEFF and fits the length field, extraction returns that text,
    whatever the older text is. *)
Theorem inject_twice_newest_first
  (E : Type) (rest : list byte) (older newer : jsstring) :
  newer <> [] -> well_formed newer = true -> starts_with_bom newer = false ->
  11 + byteLength (TextEncoder_encode newer) < 2 ^ 32 ->
  exists b1 b2,
    injectPngMetadata (PNG_SIGNATURE ++ rest) older = Ok b1
    /\ injectPngMetadata (blob_bytes b1) newer = Ok b2
    /\ blob_bytes b2
       = PNG_SIGNATURE ++ encode_chunk (parameters_chunk newer)
         ++ encode_chunk (parameters_chunk older) ++ rest
    /\ byteLength (blob_bytes b2)
       = byteLength (PNG_SIGNATURE ++ rest)
         + (23 + byteLength (TextEncoder_encode older))
         + (23 + byteLength (TextEncoder_encode newer))
    /\ @extractPngMetadata E (blob_bytes b2)
       = Some (Ok (Some (PngMetadata newer))).
Proof.
  intros Hne Hwf Hbom Hlen.
  pose proof (injectPngMetadata_signature rest older) as H1.
  destruct (inject_then_extract E
              (encode_chunk (parameters_chunk older) ++ rest) newer Hlen)
    as [b2 [H2 Hx]].
  rewrite decode_encode, png_result_nonempty in Hx by assumption.
  eexists. exists b2. split; [exact H1|]. cbn [blob_bytes].
  split; [exact H2|].
  rewrite injectPngMetadata_signature in H2.
  assert (Hb : blob_bytes b2
               = PNG_SIGNATURE ++ encode_chunk (parameters_chunk newer)
                 ++ encode_chunk (parameters_chunk older) ++ rest)
    by (injection H2 as <-; reflexivity).
  split; [exact Hb|]. split; [|exact Hx].
  rewrite Hb, !byteLength_app, !byteLength_parameters_chunk. lia.
Qed.

(** X13, witness: two injections into the example file. *)
Lemma inject_twice_newest_first_witness :
  (js_lit "lowres" <> [] /\ well_formed (js_lit "lowres") = true
   /\ starts_with_bom (js_lit "lowres") = false
   /\ 11 + byteLength (TextEncoder_encode (js_lit "lowres")) < 2 ^ 32)
  /\ exists b1 b2,
      injectPngMetadata (PNG_SIGNATURE ++ skipn 8 example_png)
                        (js_lit "masterpiece") = Ok b1
      /\ injectPngMetadata (blob_bytes b1) (js_lit "lowres") = Ok b2
      /\ blob_bytes b2
         = PNG_SIGNATURE ++ encode_chunk (parameters_chunk (js_lit "lowres"))
           ++ encode_chunk (parameters_chunk (js_lit "masterpiece"))
           ++ skipn 8 example_png
      /\ byteLength (blob_bytes b2)
         = byteLength (PNG_SIGNATURE ++ skipn 8 example_png)
           + (23 + byteLength (TextEncoder_encode (js_lit "masterpiece")))
           + (23 + byteLength (TextEncoder_encode (js_lit "lowres")))
      /\ @extractPngMetadata unit (blob_bytes b2)
         = Some (Ok (Some (PngMetadata (js_lit "lowres")))).
Proof.
  assert (H1 : js_lit "lowres" <> []) by discriminate.
  assert (H2 : well_formed (js_lit "lowres") = true) by (vm_compute; reflexivity).
  assert (H3 : starts_with_bom (js_lit "lowres") = false) by reflexivity.
  assert (H4 : 11 + byteLength (TextEncoder_encode (js_lit "lowres")) < 2 ^ 32)
    by (vm_compute; reflexivity).
  split; [auto|].
  exact (inject_twice_newest_first unit (skipn 8 example_png)
           (js_lit "masterpiece") (js_lit "lowres") H1 H2 H3 H4).
Defined.

Lemma be32_toUint32 v : be32 (toUint32 v) = be32 v.
Proof.
  unfold be32. cbv zeta.
  rewrite (toUint32_small (toUint32 v)) by apply toUint32_range.
  reflexivity.
Qed.

Lemma crc_ok_parameters_chunk t : crc_ok (parameters_chunk t).
Proof.
  unfold crc_ok, parameters_chunk, text_chunk, make_chunk.
  cbn [chunk_type chunk_data chunk_crc].
  rewrite <- be32_toUint32, crc32_unsigned. reflexivity.
Qed.

(** X14: injection keeps a file a sequence of well-formed chunks whose CRC fields
    hold the reference CRC-32 of their type and data: the output is the
    input's chunks behind one more such chunk. *)
Theorem inject_preserves_valid_chunks (chunks : list Chunk) (t : jsstring) :
  Forall wf_chunk chunks -> Forall crc_ok chunks ->
  11 + byteLength (TextEncoder_encode t) < 2 ^ 32 ->
  exists b,
    injectPngMetadata (png_of chunks) t = Ok b
    /\ blob_bytes b = png_of (parameters_chunk t :: chunks)
    /\ Forall wf_chunk (parameters_chunk t :: chunks)
    /\ Forall crc_ok (parameters_chunk t :: chunks).
Proof.
  intros Hwf Hcrc Hlen. unfold png_of at 1.
  rewrite injectPngMetadata_signature.
  eexists. split; [reflexivity|]. cbn [blob_bytes].
  split; [reflexivity|].
  split; constructor; auto using wf_parameters_chunk, crc_ok_parameters_chunk.
Qed.

Lemma example_chunks_crc_ok :
  Forall crc_ok [make_chunk "IHDR" example_ihdr;
                 make_chunk "IDAT" example_idat; make_chunk "IEND" []].
Proof. repeat constructor; vm_compute; reflexivity. Qed.

(** X14, witness: the example file. *)
Lemma inject_preserves_valid_chunks_witness :
  let chunks := [make_chunk "IHDR" example_ihdr;
                 make_chunk "IDAT" example_idat; make_chunk "IEND" []] in
  (Forall wf_chunk chunks /\ Forall crc_ok chunks
   /\ 11 + byteLength (TextEncoder_encode (js_lit "masterpiece")) < 2 ^ 32)
  /\ exists b,
      injectPngMetadata (png_of chunks) (js_lit "masterpiece") = Ok b
      /\ blob_bytes b = png_of (parameters_chunk (js_lit "masterpiece") :: chunks)
      /\ Forall wf_chunk (parameters_chunk (js_lit "masterpiece") :: chunks)
      /\ Forall crc_ok (parameters_chunk (js_lit "masterpiece") :: chunks).
Proof.
  cbv zeta.
  assert (H1 : Forall wf_chunk
                 [make_chunk "IHDR" example_ihdr;
                  make_chunk "IDAT" example_idat; make_chunk "IEND" []])
    by wf_chunks.
  pose proof example_chunks_crc_ok as H2.
  assert (H3 : 11 + byteLength (TextEncoder_encode (js_lit "masterpiece"))
               < 2 ^ 32) by (vm_compute; reflexivity).
  split; [auto|].
  exact (inject_preserves_valid_chunks _ (js_lit "masterpiece") H1 H2 H3).
Defined.

(* ================================================================== *)
(** * The handlers on every file *)

(** X15: [handleExtract] always ends; it clears [processedImage]; its last status
    is [success] or [error], never [loading]; with [error] the cached
    metadata and the source name are those of before, with [success] the
    cache holds a result and the source name is the name of the file. *)
Theorem handleExtract_outcome
  (E : Type) (window_piexif : bool) (piexif_load : list byte -> result E)
  (st : AppState E) (file : File) :
  exists st',
    handleExtract window_piexif piexif_load st file = Some st'
    /\ processedImage st' = None
    /\ ((status_type (status st') = error
         /\ cachedMetadata st' = cachedMetadata st
         /\ sourceFileName st' = sourceFileName st)
        \/ (status (st') = {| status_type := success;
                              status_msg := MsgSaved (file_name file) |}
            /\ (exists m, cachedMetadata st' = Some m)
            /\ sourceFileName st' = file_name file)).
Proof.
  unfold handleExtract.
  destruct (String.eqb (file_type file) "image/png").
  - destruct (@extractPngMetadata_total E (file_bytes file)) as [r ->].
    destruct r as [[m|]|e]; eexists; (split; [reflexivity|]);
      (split; [reflexivity|]); cbn; eauto 6.
  - destruct (String.eqb (file_type file) "image/jpeg").
    + destruct window_piexif; cbn [negb].
      * unfold extractJpgMetadata.
        destruct (piexif_load (file_bytes file)); eexists;
          (split; [reflexivity|]); (split; [reflexivity|]); cbn; eauto 6.
      * eexists; (split; [reflexivity|]); (split; [reflexivity|]); cbn; eauto 6.
    + destruct (String.eqb (file_type file) "image/webp"); eexists;
        (split; [reflexivity|]); (split; [reflexivity|]); cbn; eauto 6.
Qed.

(** X16: [handleInject] never changes the cached metadata or the source name; it
    sets [processedImage] only together with the status [success], and then
    under the name of the file with [fixed_] in front; otherwise an earlier
    [processedImage] stays.  The status is left at [loading] exactly when
    metadata is cached and the type of the file is neither [image/png] nor
    [image/jpeg]. *)
Theorem handleInject_outcome
  (E : Type) (piexif_dump_insert : jsstring + E -> list byte -> result Blob)
  (st : AppState E) (file : File) :
  let st' := handleInject piexif_dump_insert st file in
  cachedMetadata st' = cachedMetadata st
  /\ sourceFileName st' = sourceFileName st
  /\ (processedImage st' = processedImage st
      /\ status_type (status st') <> success
      \/ status st' = {| status_type := success; status_msg := MsgRestored |}
         /\ exists blob,
              processedImage st'
              = Some {| url := blob;
                        name := String.append "fixed_" (file_name file) |})
  /\ (status_type (status st') = loading
      <-> cachedMetadata st <> None
          /\ file_type file <> "image/png"%string
          /\ file_type file <> "image/jpeg"%string).
Proof.
  cbv zeta. unfold handleInject.
  destruct (cachedMetadata st) as [cached|] eqn:Hc.
  2:{ cbn. rewrite Hc. repeat split; try (left; split); try discriminate;
      try tauto. }
  destruct (String.eqb_spec (file_type file) "image/png") as [Hp|Hp].
  - cbn [andb].
    destruct (negb (String.eqb (meta_type cached) "png")).
    + cbn. rewrite Hc. repeat split; try discriminate; try tauto.
      left. split; [reflexivity|discriminate].
    + rewrite Hp. cbn [String.eqb Ascii.eqb Bool.eqb andb].
      destruct (injectPngMetadata (file_bytes file) (ToString E (meta_data E cached)))
        as [b|e]; cbn; rewrite Hc; repeat split; try discriminate; try tauto.
      * right. split; [reflexivity|eauto].
      * left. split; [reflexivity|discriminate].
  - cbn [andb].
    destruct (String.eqb_spec (file_type file) "image/jpeg") as [Hj|Hj].
    + cbn [andb].
      destruct (negb (String.eqb (meta_type cached) "jpg")).
      * cbn. rewrite Hc. repeat split; try discriminate; try tauto.
        left. split; [reflexivity|discriminate].
      * destruct (injectJpgMetadata E piexif_dump_insert file (meta_data E cached))
          as [b|e]; cbn; rewrite Hc; repeat split; try discriminate; try tauto.
        -- right. split; [reflexivity|eauto].
        -- left. split; [reflexivity|discriminate].
    + cbn. rewrite Hc. repeat split; try discriminate; try tauto.
      left. split; [reflexivity|discriminate].
Qed.

(** * From a dropped source to the download *)

Lemma chunk_entry_decoded c keyword text :
  chunk_entry c = Some (keyword, text) -> exists bs, text = TextDecoder_decode bs.
Proof.
  unfold chunk_entry. destruct (chunk_is_tEXt c); [|discriminate].
  destruct (-1 <? find_null 0 (chunk_data c)); [|discriminate].
  intros H. eexists. injection H as _ <-. reflexivity.
Qed.

Lemma first_parameters_decoded chunks : forall text,
  first_parameters chunks = Some text -> exists bs, text = TextDecoder_decode bs.
Proof.
  induction chunks as [|c chunks IH]; intros text; cbn [first_parameters];
    [discriminate|].
  destruct (chunk_entry c) as [[keyword t]|] eqn:Hentry; [|apply IH].
  destruct (jsstring_eqb keyword (js_lit "parameters")); [|apply IH].
  intros H. injection H as <-. eapply chunk_entry_decoded, Hentry.
Qed.

Lemma first_parameters_well_formed chunks text :
  first_parameters chunks = Some text -> well_formed text = true.
Proof.
  intros H. destruct (first_parameters_decoded chunks text H) as [bs ->].
  apply TextDecoder_decode_well_formed.
Qed.

(** X17: the two drops of the page, on PNG files: a source file made of
    well-formed chunks is dropped on step 1 and a target file that starts
    with the signature on step 2.  When the first [parameters] text of the
    source is not empty, does not start with U+FEFF and fits the length
    field, the page ends with the status [success] and offers a download,
    named after the target, that extracts to exactly that text.  The text
    needs no condition on surrogates: what [extractPngMetadata] returns is
    well-formed UTF-16. *)
Theorem drop_png_restores_metadata
  (E : Type) (window_piexif : bool) (piexif_load : list byte -> result E)
  (piexif_dump_insert : jsstring + E -> list byte -> result Blob)
  (ui : Ui E) (source target : File)
  (chunks : list Chunk) (text : jsstring) (rest : list byte) :
  file_type source = "image/png"%string ->
  file_bytes source = png_of chunks ->
  Forall wf_chunk chunks ->
  first_parameters chunks = Some text ->
  text <> [] -> starts_with_bom text = false ->
  11 + byteLength (TextEncoder_encode text) < 2 ^ 32 ->
  file_type target = "image/png"%string ->
  file_bytes target = PNG_SIGNATURE ++ rest ->
  exists ui1,
    handleDrop window_piexif piexif_load piexif_dump_insert ui (drop_of source) 1
    = Some ui1
    /\ cachedMetadata (appState ui1) = Some (PngMetadata text)
    /\ exists ui2 blob,
    handleDrop window_piexif piexif_load piexif_dump_insert ui1
      (drop_of target) 2
    = Some ui2
    /\ processedImage (appState ui2)
       = Some {| url := blob;
                 name := String.append "fixed_" (file_name target) |}
    /\ status (appState ui2)
       = {| status_type := success; status_msg := MsgRestored |}
    /\ blob_type blob = "image/png"%string
    /\ @extractPngMetadata E (blob_bytes blob)
       = Some (Ok (Some (PngMetadata text))).
Proof.
  intros Hst Hsb Hwf Hfirst Hne Hbom Hlen Htt Htb.
  pose proof (first_parameters_well_formed chunks text Hfirst) as Hwell.
  destruct (inject_then_extract E rest text Hlen) as [blob [Hinj Hx]].
  rewrite decode_encode, png_result_nonempty in Hx by assumption.
  assert (Htype : blob_type blob = "image/png"%string).
  { rewrite injectPngMetadata_signature in Hinj. injection Hinj as <-.
    reflexivity. }
  unfold handleDrop, drop_of. cbn [dataTransfer_files Z.eqb Pos.eqb].
  unfold handleExtract. rewrite Hst, Hsb. cbn [String.eqb Ascii.eqb Bool.eqb].
  rewrite extractPngMetadata_png_of, Hfirst, png_result_nonempty by assumption.
  eexists. split; [reflexivity|]. cbn [appState cachedMetadata setStatus].
  split; [reflexivity|].
  unfold handleInject.
  cbn [appState cachedMetadata setDragActive setStatus setCachedMetadata
       setSourceFileName setProcessedImage].
  rewrite Htt, Htb.
  cbn [String.eqb Ascii.eqb Bool.eqb meta_type negb andb meta_data ToString].
  rewrite Hinj.
  eexists. exists blob. split; [reflexivity|].
  cbn [appState processedImage status setStatus setProcessedImage].
  repeat split; assumption.
Qed.

(** X17, witness: the tagged example file as the source, the example file as
    the target. *)
Lemma drop_png_restores_metadata_witness :
  let source := png_file (png_of (tagged_chunks (js_lit "masterpiece"))) in
  let target := png_file example_png in
  let ui := {| appState := cached_png_state unit; dragActive := true |} in
  let load := fun _ : list byte => @Throw unit (HostError "no EXIF") in
  let dump := fun (_ : jsstring + unit) (_ : list byte) =>
                @Throw Blob (HostError "no EXIF") in
  (file_type source = "image/png"%string
   /\ file_bytes source = png_of (tagged_chunks (js_lit "masterpiece"))
   /\ Forall wf_chunk (tagged_chunks (js_lit "masterpiece"))
   /\ first_parameters (tagged_chunks (js_lit "masterpiece"))
      = Some (js_lit "masterpiece")
   /\ js_lit "masterpiece" <> []
   /\ starts_with_bom (js_lit "masterpiece") = false
   /\ 11 + byteLength (TextEncoder_encode (js_lit "masterpiece")) < 2 ^ 32
   /\ file_type target = "image/png"%string
   /\ file_bytes target = PNG_SIGNATURE ++ skipn 8 example_png)
  /\ exists ui1,
      handleDrop true load dump ui (drop_of source) 1 = Some ui1
      /\ cachedMetadata (appState ui1) = Some (PngMetadata (js_lit "masterpiece"))
      /\ exists ui2 blob,
          handleDrop true load dump ui1 (drop_of target) 2 = Some ui2
          /\ processedImage (appState ui2)
             = Some {| url := blob;
                       name := String.append "fixed_" (file_name target) |}
          /\ status (appState ui2)
             = {| status_type := success; status_msg := MsgRestored |}
          /\ blob_type blob = "image/png"%string
          /\ @extractPngMetadata unit (blob_bytes blob)
             = Some (Ok (Some (PngMetadata (js_lit "masterpiece")))).
Proof.
  cbv zeta.
  assert (H3 : Forall wf_chunk (tagged_chunks (js_lit "masterpiece")))
    by (unfold tagged_chunks; wf_chunks).
  assert (H4 : first_parameters (tagged_chunks (js_lit "masterpiece"))
               = Some (js_lit "masterpiece")) by (vm_compute; reflexivity).
  assert (H5 : js_lit "masterpiece" <> []) by discriminate.
  assert (H6 : starts_with_bom (js_lit "masterpiece") = false) by reflexivity.
  assert (H7 : 11 + byteLength (TextEncoder_encode (js_lit "masterpiece"))
               < 2 ^ 32) by (vm_compute; reflexivity).
  split; [repeat split; assumption|].
  exact (drop_png_restores_metadata unit true _ _ _
           (png_file (png_of (tagged_chunks (js_lit "masterpiece"))))
           (png_file example_png)
           (tagged_chunks (js_lit "masterpiece")) (js_lit "masterpiece")
           (skipn 8 example_png)
           eq_refl eq_refl H3 H4 H5 H6 H7 eq_refl eq_refl).
Defined.

(** * Failures of the injection *)

(** X18: a target declared [image/png] with fewer than eight bytes: the
    injection throws a [RangeError], which [handleInject] reports as a
    failed injection; an earlier download stays in place. *)
Theorem handleInject_short_png
  (E : Type) (piexif_dump_insert : jsstring + E -> list byte -> result Blob)
  (st : AppState E) (data : jsstring) (file : File) :
  cachedMetadata st = Some (PngMetadata data) ->
  file_type file = "image/png"%string ->
  byteLength (file_bytes file) < 8 ->
  let st' := handleInject piexif_dump_insert st file in
  status st' = {| status_type := error;
                  status_msg := MsgInjectFailed RangeError |}
  /\ processedImage st' = processedImage st.
Proof.
  intros Hc Ht Hlen. cbv zeta. unfold handleInject. rewrite Hc, Ht.
  cbn [String.eqb Ascii.eqb Bool.eqb meta_type negb andb meta_data ToString].
  rewrite injectPngMetadata_eq.
  replace (8 <=? byteLength (file_bytes file)) with false
    by (symmetry; apply Z.leb_gt; exact Hlen).
  split; reflexivity.
Qed.

(** X18, witness: cached PNG metadata and a target of four bytes. *)
Lemma handleInject_short_png_witness :
  let file := png_file [x89; x50; x4e; x47] in
  (cachedMetadata (cached_png_state unit)
   = Some (PngMetadata (js_lit "best quality, 1girl"))
   /\ file_type file = "image/png"%string
   /\ byteLength (file_bytes file) < 8)
  /\ status (handleInject (fun _ _ => Throw (HostError "no EXIF"))
                          (cached_png_state unit) file)
     = {| status_type := error; status_msg := MsgInjectFailed RangeError |}
  /\ processedImage (handleInject (fun _ _ => Throw (HostError "no EXIF"))
                                  (cached_png_state unit) file)
     = processedImage (cached_png_state unit).
Proof.
  cbv zeta.
  assert (Hlen : byteLength (file_bytes (png_file [x89; x50; x4e; x47])) < 8)
    by (vm_compute; reflexivity).
  split; [repeat split; exact Hlen|].
  exact (handleInject_short_png unit _ (cached_png_state unit)
           (js_lit "best quality, 1girl") (png_file [x89; x50; x4e; x47])
           eq_refl eq_refl Hlen).
Defined.

(** * The JPEG path *)

(** X19: [handleInject] hands [piexif.dump] an EXIF object only, never the text
    of a PNG file: two libraries that agree on EXIF objects give the same
    state. *)
Theorem handleInject_dumps_exif_only
  (E : Type)
  (piexif_dump_insert piexif_dump_insert' : jsstring + E -> list byte -> result Blob)
  (st : AppState E) (file : File) :
  (forall exifObj bytes,
     piexif_dump_insert (inr exifObj) bytes
     = piexif_dump_insert' (inr exifObj) bytes) ->
  handleInject piexif_dump_insert st file
  = handleInject piexif_dump_insert' st file.
Proof.
  intros Hagree. unfold handleInject.
  destruct (cachedMetadata st) as [cached|]; [|reflexivity].
  destruct (String.eqb (file_type file) "image/png"); cbn [andb].
  - reflexivity.
  - destruct (String.eqb (file_type file) "image/jpeg"); cbn [andb];
      [|reflexivity].
    destruct cached as [d|exifObj]; cbn [meta_type negb]; [reflexivity|].
    cbn [String.eqb Ascii.eqb Bool.eqb negb meta_data].
    unfold injectJpgMetadata. rewrite Hagree. reflexivity.
Qed.

(** X19, witness: a library that refuses strings and one that accepts them. *)
Lemma handleInject_dumps_exif_only_witness :
  let st := {| cachedMetadata := Some (JpgMetadata tt);
               sourceFileName := "original.jpg";
               processedImage := None;
               status := {| status_type := success;
                            status_msg := MsgSaved "original.jpg" |} |} in
  let dump := fun (v : jsstring + unit) (bytes : list byte) =>
                match v with
                | inl _ => Throw (HostError "not an EXIF object")
                | inr _ => Ok {| blob_bytes := bytes; blob_type := "image/jpeg" |}
                end in
  let dump' := fun (_ : jsstring + unit) (bytes : list byte) =>
                 Ok {| blob_bytes := bytes; blob_type := "image/jpeg" |} in
  (forall exifObj bytes, dump (inr exifObj) bytes = dump' (inr exifObj) bytes)
  /\ handleInject dump st (jpeg_file [xff; xd8; xff; xd9])
     = handleInject dump' st (jpeg_file [xff; xd8; xff; xd9]).
Proof.
  cbv zeta. split; [reflexivity|].
  apply handleInject_dumps_exif_only. reflexivity.
Defined.

(** X20: the two drops of the page, on JPEG files, with the library loaded: when
    [piexif.load] returns an EXIF object for the source, the download is
    what [piexif.dump] and [piexif.insert] make of that object and the
    target, under the name of the target; when they throw, the status is
    the failure and no download is offered. *)
Theorem drop_jpeg_restores_exif
  (E : Type) (piexif_load : list byte -> result E)
  (piexif_dump_insert : jsstring + E -> list byte -> result Blob)
  (ui : Ui E) (source target : File) (exifObj : E) :
  file_type source = "image/jpeg"%string ->
  file_type target = "image/jpeg"%string ->
  piexif_load (file_bytes source) = Ok exifObj ->
  exists ui1,
    handleDrop true piexif_load piexif_dump_insert ui (drop_of source) 1
    = Some ui1
    /\ cachedMetadata (appState ui1) = Some (JpgMetadata exifObj)
    /\ exists ui2,
        handleDrop true piexif_load piexif_dump_insert ui1 (drop_of target) 2
        = Some ui2
        /\ match piexif_dump_insert (inr exifObj) (file_bytes target) with
           | Ok blob =>
               processedImage (appState ui2)
               = Some {| url := blob;
                         name := String.append "fixed_" (file_name target) |}
               /\ status_type (status (appState ui2)) = success
           | Throw e =>
               processedImage (appState ui2) = None
               /\ status (appState ui2)
                  = {| status_type := error; status_msg := MsgInjectFailed e |}
           end.
Proof.
  intros Hst Htt Hload.
  unfold handleDrop, drop_of. cbn [dataTransfer_files Z.eqb Pos.eqb].
  unfold handleExtract. rewrite Hst.
  cbn [String.eqb Ascii.eqb Bool.eqb negb].
  unfold extractJpgMetadata. rewrite Hload.
  eexists. split; [reflexivity|]. cbn [appState cachedMetadata setStatus].
  split; [reflexivity|].
  unfold handleInject.
  cbn [appState cachedMetadata setDragActive setStatus setCachedMetadata
       setSourceFileName setProcessedImage].
  rewrite Htt.
  cbn [String.eqb Ascii.eqb Bool.eqb meta_type negb andb meta_data].
  unfold injectJpgMetadata.
  destruct (piexif_dump_insert (inr exifObj) (file_bytes target)) as [blob|e];
    eexists; (split; [reflexivity|]); split; reflexivity.
Qed.

(** X20, witness: a library whose EXIF object is the length of the file. *)
Lemma drop_jpeg_restores_exif_witness :
  let load := fun bytes : list byte => Ok (byteLength bytes) in
  let dump := fun (v : jsstring + Z) (bytes : list byte) =>
                match v with
                | inl _ => Throw (HostError "not an EXIF object")
                | inr _ => Ok {| blob_bytes := bytes; blob_type := "image/jpeg" |}
                end in
  let ui := {| appState := cached_png_state Z; dragActive := true |} in
  let source := jpeg_file [xff; xd8; xff; xe1; xff; xd9] in
  let target := jpeg_file [xff; xd8; xff; xd9] in
  (file_type source = "image/jpeg"%string
   /\ file_type target = "image/jpeg"%string
   /\ load (file_bytes source) = Ok 6)
  /\ exists ui1,
      handleDrop true load dump ui (drop_of source) 1 = Some ui1
      /\ cachedMetadata (appState ui1) = Some (JpgMetadata 6)
      /\ exists ui2,
          handleDrop true load dump ui1 (drop_of target) 2 = Some ui2
          /\ processedImage (appState ui2)
             = Some {| url := {| blob_bytes := [xff; xd8; xff; xd9];
                                 blob_type := "image/jpeg" |};
                       name := "fixed_edited.jpg" |}
          /\ status_type (status (appState ui2)) = success.
Proof.
  cbv zeta. split; [repeat split|].
  exact (drop_jpeg_restores_exif Z (fun bytes => Ok (byteLength bytes)) _
           {| appState := cached_png_state Z; dragActive := true |}
           (jpeg_file [xff; xd8; xff; xe1; xff; xd9])
           (jpeg_file [xff; xd8; xff; xd9]) 6 eq_refl eq_refl eq_refl).
Defined.

(** * Drag events *)

Lemma handleDrag_appState {E} (ui : Ui E) e :
  appState (handleDrag ui e) = appState ui.
Proof.
  unfold handleDrag.
  destruct (String.eqb (event_type e) "dragenter"
            || String.eqb (event_type e) "dragover"); [reflexivity|].
  destruct (String.eqb (event_type e) "dragleave"); reflexivity.
Qed.

Lemma fold_handleDrag_appState {E} events : forall ui : Ui E,
  appState (fold_left handleDrag events ui) = appState ui.
Proof.
  induction events as [|e events IH]; intros ui; cbn [fold_left];
    [reflexivity|].
  rewrite IH. apply handleDrag_appState.
Qed.

(** X21: the drag events that come before a drop change only the highlight of
    the drop zone: the drop gives the same state as without them, with the
    highlight off. *)
Theorem drag_events_do_not_interfere
  (E : Type) (window_piexif : bool) (piexif_load : list byte -> result E)
  (piexif_dump_insert : jsstring + E -> list byte -> result Blob)
  (ui : Ui E) (events : list DragEvent) (e : DragEvent) (step : Z) :
  handleDrop window_piexif piexif_load piexif_dump_insert
    (fold_left handleDrag events ui) e step
  = handleDrop window_piexif piexif_load piexif_dump_insert ui e step
  /\ forall ui',
       handleDrop window_piexif piexif_load piexif_dump_insert ui e step
       = Some ui' -> dragActive ui' = false.
Proof.
  split.
  - unfold handleDrop, setDragActive. rewrite fold_handleDrag_appState.
    reflexivity.
  - intros ui'. unfold handleDrop, setDragActive.
    cbn [appState dragActive].
    destruct (dataTransfer_files e) as [|file files].
    + intros [= <-]. reflexivity.
    + destruct (step =? 1).
      * destruct (handleExtract window_piexif piexif_load (appState ui) file);
          [|discriminate].
        intros [= <-]. reflexivity.
      * destruct (step =? 2); intros [= <-]; reflexivity.
Qed.
